(** * lengolf-invoice: the line-item parser and the invoice calculator

    A shallow embedding of [generate_invoice] of [src/lengolf-invoice/app.py]
    (the form parser of lines 218-256, the totals of lines 259-260 and the
    file name of lines 284-286) together with the Python built-ins it calls:
    [str.strip], [str.split], [str.startswith], [int], [float], [round],
    [sorted], [re.match], [re.sub] and [datetime.strptime].

    Conventions.
    - A Python [str] is a [string]; a character is a code point below 256
      (Latin-1), so the only decimal digits are [0-9], the white space of
      [str.strip] is the set listed in [is_space] and the white space that
      [int] and [float] skip is the set listed in [is_num_space].
    - A Python [float] is an IEEE-754 binary64 number, modelled by the
      [spec_float] of the standard library with [prec = 53], [emax = 1024];
      all operations round to nearest, ties to even.
    - A Python [int] is a [Z]; the interpreter's optional limit on the length
      of a decimal literal handed to [int] is not modelled.
    - An uncaught [ValueError] is the result [None] of the function that
      raises it. *)

From Stdlib Require Import ZArith List String Ascii Bool Lia QArith Qround Qabs.
From Stdlib Require Import Qpower Lqa.
From Stdlib Require Import Permutation Sorted.
From Stdlib Require Import SpecFloat.
Import ListNotations.

Local Open Scope string_scope.
Local Open Scope Z_scope.

(** ** Python strings *)

Module PyStr.

Definition code (c : ascii) : Z := Z.of_N (N_of_ascii c).

(** [str.isspace] on one character, as used by [str.strip()]: TAB, LF,
    VT, FF, CR, FS, GS, RS, US, SPACE, NEL and NBSP. *)
Definition is_space (c : ascii) : bool :=
  let n := code c in
  ((9 <=? n) && (n <=? 13)) || ((28 <=? n) && (n <=? 32))
  || (n =? 133) || (n =? 160).

(** The white space that [int] and [float] skip around a number: of the
    characters below 127 only TAB, LF, VT, FF, CR and SPACE, and above
    them the spaces NEL and NBSP. *)
Definition is_num_space (c : ascii) : bool :=
  let n := code c in
  ((9 <=? n) && (n <=? 13)) || (n =? 32) || (n =? 133) || (n =? 160).

Definition is_digit (c : ascii) : bool :=
  let n := code c in (48 <=? n) && (n <=? 57).

Definition digit_val (c : ascii) : option Z :=
  if is_digit c then Some (code c - 48) else None.

Definition is_empty (s : string) : bool :=
  match s with EmptyString => true | String _ _ => false end.

(** [s.lstrip(p)], [s.rstrip(p)] and [s.strip(p)] for a set of characters
    given by its membership test. *)
Fixpoint lstrip (p : ascii -> bool) (s : string) : string :=
  match s with
  | EmptyString => EmptyString
  | String c r => if p c then lstrip p r else s
  end.

Fixpoint rstrip (p : ascii -> bool) (s : string) : string :=
  match s with
  | EmptyString => EmptyString
  | String c r =>
      let r' := rstrip p r in
      if p c && is_empty r' then EmptyString else String c r'
  end.

Definition strip_set (p : ascii -> bool) (s : string) : string :=
  rstrip p (lstrip p s).

(** [s.strip()] *)
Definition strip (s : string) : string := strip_set is_space s.

(** The text of a number without the white space around it. *)
Definition num_strip (s : string) : string := strip_set is_num_space s.

(** [s.strip('_')] *)
Definition strip_underscore (s : string) : string :=
  strip_set (Ascii.eqb "_") s.

(** [s.startswith(p)] *)
Fixpoint startswith (p s : string) : bool :=
  match p with
  | EmptyString => true
  | String a p' =>
      match s with
      | String b s' => Ascii.eqb a b && startswith p' s'
      | EmptyString => false
      end
  end.

(** [s.split(sep)] for a one-character separator: never empty. *)
Fixpoint split (sep : ascii) (s : string) : list string :=
  match s with
  | EmptyString => [EmptyString]
  | String c r =>
      if Ascii.eqb c sep then EmptyString :: split sep r
      else match split sep r with
           | h :: t => String c h :: t
           | [] => [String c EmptyString]
           end
  end.

(** An optional sign, as [int] and [float] read it: [true] for [-]. *)
Definition read_sign (s : string) : bool * string :=
  match s with
  | String "-" r => (true, r)
  | String "+" r => (false, r)
  | _ => (false, s)
  end.

(** The digits of a decimal literal after its first digit, where one
    underscore may separate two digits. *)
Fixpoint int_digits (acc : Z) (s : string) : option Z :=
  match s with
  | EmptyString => Some acc
  | String c r =>
      match digit_val c with
      | Some d => int_digits (10 * acc + d) r
      | None =>
          if Ascii.eqb c "_" then
            match r with
            | String c' r' =>
                match digit_val c' with
                | Some d => int_digits (10 * acc + d) r'
                | None => None
                end
            | EmptyString => None
            end
          else None
      end
  end.

(** The limit of [int] on the length of a decimal literal: the value of
    [sys.get_int_max_str_digits()], which is 4300 unless the interpreter is
    started otherwise, and the program does not change it. *)
Definition int_max_str_digits : Z := 4300.

(** The number of digits of a text: sign, white space and underscores do
    not count for the limit, leading zeros do. *)
Fixpoint count_digits (s : string) : Z :=
  match s with
  | EmptyString => 0
  | String c r => (if is_digit c then 1 else 0) + count_digits r
  end.

(** [int(s)] in base 10; [None] is [ValueError], which is also raised for
    a literal of more than [int_max_str_digits] digits. *)
Definition py_int (s : string) : option Z :=
  let (neg, u) := read_sign (num_strip s) in
  match u with
  | String c r =>
      match digit_val c with
      | Some d =>
          if int_max_str_digits <? count_digits u then None
          else option_map (fun n => if neg then - n else n) (int_digits d r)
      | None => None
      end
  | EmptyString => None
  end.

(** The longest prefix of decimal digits and what follows it. *)
Fixpoint digits_prefix (s : string) : list Z * string :=
  match s with
  | EmptyString => ([], EmptyString)
  | String c r =>
      match digit_val c with
      | Some d => let (ds, rest) := digits_prefix r in (d :: ds, rest)
      | None => ([], s)
      end
  end.

Definition Z_of_digits (ds : list Z) : Z :=
  fold_left (fun a d => 10 * a + d) ds 0.

(** Whether every character of a text passes a test. *)
Fixpoint all_chars (p : ascii -> bool) (s : string) : bool :=
  match s with
  | EmptyString => true
  | String c r => p c && all_chars p r
  end.

(** ASCII lower case of one character. *)
Definition lower (c : ascii) : ascii :=
  let n := code c in
  if (65 <=? n) && (n <=? 90) then ascii_of_N (Z.to_N (n + 32)) else c.

Fixpoint lower_str (s : string) : string :=
  match s with
  | EmptyString => EmptyString
  | String c r => String (lower c) (lower_str r)
  end.

End PyStr.

(** ** Python floats: IEEE-754 binary64 *)

Module PyFloat.

Import PyStr.

Definition prec : Z := 53.
Definition emax : Z := 1024.

Definition float : Type := spec_float.

Definition add : float -> float -> float := SFadd prec emax.
Definition sub : float -> float -> float := SFsub prec emax.
Definition mul : float -> float -> float := SFmul prec emax.
Definition div : float -> float -> float := SFdiv prec emax.

(** [x > 0] for a float [x]; false on NaN and on both zeros. *)
Definition gt_zero (x : float) : bool := SFltb (S754_zero false) x.

Definition zero : float := S754_zero false.

(** The binary64 number nearest to [p / q] (ties to even) with sign [s],
    for [0 <= p] and [0 < q]: the correctly rounded value that the
    decimal-to-binary conversion of [float] and [round] returns. Too large
    a quotient gives an infinity, too small a one a zero. *)
Definition of_ratio (s : bool) (p q : Z) : float :=
  match p with
  | Z0 => S754_zero s
  | _ =>
      let '(mz, ez, lz) := SFdiv_core_binary prec emax p 0 q 0 in
      binary_round_aux prec emax s mz ez lz
  end.

(** The binary64 number nearest to [m * 10 ^ e], [0 <= m]. *)
Definition of_decimal (s : bool) (m e : Z) : float :=
  match e with
  | Zneg _ => of_ratio s m (10 ^ (- e))
  | _ => of_ratio s (m * 10 ^ e) 1
  end.

(** Underscores of a numeric literal: each must stand between two digits;
    they are removed before the number is read. [prev] tells whether the
    previous character was a digit. *)
Fixpoint remove_underscores (prev : bool) (s : string) : option string :=
  match s with
  | EmptyString => Some EmptyString
  | String c r =>
      if Ascii.eqb c "_" then
        match r with
        | String c' _ =>
            if prev && is_digit c' then remove_underscores false r else None
        | EmptyString => None
        end
      else option_map (String c) (remove_underscores (is_digit c) r)
  end.

(** A decimal literal without sign: digits, an optional point, digits, an
    optional exponent; the result is [(m, e)] for the value [m * 10 ^ e]. *)
Definition parse_decimal (u : string) : option (Z * Z) :=
  let (ip, r1) := digits_prefix u in
  let (fp, r2) :=
    match r1 with
    | String "." r => digits_prefix r
    | _ => ([], r1)
    end in
  match (ip ++ fp)%list with
  | [] => None
  | ds =>
      let m := Z_of_digits ds in
      let k := Z.of_nat (List.length fp) in
      match r2 with
      | EmptyString => Some (m, - k)
      | String c r3 =>
          if Ascii.eqb (lower c) "e" then
            let (eneg, r4) := read_sign r3 in
            match digits_prefix r4 with
            | (d :: ed, EmptyString) =>
                let x := Z_of_digits (d :: ed) in
                Some (m, (if eneg then - x else x) - k)
            | _ => None
            end
          else None
      end
  end.

(** [float(s)]; [None] is [ValueError]. *)
Definition py_float (s : string) : option float :=
  match remove_underscores false (num_strip s) with
  | None => None
  | Some t =>
      let (neg, u) := read_sign t in
      match parse_decimal u with
      | Some (m, e) => Some (of_decimal neg m e)
      | None =>
          let w := lower_str u in
          if String.eqb w "inf" || String.eqb w "infinity"
          then Some (S754_infinity neg)
          else if String.eqb w "nan" then Some S754_nan
          else None
      end
  end.

(** The integer nearest to [num / den], [0 < den], an exact half going to
    the even neighbour. *)
Definition round_half_even (num den : Z) : Z :=
  let q := num / den in
  let r := num mod den in
  match 2 * r ?= den with
  | Lt => q
  | Gt => q + 1
  | Eq => if Z.even q then q else q + 1
  end.

(** [round(x, ndigits)] for [0 <= ndigits]: the exact binary value of [x]
    is rounded to the nearest multiple of [10 ^ - ndigits], ties to even,
    and the decimal result is converted back to binary64. Infinities, NaN
    and zeros round to themselves. *)
Definition py_round (x : float) (ndigits : Z) : float :=
  match x with
  | S754_finite s m e =>
      if 323 <? ndigits then x
      else
        let scale := 10 ^ ndigits in
        let n :=
          match e with
          | Zneg _ => round_half_even (Zpos m * scale) (2 ^ (- e))
          | _ => Zpos m * 2 ^ e * scale
          end in
        of_ratio s n scale
  | _ => x
  end.

End PyFloat.

(** ** The form and its dictionary *)

Module Form.

Import PyStr.

(** The submitted form: its fields in the order they were sent. A key may
    occur more than once. *)
Definition form : Type := list (string * string).

(** [request.form.get(k)]: the first value sent for [k]. *)
Fixpoint form_get (k : string) (f : form) : option string :=
  match f with
  | [] => None
  | (k', v) :: r => if String.eqb k k' then Some v else form_get k r
  end.

(** The result of [request.form.to_dict(flat=False)]: each key once, in
    the order of its first occurrence, with the list of all its values in
    the order sent. That list is never empty, so it is kept as its first
    value and the rest, and [items_data[key][0]] is the first component. *)
Definition dict : Type := list (string * (string * list string)).

Fixpoint add_value (k v : string) (d : dict) : dict :=
  match d with
  | [] => [(k, (v, []))]
  | (k', (v0, vs)) :: r =>
      if String.eqb k k' then (k', (v0, (vs ++ [v])%list)) :: r
      else (k', (v0, vs)) :: add_value k v r
  end.

Definition to_dict (f : form) : dict :=
  fold_left (fun d kv => add_value (fst kv) (snd kv) d) f [].

(** [d[key]]; [None] is [KeyError]. *)
Fixpoint dict_get (key : string) (d : dict) : option (string * list string) :=
  match d with
  | [] => None
  | (k, vs) :: r => if String.eqb key k then Some vs else dict_get key r
  end.

Definition keys (d : dict) : list string := map fst d.

(** The keys of a dictionary with an image [h] of their first values. *)
Definition heads (h : string -> string) (d : dict) : list (string * string) :=
  map (fun kv => (fst kv, h (fst (snd kv)))) d.

End Form.

(** ** [sorted] with a key function *)

Module PySort.

Section Sort.
Context {A : Type}.

(** Insertion that keeps an element in front of the later elements of the
    same key. *)
Fixpoint insert (x : Z * A) (l : list (Z * A)) : list (Z * A) :=
  match l with
  | [] => [x]
  | y :: r => if fst x <=? fst y then x :: l else y :: insert x r
  end.

(** A stable sort by ascending key. [sorted] is stable, and a stable sort
    has one result only, so this is the list that [sorted] returns. *)
Definition sort (l : list (Z * A)) : list (Z * A) := fold_right insert [] l.

(** The keys are computed first, in list order; the first key function
    call that raises makes [sorted] raise. *)
Fixpoint decorate (key : A -> option Z) (l : list A) : option (list (Z * A)) :=
  match l with
  | [] => Some []
  | x :: r =>
      match key x with
      | None => None
      | Some k => option_map (cons (k, x)) (decorate key r)
      end
  end.

(** [sorted(l, key=key)] *)
Definition py_sorted (key : A -> option Z) (l : list A) : option (list A) :=
  option_map (fun dl => map snd (sort dl)) (decorate key l).

(** The order of the keys. *)
Definition key_le (x y : Z * A) : Prop := fst x <= fst y.

End Sort.

End PySort.

(** ** The line-item parser (lines 218-252) *)

Module Parser.

Import PyStr PyFloat Form PySort.

Inductive field : Type := Description | Amount.

(** [current_item]: the dictionary [{'description': ..., 'amount': ...}]. *)
Record item : Type := { description : string; amount : float }.

(** [s] without its prefix [p], when it has it. *)
Fixpoint drop_prefix (p s : string) : option string :=
  match p with
  | EmptyString => Some s
  | String a p' =>
      match s with
      | String b s' => if Ascii.eqb a b then drop_prefix p' s' else None
      | EmptyString => None
      end
  end.

(** The longest prefix of digits, as text, and what follows it. *)
Fixpoint span_digits (s : string) : string * string :=
  match s with
  | EmptyString => (EmptyString, EmptyString)
  | String c r =>
      if is_digit c then let (ds, rest) := span_digits r in (String c ds, rest)
      else (EmptyString, s)
  end.

(** [re.match(r'items\[(\d+)\]\[(description|amount)\]', key)]: groups 1
    and 2 of a match at the start of [key]; what follows the last bracket
    is not looked at. *)
Definition match_key (key : string) : option (string * field) :=
  match drop_prefix "items[" key with
  | None => None
  | Some r0 =>
      let (ds, r1) := span_digits r0 in
      if is_empty ds then None
      else
        match drop_prefix "][" r1 with
        | None => None
        | Some r2 =>
            match drop_prefix "description" r2 with
            | Some r3 =>
                if startswith "]" r3 then Some (ds, Description) else None
            | None =>
                match drop_prefix "amount" r2 with
                | Some r3 =>
                    if startswith "]" r3 then Some (ds, Amount) else None
                | None => None
                end
            end
        end
  end.

(** The sort key [lambda x: int(x.split('[')[1].split(']')[0])]. *)
Definition sort_key (x : string) : option Z :=
  match nth_error (split "[" x) 1 with
  | None => None
  | Some a =>
      match split "]" a with
      | h :: _ => py_int h
      | [] => None
      end
  end.

(** The variables of the loop. *)
Record state : Type := {
  line_items : list item;
  subtotal : float;
  current_item : option item;
  current_idx : Z
}.

Definition init : state :=
  {| line_items := []; subtotal := zero; current_item := None;
     current_idx := -1 |}.

(** [current_item.get('description') and current_item.get('amount', 0) > 0] *)
Definition valid (it : item) : bool :=
  negb (is_empty (description it)) && gt_zero (amount it).

(** Lines 235-237 and 250-252: append the item in progress if it is valid. *)
Definition flush (st : state) : state :=
  match current_item st with
  | Some it =>
      if valid it then
        {| line_items := (line_items st ++ [it])%list;
           subtotal := add (subtotal st) (amount it);
           current_item := current_item st;
           current_idx := current_idx st |}
      else st
  | None => st
  end.

(** Lines 241-247. *)
Definition set_field (it : item) (f : field) (value : string) : item :=
  match f with
  | Description => {| description := value; amount := amount it |}
  | Amount =>
      {| description := description it;
         amount := match py_float value with
                   | Some x => x
                   | None => zero
                   end |}
  end.

(** One iteration of the loop of lines 225-247 at [key]. [None] is an
    uncaught exception. *)
Definition step (items_data : dict) (st : state) (key : string) : option state :=
  match match_key key with
  | None => Some st
  | Some (g1, f) =>
      match py_int g1, dict_get key items_data with
      | Some idx, Some (v0, _) =>
          let value := strip v0 in
          let st1 :=
            if idx =? current_idx st then st
            else
              let st' := flush st in
              {| line_items := line_items st';
                 subtotal := subtotal st';
                 current_item :=
                   Some {| description := EmptyString; amount := zero |};
                 current_idx := idx |} in
          match current_item st1 with
          | Some it =>
              Some {| line_items := line_items st1;
                      subtotal := subtotal st1;
                      current_item := Some (set_field it f value);
                      current_idx := current_idx st1 |}
          | None => None
          end
      | _, _ => None
      end
  end.

Fixpoint loop (items_data : dict) (st : state) (ks : list string) : option state :=
  match ks with
  | [] => Some st
  | k :: r =>
      match step items_data st k with
      | Some st' => loop items_data st' r
      | None => None
      end
  end.

(** Lines 219-252: the line items and their subtotal. *)
Definition parse_line_items (items_data : dict) : option (list item * float) :=
  match py_sorted sort_key (filter (startswith "items[") (keys items_data)) with
  | None => None
  | Some item_keys =>
      match loop items_data init item_keys with
      | None => None
      | Some st => let st' := flush st in Some (line_items st', subtotal st')
      end
  end.

End Parser.

(** ** [datetime.strptime(s, '%Y-%m-%d').date()] *)

Module PyDate.

Import PyStr.

Record date : Type := { year : Z; month : Z; day : Z }.

Definition is_leap (y : Z) : bool :=
  ((y mod 4 =? 0) && negb (y mod 100 =? 0)) || (y mod 400 =? 0).

Definition days_in_month (y m : Z) : Z :=
  if m =? 2 then (if is_leap y then 29 else 28)
  else if (m =? 4) || (m =? 6) || (m =? 9) || (m =? 11) then 30
  else 31.

Definition between (lo hi : ascii) (c : ascii) : bool :=
  (code lo <=? code c) && (code c <=? code hi).

Definition dv (c : ascii) : Z := code c - 48.

(** [%Y]: the pattern [\d\d\d\d]. *)
Definition read_year (s : string) : option (Z * string) :=
  match s with
  | String a (String b (String c (String d r))) =>
      if is_digit a && is_digit b && is_digit c && is_digit d
      then Some (1000 * dv a + 100 * dv b + 10 * dv c + dv d, r)
      else None
  | _ => None
  end.

(** [%m] followed by the hyphen of the format: the pattern
    [(1[0-2]|0[1-9]|[1-9])-], the alternatives tried from the left. *)
Definition read_month (s : string) : option (Z * string) :=
  match s with
  | String a (String b (String "-" r)) =>
      if (Ascii.eqb a "1" && between "0" "2" b)
         || (Ascii.eqb a "0" && between "1" "9" b)
      then Some (10 * dv a + dv b, r)
      else None
  | String a (String "-" r) =>
      if between "1" "9" a then Some (dv a, r) else None
  | _ => None
  end.

(** [%d] at the end of the format: the pattern
    [(3[0-1]|[1-2]\d|0[1-9]|[1-9]| [1-9])]; the first alternative that
    matches is taken and must use up the text. *)
Definition read_day (s : string) : option (Z * string) :=
  match s with
  | String a (String b r) =>
      if (Ascii.eqb a "3" && between "0" "1" b)
         || (between "1" "2" a && is_digit b)
         || (Ascii.eqb a "0" && between "1" "9" b)
      then Some (10 * dv a + dv b, r)
      else if between "1" "9" a then Some (dv a, String b r)
      else if Ascii.eqb a " " && between "1" "9" b then Some (dv b, r)
      else None
  | String a EmptyString =>
      if between "1" "9" a then Some (dv a, EmptyString) else None
  | EmptyString => None
  end.

(** [None] is [ValueError]: no match, text left over, or no such day. *)
Definition strptime_Ymd (s : string) : option date :=
  match read_year s with
  | Some (y, String "-" r1) =>
      match read_month r1 with
      | Some (m, r2) =>
          match read_day r2 with
          | Some (d, EmptyString) =>
              if (1 <=? y) && (d <=? days_in_month y m)
              then Some {| year := y; month := m; day := d |}
              else None
          | _ => None
          end
      | None => None
      end
  | _ => None
  end.

End PyDate.

(** ** The request handler [generate_invoice] *)

Module Invoice.

Import PyStr PyFloat Form Parser PyDate.

(** A row of the table [suppliers]; only the name is used here. *)
Record supplier : Type := {
  name : string;
  address_line1 : string;
  address_line2 : string;
  tax_id : string
}.

(** [invoice_data] of lines 263-271; the date is kept as parsed. *)
Record invoice_data : Type := {
  invoice_number : string;
  invoice_date : date;
  items : list item;
  inv_subtotal : float;
  tax_rate : float;
  tax_amount : float;
  total : float
}.

(** How a request ends: a flashed error and the redirect, with nothing
    rendered nor written, or the invoice rendered and handed to the PDF
    writer under a file name. *)
Inductive outcome : Type :=
| Rejected (message : string)
| Generated (filename : string) (data : invoice_data).

(** The truth value of a form field that may be absent. *)
Definition truthy (v : option string) : bool :=
  match v with
  | Some s => negb (is_empty s)
  | None => false
  end.

(** [re.sub(r'[^a-zA-Z0-9_.-]', '_', s)] *)
Definition safe_char (c : ascii) : bool :=
  between "a" "z" c || between "A" "Z" c || between "0" "9" c
  || Ascii.eqb c "_" || Ascii.eqb c "." || Ascii.eqb c "-".

Fixpoint sub_unsafe (s : string) : string :=
  match s with
  | EmptyString => EmptyString
  | String c r => String (if safe_char c then c else "_"%char) (sub_unsafe r)
  end.

(** Lines 284-285. *)
Definition clean (s : string) : string := strip_underscore (sub_unsafe s).

(** Line 286. *)
Definition make_filename (supplier_name invoice_no : string) : string :=
  ("LENGOLF_" ++ clean supplier_name ++ "_Inv_" ++ clean invoice_no ++ ".pdf")%string.

Definition hundred : float := S754_finite false 7036874417766400 (-46).

(** Lines 259-260. *)
Definition compute_tax (subtotal rate : float) : float :=
  py_round (div (mul subtotal rate) hundred) 2.

Definition compute_total (subtotal tax : float) : float :=
  py_round (sub subtotal tax) 2.

Section Handler.

(** [SELECT * FROM suppliers WHERE id = ?] *)
Variable find_supplier : string -> option supplier.

(** [generate_invoice] for the submitted form; [None] is an exception
    that nothing catches. *)
Definition generate_invoice (f : form) : option outcome :=
  let supplier_id := form_get "supplier_id" f in
  let invoice_no := form_get "invoice_number" f in
  let invoice_date_str := form_get "invoice_date" f in
  let tax_rate_str := form_get "tax_rate" f in
  match supplier_id, invoice_no, invoice_date_str, tax_rate_str with
  | Some sid, Some number, Some date_str, Some rate_str =>
      if negb (truthy supplier_id && truthy invoice_no
               && truthy invoice_date_str && truthy tax_rate_str)
      then Some (Rejected
                   "Missing required fields (Supplier, Invoice #, Date, Tax Rate).")
      else
        match py_float rate_str, strptime_Ymd date_str with
        | Some rate, Some d =>
            match find_supplier sid with
            | None => Some (Rejected "Selected supplier not found.")
            | Some sup =>
                match parse_line_items (to_dict f) with
                | None => None
                | Some ([], _) =>
                    Some (Rejected
                            "Cannot generate invoice with no valid line items.")
                | Some (its, sub_total) =>
                    let tax := compute_tax sub_total rate in
                    let tot := compute_total sub_total tax in
                    Some (Generated
                            (make_filename (name sup) number)
                            {| invoice_number := number;
                               invoice_date := d;
                               items := its;
                               inv_subtotal := sub_total;
                               tax_rate := rate;
                               tax_amount := tax;
                               total := tot |})
                end
            end
        | _, _ => Some (Rejected "Invalid date or tax rate format.")
        end
  | _, _, _, _ =>
      Some (Rejected
              "Missing required fields (Supplier, Invoice #, Date, Tax Rate).")
  end.

(** The fields in front of the line items are all there and acceptable:
    the request gets as far as the line items. *)
Definition header_ok (f : form) : Prop :=
  exists sid number date_str rate_str,
    form_get "supplier_id" f = Some sid
    /\ form_get "invoice_number" f = Some number
    /\ form_get "invoice_date" f = Some date_str
    /\ form_get "tax_rate" f = Some rate_str
    /\ is_empty sid = false /\ is_empty number = false
    /\ is_empty date_str = false /\ is_empty rate_str = false
    /\ py_float rate_str <> None
    /\ strptime_Ymd date_str <> None
    /\ find_supplier sid <> None.

End Handler.

End Invoice.

(** ** What the parser is to compute, in the words of the specification *)

Module LineItemSpec.

Import PyStr PyFloat Form PySort Parser.

(** A field of an indexed line item, as a key of the form denotes it: the
    numeric index, the field and the trimmed text. *)
Definition entry : Type := (Z * field * string)%type.

Definition idx (e : entry) : Z := fst (fst e).
Definition fld (e : entry) : field := snd (fst e).
Definition txt (e : entry) : string := snd e.

Definition field_eqb (a b : field) : bool :=
  match a, b with
  | Description, Description | Amount, Amount => true
  | _, _ => false
  end.

(** The entry that one key of the dictionary denotes, if it matches the
    pattern; the text is the first value sent for the key, trimmed. *)
Definition entry_of (kv : string * (string * list string)) : list entry :=
  match match_key (fst kv) with
  | Some (g1, f) =>
      match py_int g1 with
      | Some i => [(i, f, strip (fst (snd kv)))]
      | None => []
      end
  | None => []
  end.

(** The entries of a dictionary, in the order of its keys. *)
Definition entries (d : dict) : list entry := flat_map entry_of d.

(** The text that was given last for field [f] of index [i]. *)
Definition last_text (es : list entry) (i : Z) (f : field) : option string :=
  fold_left
    (fun acc e => if (idx e =? i) && field_eqb (fld e) f then Some (txt e) else acc)
    es None.

(** The amount that a text stands for: a text that is no number counts
    as zero. *)
Definition amount_of_text (t : string) : float :=
  match py_float t with
  | Some x => x
  | None => zero
  end.

(** The item of index [i]: a missing description is empty, a missing
    amount is zero. *)
Definition item_at (es : list entry) (i : Z) : item :=
  {| description :=
       match last_text es i Description with
       | Some t => t
       | None => EmptyString
       end;
     amount :=
       match last_text es i Amount with
       | Some t => amount_of_text t
       | None => zero
       end |}.

(** Adjacent duplicates removed. *)
Fixpoint uniq (l : list Z) : list Z :=
  match l with
  | [] => []
  | x :: r =>
      match r with
      | y :: _ => if x =? y then uniq r else x :: uniq r
      | [] => [x]
      end
  end.

(** The indices that occur, each once, in ascending numeric order. *)
Definition indices (es : list entry) : list Z :=
  uniq (map fst (sort (map (fun e => (idx e, tt)) es))).

(** The line items: the valid items in ascending order of their index. *)
Definition spec_items (es : list entry) : list item :=
  filter valid (map (item_at es) (indices es)).

(** The subtotal as the code accumulates it: binary64 additions from
    [0.0], from left to right. *)
Definition float_sum (l : list float) : float := fold_left add l zero.

(** Whether [sorted] gets a key for every key that starts with [items[]. *)
Definition sortable (d : dict) : bool :=
  forallb
    (fun k => match sort_key k with Some _ => true | None => false end)
    (filter (startswith "items[") (keys d)).



(** The exact value of a finite float. *)
Definition value (x : float) : option Q :=
  match x with
  | S754_zero _ => Some 0%Q
  | S754_finite s m e =>
      let v := (inject_Z (Zpos m) * Qpower (2 # 1) e)%Q in
      Some (if s then Qopp v else v)
  | _ => None
  end.

(** The sum of exact values; [None] when one of them is not finite. *)
Fixpoint exact_sum (l : list float) : option Q :=
  match l with
  | [] => Some 0%Q
  | x :: r =>
      match value x, exact_sum r with
      | Some a, Some b => Some (a + b)%Q
      | _, _ => None
      end
  end.

(** Rounding to a whole number of hundredths, an exact half going up. *)
Definition half_up_cents (q : Q) : Z := Qfloor (q * 100 + (1 # 2))%Q.

(** [n] is an integer nearest to [num / den], and the even one of the two
    when [num / den] lies half-way between them. *)
Definition nearest_even (num den n : Z) : Prop :=
  2 * Z.abs (num - n * den) <= den
  /\ (2 * Z.abs (num - n * den) = den -> Z.even n = true).

(** [n] hundredths is the multiple of 0.01 nearest to the magnitude of the
    finite float [x], ties to even: it is within 0.005 of it. *)
Definition hundredths_of (x : float) (n : Z) : Prop :=
  match x with
  | S754_finite _ m (Zneg k) => nearest_even (Zpos m * 100) (2 ^ Zpos k) n
  | S754_finite _ m e => n = Zpos m * 2 ^ e * 100
  | _ => False
  end.

(** Tax amount, total and subtotal are numbers, and tax amount plus total
    is within 0.01 of the subtotal. *)
Definition cent_law (tax tot sub_total : float) : Prop :=
  exists t o s,
    value tax = Some t /\ value tot = Some o /\ value sub_total = Some s
    /\ (Qabs (t + o - s) <= 1 # 100)%Q.

(** The key of a field of an item, as the form sends it: [items[], the
    index in digits, [][], the name of the field and []]; the pattern of
    the loop does not look at what follows. *)
Definition field_name (fd : field) : string :=
  match fd with
  | Description => "description"
  | Amount => "amount"
  end.

Definition item_key (g : string) (fd : field) (rest : string) : string :=
  ("items[" ++ g ++ "][" ++ field_name fd ++ "]" ++ rest)%string.

(** The number that a text of decimal digits denotes. *)
Fixpoint dec_value_from (acc : Z) (g : string) : Z :=
  match g with
  | EmptyString => acc
  | String c r => dec_value_from (10 * acc + (code c - 48)) r
  end.

Definition dec_value (g : string) : Z := dec_value_from 0 g.

(** The text of an index that [int] accepts: digits, at least one and at
    most 4300. *)
Definition index_text (g : string) : Prop :=
  all_chars is_digit g = true /\ is_empty g = false
  /\ (String.length g <= 4300)%nat.

(** Every key that starts with [items[] is the key of a field of an
    item. *)
Definition well_keyed (ks : list string) : Prop :=
  Forall (fun k => startswith "items[" k = true ->
                   exists g fd rest, k = item_key g fd rest /\ index_text g)
    ks.

End LineItemSpec.

(** ** What a trimmed text is *)

Module FilenameSpec.

Import PyStr.

Definition first_char (s : string) : option ascii :=
  match s with
  | EmptyString => None
  | String c _ => Some c
  end.

Fixpoint last_char (s : string) : option ascii :=
  match s with
  | EmptyString => None
  | String c EmptyString => Some c
  | String _ r => last_char r
  end.

(** [u] is [t] without its leading and trailing characters of the set [p]. *)
Definition trimmed (p : ascii -> bool) (t u : string) : Prop :=
  exists pre post,
    t = (pre ++ u ++ post)%string
    /\ all_chars p pre = true /\ all_chars p post = true
    /\ (forall c, first_char u = Some c -> p c = false)
    /\ (forall c, last_char u = Some c -> p c = false).

End FilenameSpec.

(** ** Example requests *)

Module Examples.

Import Form.

(** A table of suppliers with one row. *)
Definition demo_suppliers (sid : string) : option Invoice.supplier :=
  if String.eqb sid "1"
  then Some {| Invoice.name := "Acme & Co.";
               Invoice.address_line1 := EmptyString;
               Invoice.address_line2 := EmptyString;
               Invoice.tax_id := EmptyString |}
  else None.

(** The text of an index of 4301 digits. *)
Definition long_index : string :=
  string_of_list_ascii (repeat "1"%char 4301%nat).

(** A request with one line item and the given date, rate and amount. *)
Definition request (date rate amount : string) : form :=
  [("supplier_id", "1"); ("invoice_number", "7");
   ("invoice_date", date); ("tax_rate", rate);
   ("items[0][description]", "Rent"); ("items[0][amount]", amount)].

End Examples.

(** ** The loop seen as a fold over entries *)

Module LoopModel.

Import PyStr PyFloat Form PySort Parser LineItemSpec.

Definition blank : item := {| description := EmptyString; amount := zero |}.

(** Lines 235-239: the item in progress is finished and a new one begun. *)
Definition fresh (st : state) (i : Z) : state :=
  {| line_items := line_items (flush st);
     subtotal := subtotal (flush st);
     current_item := Some blank;
     current_idx := i |}.

(** The effect of one matching key on the variables of the loop. *)
Definition astep (st : state) (e : entry) : state :=
  let st1 := if idx e =? current_idx st then st else fresh st (idx e) in
  {| line_items := line_items st1;
     subtotal := subtotal st1;
     current_item :=
       Some (set_field
               (match current_item st1 with Some it => it | None => blank end)
               (fld e) (txt e));
     current_idx := current_idx st1 |}.

(** The entry of a key that [sorted] has paired with its sort key. *)
Definition aentry (d : dict) (p : Z * string) : list entry :=
  match match_key (snd p), dict_get (snd p) d with
  | Some (_, f), Some (v0, _) => [(fst p, f, strip v0)]
  | _, _ => []
  end.

(** What the loop has established once the entries [es] are processed. *)
Definition processed (es : list entry) (st : state) : Prop :=
  match es with
  | [] => st = init
  | _ =>
      exists done,
        uniq (map idx es) = (done ++ [current_idx st])%list
        /\ Forall (fun i => i < current_idx st) done
        /\ last (map idx es) 0 = current_idx st
        /\ current_item st = Some (item_at es (current_idx st))
        /\ line_items st = filter valid (map (item_at es) done)
        /\ subtotal st = float_sum (map amount (line_items st))
  end.

(** The valid items of entries that are already in index order. *)
Definition spec_of_sorted (es : list entry) : list item :=
  filter valid (map (item_at es) (uniq (map idx es))).

(** The item in progress exists as soon as an index has been seen. *)
Definition started (st : state) : Prop :=
  current_item st = None -> current_idx st < 0.

(** The keys that [sorted] receives, each with its sort key. *)
Definition decorated (d : dict) : list (Z * string) :=
  flat_map (fun k => match sort_key k with Some z => [(z, k)] | None => [] end)
    (filter (startswith "items[") (keys d)).

End LoopModel.

(** ** Signs of floats *)

Module FloatSign.

Import PyFloat.

(** A float that is [+0.0], a positive finite number or [+inf]: neither
    negative nor NaN. *)
Definition is_nonneg (x : float) : bool :=
  match x with
  | S754_zero false | S754_finite false _ _ | S754_infinity false => true
  | _ => false
  end.

End FloatSign.

(** ** The value of a float as a rational number *)

Module FloatValue.

Import PyFloat.

Definition pow2 (e : Z) : Q := Qpower (2 # 1) e.

(** The number [m * 2 ^ e]. *)
Definition F2Q (m e : Z) : Q := (inject_Z m * pow2 e)%Q.

(** A float whose mantissa is not too short for its exponent: it has 53
    binary digits at least, or the exponent is the least one. The floats
    that [float], [+] and [round] return are such. *)
Definition well_scaled (x : float) : Prop :=
  match x with
  | S754_finite _ m e => e <= fexp prec emax (Zdigits2 (Zpos m) + e)
  | _ => True
  end.

(** The float that rounding returns for a mantissa and an exponent. *)
Definition rounded (s : bool) (m2 e2 : Z) : float :=
  match m2 with
  | Z0 => S754_zero s
  | Zpos m => S754_finite s m e2
  | Zneg _ => S754_nan
  end.

End FloatValue.

(** ** The dates that [create_invoice_form] and [generate_invoice] print *)

Module DateText.

Import PyStr PyDate.

(** The character of a decimal digit. *)
Definition digit_char (n : Z) : ascii := ascii_of_N (Z.to_N (48 + n)).

(** [%d] and [%m]: two digits, zero-padded. *)
Definition pad2 (n : Z) : string :=
  String (digit_char (n / 10)) (String (digit_char (n mod 10)) EmptyString).

(** [%Y] for the years 1 to 9999 of a [date], as the C library prints
    it: the decimal number, without padding. *)
Definition str_year (y : Z) : string :=
  if y <? 10 then String (digit_char y) EmptyString
  else if y <? 100 then pad2 y
  else if y <? 1000 then String (digit_char (y / 100)) (pad2 (y mod 100))
  else (pad2 (y / 100) ++ pad2 (y mod 100))%string.

(** [d.strftime('%Y-%m-%d')], the default date of line 152. *)
Definition strftime_Ymd (d : date) : string :=
  (str_year (year d) ++ "-" ++ pad2 (month d) ++ "-" ++ pad2 (day d))%string.

(** [d.strftime('%Y%m')], the default invoice number of line 151. *)
Definition strftime_Ym (d : date) : string :=
  (str_year (year d) ++ pad2 (month d))%string.

(** [d.strftime('%d/%m/%Y')], the date shown on the invoice (line 265). *)
Definition strftime_dmY (d : date) : string :=
  (pad2 (day d) ++ "/" ++ pad2 (month d) ++ "/" ++ str_year (year d))%string.

(** The dates that the class [date] can hold. *)
Definition valid_date (d : date) : Prop :=
  1 <= year d <= 9999 /\ 1 <= month d <= 12
  /\ 1 <= day d <= days_in_month (year d) (month d).

End DateText.

(** ** The list of generated files of [create_invoice_form] (lines 156-163) *)

Module Listing.

Import PyStr PySort.

(** [s.endswith(p)] *)
Fixpoint endswith (p s : string) : bool :=
  match s with
  | EmptyString => is_empty p
  | String _ r => String.eqb p s || endswith p r
  end.

(** The latest ten PDF files of the folder, newest first.

    [listdir] is the result of [os.listdir(PDF_FOLDER)] and [getmtime] that
    of [os.path.getmtime] on a name of the folder; [None] is
    [FileNotFoundError], which the handler catches around the whole
    expression. A modification time is a finite float in the source; the
    finite floats are, in their order, the integer multiples of the
    smallest one, and the time is kept as that integer. With
    [reverse=True] the sort stays stable, the files of one time keeping
    their order: it is the stable ascending sort by the opposite key. *)
Definition generated_files
    (listdir : option (list string)) (getmtime : string -> option Z)
  : list string :=
  match listdir with
  | None => []
  | Some names =>
      match py_sorted (fun f => option_map Z.opp (getmtime f))
              (filter (endswith ".pdf") names) with
      | None => []
      | Some l => firstn 10 l
      end
  end.

(** The sort key of a file: the opposite of its time. *)
Definition newest_key (getmtime : string -> option Z) (f : string) : option Z :=
  option_map Z.opp (getmtime f).

(** File [x] is at least as new as file [y]; both times are known. *)
Definition newer_or_same (getmtime : string -> option Z) (x y : string) : Prop :=
  match getmtime x, getmtime y with
  | Some tx, Some ty => ty <= tx
  | _, _ => False
  end.

End Listing.

(** ** The request handler [add_supplier] (lines 109-142) *)

Module Suppliers.

Import PyStr PyFloat Form.

(** The values bound to the INSERT of lines 129-132; an absent form field
    and an absent price are NULL. *)
Record supplier_row : Type := {
  row_name : string;
  row_address_line1 : option string;
  row_address_line2 : option string;
  row_tax_id : option string;
  row_default_description : option string;
  row_default_unit_price : option float
}.

(** What the database answers to the INSERT and the commit. *)
Inductive db_result : Type :=
| Db_ok
| Db_integrity_error (e : string)
| Db_error (e : string).

Inductive category : Type := Success | Failure.

(** How the request ends: without the field [name] the look-up
    [request.form['name']] fails and the request is answered as a bad
    request; otherwise a message is flashed and the browser is sent back
    to the list of suppliers, after the INSERT of [inserted] if there is
    one, committed or rolled back. *)
Inductive add_outcome : Type :=
| Bad_request
| Redirected (cat : category) (message : string)
    (inserted : option supplier_row) (committed : bool).

Definition quote : string := String (ascii_of_nat 34) EmptyString.

Section AddSupplier.

(** The INSERT and the commit, as the database decides them. *)
Variable execute : supplier_row -> db_result.

Definition add_supplier (f : form) : add_outcome :=
  match form_get "name" f with
  | None => Bad_request
  | Some name =>
      let address1 := form_get "address_line1" f in
      let address2 := form_get "address_line2" f in
      let tax := form_get "tax_id" f in
      let default_desc := form_get "default_description" f in
      let default_price_str := form_get "default_unit_price" f in
      let insert default_price :=
        let row := {| row_name := name;
                      row_address_line1 := address1;
                      row_address_line2 := address2;
                      row_tax_id := tax;
                      row_default_description := default_desc;
                      row_default_unit_price := default_price |} in
        match execute row with
        | Db_ok =>
            Redirected Success
              ("Supplier " ++ quote ++ name ++ quote ++ " added successfully.")
              (Some row) true
        | Db_integrity_error e =>
            Redirected Failure
              ("Error adding supplier: Could be a duplicate Tax/ID. ("
               ++ e ++ ")")
              (Some row) false
        | Db_error e =>
            Redirected Failure
              ("Database error adding supplier: " ++ e)
              (Some row) false
        end in
      match default_price_str with
      | Some (String c r) =>
          match py_float (String c r) with
          | Some x => insert (Some x)
          | None =>
              Redirected Failure "Invalid default price format." None false
          end
      | _ => insert None
      end
  end.

End AddSupplier.

End Suppliers.

(** * Properties *)

(** ** The stable sort *)

Module PySortFacts.

Import PySort.

Section Facts.
Context {A : Type}.

Lemma insert_perm (x : Z * A) l : Permutation (insert x l) (x :: l).
Proof.
  induction l as [|y r IH]; simpl; [reflexivity|].
  destruct (fst x <=? fst y); [reflexivity|].
  rewrite IH. apply perm_swap.
Qed.

Lemma sort_perm (l : list (Z * A)) : Permutation (sort l) l.
Proof.
  induction l as [|x r IH]; simpl; [reflexivity|].
  rewrite insert_perm. now constructor.
Qed.

Lemma insert_sorted (x : Z * A) l :
  StronglySorted key_le l -> StronglySorted key_le (insert x l).
Proof.
  induction 1 as [|y r Hs IH Hall]; simpl.
  - repeat constructor.
  - destruct (Z.leb_spec (fst x) (fst y)) as [Hle|Hgt].
    + constructor; [now constructor|].
      constructor; [exact Hle|].
      eapply Forall_impl; [|exact Hall].
      unfold key_le. intros; lia.
    + constructor; [exact IH|].
      eapply Permutation_Forall; [symmetry; apply insert_perm|].
      constructor; [unfold key_le; lia | exact Hall].
Qed.

Lemma sort_sorted (l : list (Z * A)) : StronglySorted key_le (sort l).
Proof.
  induction l; simpl; [constructor | now apply insert_sorted].
Qed.

(** Stability: the elements of one key keep their order. *)
Lemma filter_insert (i : Z) (x : Z * A) l :
  filter (fun y => fst y =? i) (insert x l)
  = if fst x =? i then x :: filter (fun y => fst y =? i) l
    else filter (fun y => fst y =? i) l.
Proof.
  induction l as [|y r IH]; simpl; [reflexivity|].
  destruct (Z.leb_spec (fst x) (fst y)) as [Hle|Hgt]; simpl; [reflexivity|].
  rewrite IH.
  destruct (Z.eqb_spec (fst y) i), (Z.eqb_spec (fst x) i); try reflexivity.
  lia.
Qed.

Lemma filter_sort (i : Z) (l : list (Z * A)) :
  filter (fun y => fst y =? i) (sort l) = filter (fun y => fst y =? i) l.
Proof.
  induction l as [|x r IH]; simpl; [reflexivity|].
  rewrite filter_insert, IH. reflexivity.
Qed.

Lemma decorate_spec (key : A -> option Z) l :
  decorate key l
  = if forallb (fun x => match key x with Some _ => true | None => false end) l
    then Some (flat_map (fun x => match key x with
                                  | Some k => [(k, x)]
                                  | None => []
                                  end) l)
    else None.
Proof.
  induction l as [|x r IH]; simpl; [reflexivity|].
  destruct (key x); simpl; [|reflexivity].
  rewrite IH. now destruct (forallb _ r).
Qed.

End Facts.

End PySortFacts.

(** ** Strings, [int] and the form keys *)

Module KeyFacts.

Import PyStr Form Parser.

Lemma read_sign_other c r :
  c <> "-"%char -> c <> "+"%char ->
  read_sign (String c r) = (false, String c r).
Proof.
  intros H1 H2.
  destruct c as [[] [] [] [] [] [] [] []]; try reflexivity; congruence.
Qed.

(** Case analysis on the integer tests of a goal. *)
Ltac ztests :=
  repeat match goal with
         | H : andb _ _ = true |- _ => apply andb_true_iff in H as [? ?]
         | H : (_ <=? _) = true |- _ => apply Z.leb_le in H
         | H : (_ =? _) = true |- _ => apply Z.eqb_eq in H
         | |- context [?a <=? ?b] => destruct (Z.leb_spec a b)
         | |- context [?a =? ?b] => destruct (Z.eqb_spec a b)
         end;
  simpl; try reflexivity; try discriminate; try lia.

Lemma digit_not_space c : is_digit c = true -> is_num_space c = false.
Proof. unfold is_digit, is_num_space. intros H. ztests. Qed.

Lemma digit_val_digit c :
  is_digit c = true -> exists d, digit_val c = Some d /\ 0 <= d <= 9.
Proof.
  unfold digit_val. intros H. rewrite H. eexists; split; [reflexivity|].
  unfold is_digit in H. ztests.
Qed.

Lemma rstrip_none p s :
  all_chars (fun c => negb (p c)) s = true -> rstrip p s = s.
Proof.
  induction s as [|c r IH]; simpl; [reflexivity|].
  intros H. apply andb_true_iff in H as [Hc Hr].
  rewrite (IH Hr). apply negb_true_iff in Hc. now rewrite Hc.
Qed.

Lemma all_chars_impl (p q : ascii -> bool) s :
  (forall c, p c = true -> q c = true) ->
  all_chars p s = true -> all_chars q s = true.
Proof.
  intros Hpq. induction s as [|c r IH]; simpl; [reflexivity|].
  intros H. apply andb_true_iff in H as [Hc Hr].
  now rewrite (Hpq _ Hc), (IH Hr).
Qed.

(** A text of digits has no white space around it. *)
Lemma strip_digits s : all_chars is_digit s = true -> num_strip s = s.
Proof.
  intros H. unfold num_strip, strip_set.
  assert (L : lstrip is_num_space s = s).
  { destruct s as [|c r]; [reflexivity|]. simpl in *.
    apply andb_true_iff in H as [Hc _].
    now rewrite (digit_not_space _ Hc). }
  rewrite L. apply rstrip_none.
  eapply all_chars_impl; [|exact H].
  intros c Hc. now rewrite (digit_not_space _ Hc).
Qed.

Lemma int_digits_digits s :
  all_chars is_digit s = true ->
  forall acc, 0 <= acc -> exists z, int_digits acc s = Some z /\ 0 <= z.
Proof.
  induction s as [|c r IH]; cbn [int_digits all_chars]; intros H acc Hacc.
  - eauto.
  - apply andb_true_iff in H as [Hc Hr].
    destruct (digit_val_digit _ Hc) as (d & -> & Hd).
    apply IH; [exact Hr | lia].
Qed.

Lemma count_digits_length s :
  all_chars is_digit s = true -> count_digits s = Z.of_nat (String.length s).
Proof.
  induction s as [|c r IH]; cbn [all_chars count_digits String.length];
    [reflexivity|].
  intros H. apply andb_true_iff in H as [Hc Hr].
  rewrite Hc, (IH Hr). lia.
Qed.

(** [int] of a non-empty text of digits: a natural number when the text
    has at most 4300 digits, and [ValueError] when it has more. *)
Lemma py_int_digits_cases s :
  all_chars is_digit s = true -> is_empty s = false ->
  if int_max_str_digits <? count_digits s then py_int s = None
  else exists z, py_int s = Some z /\ 0 <= z.
Proof.
  intros H Hne. unfold py_int. rewrite (strip_digits _ H).
  destruct s as [|c r]; [discriminate|].
  pose proof H as H'. cbn [all_chars] in H'.
  apply andb_true_iff in H' as [Hc Hr].
  rewrite read_sign_other.
  - destruct (digit_val_digit _ Hc) as (d & -> & Hd).
    destruct (int_max_str_digits <? count_digits (String c r));
      [reflexivity|].
    destruct (int_digits_digits _ Hr d) as (z & -> & Hz); [lia|].
    simpl. eauto.
  - intros ->. discriminate.
  - intros ->. discriminate.
Qed.

Lemma py_int_digits s :
  all_chars is_digit s = true -> is_empty s = false ->
  count_digits s <= int_max_str_digits ->
  exists z, py_int s = Some z /\ 0 <= z.
Proof.
  intros H Hne Hc. pose proof (py_int_digits_cases s H Hne) as P.
  destruct (Z.ltb_spec int_max_str_digits (count_digits s)); [lia | exact P].
Qed.

Lemma py_int_long s :
  all_chars is_digit s = true -> is_empty s = false ->
  int_max_str_digits < count_digits s -> py_int s = None.
Proof.
  intros H Hne Hc. pose proof (py_int_digits_cases s H Hne) as P.
  destruct (Z.ltb_spec int_max_str_digits (count_digits s)); [exact P | lia].
Qed.

Lemma py_int_digits_nonneg s z :
  all_chars is_digit s = true -> is_empty s = false ->
  py_int s = Some z -> 0 <= z.
Proof.
  intros H Hne Hz. pose proof (py_int_digits_cases s H Hne) as P.
  destruct (int_max_str_digits <? count_digits s); [congruence|].
  destruct P as (z' & Hz' & Hp). congruence.
Qed.

Lemma drop_prefix_app p s r : drop_prefix p s = Some r -> s = (p ++ r)%string.
Proof.
  revert s. induction p as [|a p IH]; simpl; intros s H.
  - now inversion H.
  - destruct s as [|b s]; [discriminate|].
    destruct (Ascii.eqb_spec a b); [|discriminate].
    subst. f_equal. now apply IH.
Qed.

Lemma span_digits_app s g r :
  span_digits s = (g, r) ->
  s = (g ++ r)%string /\ all_chars is_digit g = true.
Proof.
  revert g r. induction s as [|c s IH]; simpl; intros g r H.
  - inversion H. now split.
  - destruct (is_digit c) eqn:Hc.
    + destruct (span_digits s) as [ds rest]. inversion H; subst.
      destruct (IH _ _ eq_refl) as [-> Hd]. simpl. now rewrite Hc, Hd.
    + inversion H. now split.
Qed.

(** The first piece of a split: the text before the first separator. *)
Lemma split_first sep g r :
  all_chars (fun c => negb (Ascii.eqb c sep)) g = true ->
  split sep (g ++ String sep r) = g :: split sep r.
Proof.
  induction g as [|c g IH]; simpl; intros H.
  - now rewrite Ascii.eqb_refl.
  - apply andb_true_iff in H as [Hc Hg]. apply negb_true_iff in Hc.
    rewrite Hc, (IH Hg). reflexivity.
Qed.

Lemma digits_no_bracket (sep : ascii) g :
  is_digit sep = false ->
  all_chars is_digit g = true ->
  all_chars (fun c => negb (Ascii.eqb c sep)) g = true.
Proof.
  intros Hs. apply all_chars_impl. intros c Hc.
  destruct (Ascii.eqb_spec c sep); [congruence | reflexivity].
Qed.

(** A key that matches the pattern starts with [items[], its group 1 is
    a non-empty text of digits, and the sort key of the key is [int] of
    that group, as the index that the loop reads is. *)
Lemma match_key_sort_key k g f :
  match_key k = Some (g, f) ->
  startswith "items[" k = true
  /\ sort_key k = py_int g
  /\ all_chars is_digit g = true /\ is_empty g = false.
Proof.
  unfold match_key. intros H.
  destruct (drop_prefix "items[" k) as [r0|] eqn:E0; [|discriminate].
  apply drop_prefix_app in E0. subst k.
  destruct (span_digits r0) as [ds r1] eqn:E1.
  apply span_digits_app in E1 as [-> Hd].
  destruct (is_empty ds) eqn:Hne; [discriminate|].
  destruct (drop_prefix "][" r1) as [r2|] eqn:E2; [|discriminate].
  apply drop_prefix_app in E2. subst r1.
  assert (g = ds) as ->.
  { destruct (drop_prefix "description" r2).
    - destruct (startswith "]" s); now inversion H.
    - destruct (drop_prefix "amount" r2); [|discriminate].
      destruct (startswith "]" s); now inversion H. }
  split; [reflexivity|]. split; [|now split].
  unfold sort_key.
  change ("items[" ++ ds ++ "][" ++ r2)%string
    with ("items" ++ String "[" (ds ++ "]" ++ String "[" r2))%string.
  rewrite (split_first "[" "items") by reflexivity.
  replace (ds ++ "]" ++ String "[" r2)%string
    with ((ds ++ "]") ++ String "[" r2)%string.
  2:{ clear. induction ds; simpl; [reflexivity | now f_equal]. }
  rewrite split_first.
  2:{ clear - Hd. induction ds as [|c r IH]; simpl in *; [reflexivity|].
      apply andb_true_iff in Hd as [Hc Hr]. rewrite (IH Hr), andb_true_r.
      destruct (Ascii.eqb_spec c "["); [subst; discriminate | reflexivity]. }
  cbn [nth_error].
  change (ds ++ "]")%string with (ds ++ String "]" EmptyString)%string.
  rewrite split_first by (apply digits_no_bracket; [reflexivity | exact Hd]).
  reflexivity.
Qed.

(** The index of a key that matches is a natural number, and it is the
    sort key. *)
Lemma match_key_index k g f z :
  match_key k = Some (g, f) -> py_int g = Some z ->
  0 <= z /\ sort_key k = Some z.
Proof.
  intros M G. destruct (match_key_sort_key _ _ _ M) as (_ & S & Hd & Hne).
  split; [exact (py_int_digits_nonneg g z Hd Hne G) | congruence].
Qed.

(** A key that does not start with [items[] cannot match. *)
Lemma match_key_prefix k :
  startswith "items[" k = false -> match_key k = None.
Proof.
  intros H. destruct (match_key k) as [[g f]|] eqn:E; [|reflexivity].
  apply match_key_sort_key in E as [E _]. congruence.
Qed.

End KeyFacts.

(** ** The indexed items *)

Module SpecFacts.

Import PyStr PyFloat Form PySort Parser LineItemSpec LoopModel.

Lemma last_text_snoc es e i f :
  last_text (es ++ [e]) i f
  = if (idx e =? i) && field_eqb (fld e) f then Some (txt e)
    else last_text es i f.
Proof. unfold last_text. now rewrite fold_left_app. Qed.

Lemma item_at_snoc_other es e i :
  idx e <> i -> item_at (es ++ [e]) i = item_at es i.
Proof.
  intros H. unfold item_at. rewrite !last_text_snoc.
  apply Z.eqb_neq in H. now rewrite H.
Qed.

Lemma item_at_snoc_same es e :
  item_at (es ++ [e]) (idx e) = set_field (item_at es (idx e)) (fld e) (txt e).
Proof.
  unfold item_at. rewrite !last_text_snoc, Z.eqb_refl.
  destruct (fld e); reflexivity.
Qed.

(** An index without entries has the blank item. *)
Lemma last_text_absent es i f :
  ~ In i (map idx es) -> last_text es i f = None.
Proof.
  induction es as [|e es IH] using rev_ind; [reflexivity|].
  rewrite map_app, in_app_iff. intros H. rewrite last_text_snoc.
  destruct (Z.eqb_spec (idx e) i) as [E|E].
  - exfalso. apply H. right. left. exact E.
  - simpl. apply IH. tauto.
Qed.

Lemma item_at_absent es i : ~ In i (map idx es) -> item_at es i = blank.
Proof.
  intros H. unfold item_at. now rewrite !last_text_absent.
Qed.

(** The item of an index depends on the entries of that index only. *)
Lemma last_text_filter es i f :
  last_text (filter (fun e => idx e =? i) es) i f = last_text es i f.
Proof.
  induction es as [|e es IH] using rev_ind; [reflexivity|].
  rewrite filter_app, last_text_snoc. simpl.
  destruct (Z.eqb_spec (idx e) i) as [E|E]; simpl.
  - rewrite last_text_snoc, IH. apply Z.eqb_eq in E. now rewrite E.
  - now rewrite app_nil_r.
Qed.

Lemma item_at_filter es i :
  item_at (filter (fun e => idx e =? i) es) i = item_at es i.
Proof. unfold item_at. now rewrite !last_text_filter. Qed.

Lemma item_at_same_filter es es' i :
  filter (fun e => idx e =? i) es = filter (fun e => idx e =? i) es' ->
  item_at es i = item_at es' i.
Proof.
  intros H. rewrite <- (item_at_filter es), <- (item_at_filter es'), H.
  reflexivity.
Qed.

(** *** Adjacent duplicates *)

Lemma uniq_snoc l x :
  l <> [] ->
  uniq (l ++ [x]) = if last l 0 =? x then uniq l else (uniq l ++ [x])%list.
Proof.
  induction l as [|a r IH]; [congruence|]. intros _.
  destruct r as [|b r].
  - simpl. destruct (a =? x) eqn:E; [|reflexivity].
    apply Z.eqb_eq in E. now subst.
  - specialize (IH ltac:(discriminate)).
    change (uniq ((a :: b :: r) ++ [x]))
      with (if a =? b then uniq ((b :: r) ++ [x])
            else a :: uniq ((b :: r) ++ [x])).
    change (uniq (a :: b :: r))
      with (if a =? b then uniq (b :: r) else a :: uniq (b :: r)).
    change (last (a :: b :: r) 0) with (last (b :: r) 0).
    rewrite IH.
    destruct (a =? b), (last (b :: r) 0 =? x); reflexivity.
Qed.

Lemma in_uniq l x : In x (uniq l) <-> In x l.
Proof.
  induction l as [|a r IH]; [reflexivity|].
  destruct r as [|b r]; [reflexivity|].
  change (uniq (a :: b :: r))
    with (if a =? b then uniq (b :: r) else a :: uniq (b :: r)).
  destruct (Z.eqb_spec a b) as [E|E].
  - rewrite IH. subst. simpl. tauto.
  - simpl in *. rewrite IH. tauto.
Qed.

Lemma uniq_sorted l :
  StronglySorted Z.le l -> StronglySorted Z.lt (uniq l).
Proof.
  induction 1 as [|a r Hs IH Hall]; [constructor|].
  destruct r as [|b r]; [repeat constructor|].
  change (uniq (a :: b :: r))
    with (if a =? b then uniq (b :: r) else a :: uniq (b :: r)).
  destruct (Z.eqb_spec a b) as [E|E]; [exact IH|].
  constructor; [exact IH|].
  apply Forall_forall. intros x Hx. apply (proj1 (in_uniq _ _)) in Hx.
  rewrite Forall_forall in Hall.
  apply StronglySorted_inv in Hs as [_ Hb].
  rewrite Forall_forall in Hb.
  assert (a <= b) by (apply Hall; now left).
  simpl in Hx. destruct Hx as [<-|Hx]; [lia|].
  specialize (Hb _ Hx). lia.
Qed.

(** A strictly ascending list is determined by its elements. *)
Lemma ascending_unique l1 l2 :
  StronglySorted Z.lt l1 -> StronglySorted Z.lt l2 ->
  (forall x, In x l1 <-> In x l2) -> l1 = l2.
Proof.
  intros H1. revert l2.
  induction H1 as [|a r Hs IH Ha]; intros l2 H2 Hin.
  - destruct l2 as [|b l2]; [reflexivity|].
    exfalso. apply (Hin b). now left.
  - destruct H2 as [|b r2 Hs2 Hb].
    + exfalso. apply (Hin a). now left.
    + rewrite Forall_forall in Ha, Hb.
      assert (a = b).
      { destruct (proj1 (Hin a) (or_introl eq_refl)) as [E|E]; [now subst|].
        destruct (proj2 (Hin b) (or_introl eq_refl)) as [E'|E']; [now subst|].
        specialize (Ha _ E'). specialize (Hb _ E). lia. }
      subst b. f_equal. apply IH; [exact Hs2|].
      intros x. split; intros Hx.
      * destruct (proj1 (Hin x) (or_intror Hx)) as [E|E]; [|exact E].
        subst. specialize (Ha _ Hx). lia.
      * destruct (proj2 (Hin x) (or_intror Hx)) as [E|E]; [|exact E].
        subst. specialize (Hb _ Hx). lia.
Qed.

Lemma sorted_snoc_inv l x :
  StronglySorted Z.le (l ++ [x]) ->
  StronglySorted Z.le l /\ Forall (fun y => y <= x) l.
Proof.
  induction l as [|a r IH]; simpl; intros H.
  - split; constructor.
  - apply StronglySorted_inv in H as [Hs Ha].
    destruct (IH Hs) as [Hr Hx].
    apply Forall_app in Ha as [Ha Hax].
    split; constructor; try assumption.
    now inversion Hax.
Qed.

(** The indices are ascending and are those that occur. *)
Lemma indices_ascending es : StronglySorted Z.lt (indices es).
Proof.
  unfold indices. apply uniq_sorted.
  generalize (PySortFacts.sort_sorted (map (fun e => (idx e, tt)) es)).
  generalize (sort (map (fun e => (idx e, tt)) es)).
  induction 1 as [|a r Hs IH Ha]; simpl; constructor; [exact IH|].
  rewrite Forall_forall in *. intros x Hx.
  apply in_map_iff in Hx as (y & <- & Hy). exact (Ha _ Hy).
Qed.

Lemma in_indices es i : In i (indices es) <-> In i (map idx es).
Proof.
  unfold indices. rewrite in_uniq.
  assert (P : Permutation
                (map fst (sort (map (fun e => (idx e, tt)) es)))
                (map idx es)).
  { rewrite PySortFacts.sort_perm, map_map. reflexivity. }
  split; apply Permutation_in; [exact P | symmetry; exact P].
Qed.

End SpecFacts.

(** ** The loop *)

Module LoopFacts.

Import PyStr PyFloat Form PySort Parser LineItemSpec LoopModel SpecFacts.

Lemma started_astep st e : started (astep st e).
Proof. unfold started, astep. simpl. discriminate. Qed.

Lemma started_fold es st : started st -> started (fold_left astep es st).
Proof.
  revert st. induction es as [|e es IH]; simpl; intros st H; [exact H|].
  apply IH, started_astep.
Qed.

(** One iteration of the loop is [astep] at the entry of the key, and does
    not raise. *)
Lemma step_astep d st z k :
  sort_key k = Some z -> dict_get k d <> None -> started st ->
  step d st k = Some (fold_left astep (aentry d (z, k)) st).
Proof.
  intros Hk Hd Hst. unfold step, aentry. simpl.
  destruct (match_key k) as [[g f]|] eqn:M; [|reflexivity].
  destruct (KeyFacts.match_key_sort_key _ _ _ M) as (_ & Hk' & Hdg & Hng).
  rewrite Hk in Hk'. rewrite <- Hk'.
  pose proof (KeyFacts.py_int_digits_nonneg g z Hdg Hng (eq_sym Hk')) as Hz.
  destruct (dict_get k d) as [[v0 vs]|]; [|congruence].
  simpl. unfold astep, idx, fld, txt. simpl.
  destruct (Z.eqb_spec z (current_idx st)) as [E|E]; simpl; [|reflexivity].
  destruct (current_item st) eqn:C; [reflexivity|].
  specialize (Hst C). lia.
Qed.

Lemma loop_fold d (l : list (Z * string)) st :
  Forall (fun p => sort_key (snd p) = Some (fst p)
                   /\ dict_get (snd p) d <> None) l ->
  started st ->
  loop d st (map snd l) = Some (fold_left astep (flat_map (aentry d) l) st).
Proof.
  intros H. revert st. induction H as [|[z k] l [Hk Hd] _ IH]; intros st Hst.
  - reflexivity.
  - cbn [map loop flat_map snd]. simpl in Hk, Hd.
    rewrite (step_astep d st z k Hk Hd Hst), fold_left_app.
    apply IH, started_fold, Hst.
Qed.

Lemma float_sum_snoc l x : float_sum (l ++ [x]) = add (float_sum l) x.
Proof. unfold float_sum. now rewrite fold_left_app. Qed.

(** Finishing the item in progress. *)
Lemma flush_processed es st :
  es <> [] -> processed es st ->
  line_items (flush st) = spec_of_sorted es
  /\ subtotal (flush st) = float_sum (map amount (spec_of_sorted es)).
Proof.
  intros Hne H. destruct es as [|e0 es0]; [congruence|].
  destruct H as (done & Hu & Hlt & Hlast & Hcur & Hli & Hsub).
  unfold spec_of_sorted. rewrite Hu, map_app, filter_app. cbn [map filter].
  unfold flush. rewrite Hcur.
  destruct (valid (item_at (e0 :: es0) (current_idx st)));
    cbn [line_items subtotal].
  - rewrite map_app. cbn [map]. rewrite float_sum_snoc, Hsub, Hli.
    now split.
  - rewrite !app_nil_r, Hsub, Hli. now split.
Qed.

Lemma in_uniq_bound l done c x :
  uniq l = (done ++ [c])%list -> Forall (fun i => i < c) done ->
  In x l -> x <= c.
Proof.
  intros Hu Hlt Hx. apply in_uniq in Hx. rewrite Hu in Hx.
  apply in_app_iff in Hx as [Hx|[<-|[]]]; [|lia].
  rewrite Forall_forall in Hlt. specialize (Hlt _ Hx). lia.
Qed.

(** The invariant of the loop is kept by one more entry in index order. *)
Lemma processed_snoc es st e :
  processed es st -> 0 <= idx e ->
  Forall (fun y => y <= idx e) (map idx es) ->
  processed (es ++ [e]) (astep st e).
Proof.
  intros H Hpos Hle.
  assert (Hres : match (es ++ [e])%list with
                 | [] => False
                 | _ => True
                 end) by (destruct es; exact I).
  unfold processed. destruct (es ++ [e])%list as [|e1 es1] eqn:Eapp;
    [contradiction|]. rewrite <- Eapp. clear Hres e1 es1 Eapp.
  destruct es as [|e0 es0].
  - simpl in H. subst st. unfold astep.
    cbn [init current_idx].
    destruct (Z.eqb_spec (idx e) (-1)) as [E|E]; [lia|].
    cbn [fresh flush init current_idx current_item line_items subtotal].
    exists []. repeat split; try constructor.
    rewrite (item_at_snoc_same []). reflexivity.
  - remember (e0 :: es0) as es eqn:Ees.
    assert (Hne : map idx es <> []) by (subst es; discriminate).
    assert (H' : exists done,
               uniq (map idx es) = (done ++ [current_idx st])%list
               /\ Forall (fun i => i < current_idx st) done
               /\ last (map idx es) 0 = current_idx st
               /\ current_item st = Some (item_at es (current_idx st))
               /\ line_items st = filter valid (map (item_at es) done)
               /\ subtotal st = float_sum (map amount (line_items st)))
      by (subst es; exact H).
    clear H. destruct H' as (done & Hu & Hlt & Hlast & Hcur & Hli & Hsub).
    assert (Hcle : current_idx st <= idx e).
    { rewrite Forall_forall in Hle. apply Hle. rewrite <- Hlast.
      destruct (exists_last Hne) as (l' & a & ->). rewrite last_last.
      apply in_or_app. right. now left. }
    assert (Hsame : forall i, In i done -> item_at (es ++ [e]) i = item_at es i).
    { intros i Hi. apply item_at_snoc_other.
      rewrite Forall_forall in Hlt. specialize (Hlt _ Hi). lia. }
    rewrite map_app. cbn [map]. rewrite (uniq_snoc _ _ Hne), Hlast, last_last.
    unfold astep.
    destruct (Z.eqb_spec (idx e) (current_idx st)) as [E|E].
    + rewrite <- E, Z.eqb_refl. simpl. exists done.
      rewrite E in *. rewrite Hcur. rewrite <- E at 5.
      rewrite item_at_snoc_same, E.
      repeat split; try assumption.
      rewrite Hli. f_equal. apply map_ext_in. intros i Hi.
      symmetry. now apply Hsame.
    + destruct (Z.eqb_spec (current_idx st) (idx e)) as [E'|E']; [congruence|].
      cbn [fresh line_items subtotal current_item current_idx].
      exists (done ++ [current_idx st])%list.
      assert (Hblank : item_at es (idx e) = blank).
      { apply item_at_absent. intros Hin.
        pose proof (in_uniq_bound _ _ _ _ Hu Hlt Hin). lia. }
      assert (Hold : item_at (es ++ [e]) (current_idx st)
                     = item_at es (current_idx st))
        by (apply item_at_snoc_other; congruence).
      repeat split.
      * now rewrite Hu.
      * apply Forall_app. split.
        -- eapply Forall_impl; [|exact Hlt]. simpl. intros; lia.
        -- constructor; [lia | constructor].
      * rewrite item_at_snoc_same, Hblank. reflexivity.
      * rewrite map_app, filter_app. cbn [map filter]. rewrite Hold.
        unfold flush. rewrite Hcur.
        assert (Hd : filter valid (map (item_at (es ++ [e])) done)
                     = line_items st).
        { rewrite Hli. f_equal. apply map_ext_in. exact Hsame. }
        rewrite Hd.
        destruct (valid (item_at es (current_idx st)));
          simpl; [reflexivity | now rewrite app_nil_r].
      * unfold flush. rewrite Hcur.
        destruct (valid (item_at es (current_idx st)));
          cbn [line_items subtotal].
        -- rewrite map_app. cbn [map]. now rewrite float_sum_snoc, Hsub.
        -- exact Hsub.
Qed.

(** The loop over entries in ascending index order establishes the
    invariant. *)
Lemma run_processed es :
  StronglySorted Z.le (map idx es) -> Forall (fun e => 0 <= idx e) es ->
  processed es (fold_left astep es init).
Proof.
  induction es as [|e es IH] using rev_ind; intros Hs Hpos.
  - reflexivity.
  - rewrite fold_left_app. cbn [fold_left].
    rewrite map_app in Hs. cbn [map] in Hs.
    apply sorted_snoc_inv in Hs as [Hs Hle].
    apply Forall_app in Hpos as [Hpos He]. inversion He; subst.
    apply processed_snoc; auto.
Qed.

(** The result of the loop and the final append, for entries in ascending
    index order. *)
Lemma run_result es :
  StronglySorted Z.le (map idx es) -> Forall (fun e => 0 <= idx e) es ->
  let st := flush (fold_left astep es init) in
  line_items st = spec_of_sorted es
  /\ subtotal st = float_sum (map amount (spec_of_sorted es)).
Proof.
  intros Hs Hpos. destruct es as [|e es].
  - split; reflexivity.
  - apply flush_processed; [discriminate|].
    now apply run_processed.
Qed.

End LoopFacts.

(** ** The dictionary of the form *)

Module FormFacts.

Import PyStr Form.

Lemma keys_add_value k v d :
  keys (add_value k v d)
  = if existsb (String.eqb k) (keys d) then keys d else (keys d ++ [k])%list.
Proof.
  induction d as [|[k' [v0 vs]] r IH]; simpl; [reflexivity|].
  destruct (String.eqb k k'); simpl; [reflexivity|].
  unfold keys in *. rewrite IH.
  now destruct (existsb (String.eqb k) (map fst r)).
Qed.

Lemma add_value_nodup k v d : NoDup (keys d) -> NoDup (keys (add_value k v d)).
Proof.
  intros H. rewrite keys_add_value.
  destruct (existsb (String.eqb k) (keys d)) eqn:E; [exact H|].
  apply NoDup_app; [exact H | repeat constructor; intros [] | ].
  intros x Hx [Ex|[]]. subst x.
  assert (existsb (String.eqb k) (keys d) = true); [|congruence].
  apply existsb_exists. exists k. split; [exact Hx | apply String.eqb_refl].
Qed.

Lemma fold_add_nodup (f : form) d :
  NoDup (keys d) ->
  NoDup (keys (fold_left (fun d kv => add_value (fst kv) (snd kv) d) f d)).
Proof.
  revert d. induction f as [|[k v] f IH]; simpl; intros d H; [exact H|].
  apply IH, add_value_nodup, H.
Qed.

(** A dictionary has each key once. *)
Lemma to_dict_nodup (f : form) : NoDup (keys (to_dict f)).
Proof. apply fold_add_nodup. constructor. Qed.

Lemma dict_get_in k d : In k (keys d) -> dict_get k d <> None.
Proof.
  induction d as [|[k' vs] r IH]; simpl; [tauto|].
  intros [->|H].
  - rewrite String.eqb_refl. discriminate.
  - destruct (String.eqb k k'); [discriminate | now apply IH].
Qed.

Lemma dict_get_nodup d kv :
  NoDup (keys d) -> In kv d -> dict_get (fst kv) d = Some (snd kv).
Proof.
  induction d as [|[k' vs] r IH]; simpl; [tauto|].
  intros Hnd [<-|H]; simpl.
  - now rewrite String.eqb_refl.
  - inversion Hnd as [|? ? Hnin Hnd']; subst.
    destruct (String.eqb_spec (fst kv) k') as [E|E]; [|now apply IH].
    exfalso. apply Hnin. subst k'. unfold keys. now apply in_map.
Qed.

End FormFacts.

(** ** The parser computes the indexed items *)

Module ParserFacts.

Import PyStr PyFloat Form PySort Parser LineItemSpec LoopModel.
Import SpecFacts LoopFacts FormFacts.

Lemma aentry_idx d p e : In e (aentry d p) -> idx e = fst p.
Proof.
  unfold aentry. destruct (match_key (snd p)) as [[g f]|]; [|intros []].
  destruct (dict_get (snd p) d) as [[v0 vs]|]; [|intros []].
  intros [<-|[]]. reflexivity.
Qed.

Lemma filter_aentry d i l :
  filter (fun e => idx e =? i) (flat_map (aentry d) l)
  = flat_map (aentry d) (filter (fun p => fst p =? i) l).
Proof.
  induction l as [|p l IH]; simpl; [reflexivity|].
  rewrite filter_app, IH.
  assert (H : filter (fun e => idx e =? i) (aentry d p)
              = if fst p =? i then aentry d p else []).
  { pose proof (aentry_idx d p) as Hi.
    destruct (aentry d p) as [|e [|e' r]] eqn:E.
    - now destruct (fst p =? i).
    - simpl. rewrite (Hi e (or_introl eq_refl)). now destruct (fst p =? i).
    - unfold aentry in E. destruct (match_key (snd p)) as [[g f]|];
        [|discriminate].
      destruct (dict_get (snd p) d) as [[v0 vs]|]; discriminate. }
  rewrite H. now destruct (fst p =? i).
Qed.

Lemma sorted_aentry d l :
  StronglySorted key_le l ->
  StronglySorted Z.le (map idx (flat_map (aentry d) l)).
Proof.
  induction 1 as [|p l Hs IH Hp]; simpl; [constructor|].
  rewrite map_app.
  assert (Hall : Forall (fun y => fst p <= y)
                   (map idx (flat_map (aentry d) l))).
  { apply Forall_forall. intros y Hy.
    apply in_map_iff in Hy as (e & <- & He).
    apply in_flat_map in He as (q & Hq & He).
    rewrite (aentry_idx _ _ _ He).
    rewrite Forall_forall in Hp. exact (Hp _ Hq). }
  pose proof (aentry_idx d p) as Hi.
  destruct (aentry d p) as [|e [|e' r]] eqn:E; simpl.
  - exact IH.
  - constructor; [exact IH|]. now rewrite (Hi e (or_introl eq_refl)).
  - unfold aentry in E. destruct (match_key (snd p)) as [[g f]|];
      [|discriminate].
    destruct (dict_get (snd p) d) as [[v0 vs]|]; discriminate.
Qed.

(** In the order of the dictionary, the decorated keys give its entries. *)
Lemma aentry_decorated_gen d0 d :
  (forall kv, In kv d -> dict_get (fst kv) d0 = Some (snd kv)) ->
  flat_map (aentry d0) (decorated d) = entries d.
Proof.
  unfold decorated, entries, keys.
  induction d as [|[k [v0 vs]] d IH]; intros Hget; [reflexivity|].
  cbn [map filter flat_map fst].
  assert (IH' := IH (fun kv H => Hget kv (or_intror H))). clear IH.
  assert (Hk := Hget _ (or_introl eq_refl)). simpl in Hk.
  unfold entry_of at 1. cbn [fst snd].
  destruct (match_key k) as [[g f]|] eqn:M.
  - destruct (KeyFacts.match_key_sort_key _ _ _ M) as (Hsw & Hz & _).
    rewrite Hsw. cbn [flat_map]. rewrite Hz, flat_map_app, IH'.
    destruct (py_int g) as [z|]; [|reflexivity].
    cbn [flat_map]. unfold aentry. cbn [fst snd]. rewrite M, Hk.
    reflexivity.
  - destruct (startswith "items[" k); [|exact IH'].
    cbn [flat_map]. rewrite flat_map_app, IH'.
    destruct (sort_key k); [|reflexivity].
    cbn [flat_map]. unfold aentry. cbn [snd]. rewrite M. reflexivity.
Qed.

Lemma aentry_decorated d :
  NoDup (keys d) -> flat_map (aentry d) (decorated d) = entries d.
Proof.
  intros H. apply aentry_decorated_gen.
  intros kv Hin. now apply dict_get_nodup.
Qed.

Lemma decorated_ok d :
  Forall (fun p => sort_key (snd p) = Some (fst p)
                   /\ dict_get (snd p) d <> None) (decorated d).
Proof.
  apply Forall_forall. intros [z k] H. unfold decorated in H.
  apply in_flat_map in H as (k' & Hk' & H).
  destruct (sort_key k') eqn:S; [|destruct H].
  destruct H as [H|[]]. inversion H; subst. simpl. split; [exact S|].
  apply filter_In in Hk' as [Hk' _]. now apply dict_get_in.
Qed.

Lemma entries_nonneg d : Forall (fun e => 0 <= idx e) (entries d).
Proof.
  apply Forall_forall. intros e H. unfold entries in H.
  apply in_flat_map in H as (kv & _ & H). unfold entry_of in H.
  destruct (match_key (fst kv)) as [[g f]|] eqn:M; [|destruct H].
  destruct (py_int g) as [z|] eqn:Hg; [|destruct H].
  destruct H as [<-|[]]. exact (proj1 (KeyFacts.match_key_index _ _ _ _ M Hg)).
Qed.

(** The line items and the subtotal that the parser returns, for a
    dictionary with distinct keys: the valid indexed items in ascending
    index order and their floating-point sum from left to right; the
    parser raises exactly when a key that starts with [items[] has no
    sort key. *)
Theorem parse_line_items_spec d :
  NoDup (keys d) ->
  parse_line_items d
  = if sortable d
    then Some (spec_items (entries d),
               float_sum (map amount (spec_items (entries d))))
    else None.
Proof.
  intros Hnd. unfold parse_line_items, py_sorted, sortable.
  rewrite PySortFacts.decorate_spec.
  destruct (forallb _ _); [|reflexivity].
  fold (decorated d). cbn [option_map].
  set (sl := sort (decorated d)).
  assert (Hperm : Permutation sl (decorated d)) by apply PySortFacts.sort_perm.
  assert (Hok : Forall (fun p => sort_key (snd p) = Some (fst p)
                                 /\ dict_get (snd p) d <> None) sl).
  { eapply Permutation_Forall; [symmetry; exact Hperm | apply decorated_ok]. }
  rewrite (loop_fold d sl init Hok) by (intros _; simpl; lia).
  set (E := flat_map (aentry d) sl).
  assert (HEperm : Permutation E (entries d)).
  { rewrite <- (aentry_decorated d Hnd). unfold E.
    clear - Hperm. induction Hperm; simpl.
    - reflexivity.
    - now apply Permutation_app_head.
    - rewrite !app_assoc. apply Permutation_app_tail, Permutation_app_comm.
    - etransitivity; eassumption. }
  assert (Hs : StronglySorted Z.le (map idx E))
    by apply sorted_aentry, PySortFacts.sort_sorted.
  assert (Hpos : Forall (fun e => 0 <= idx e) E).
  { eapply Permutation_Forall; [symmetry; exact HEperm|].
    apply entries_nonneg. }
  destruct (run_result E Hs Hpos) as [Hli Hsub].
  assert (Hspec : spec_of_sorted E = spec_items (entries d)).
  { unfold spec_of_sorted, spec_items.
    assert (Hidx : uniq (map idx E) = indices (entries d)).
    { apply ascending_unique.
      - now apply uniq_sorted.
      - apply indices_ascending.
      - intros x. rewrite in_uniq, in_indices.
        split; apply Permutation_in, Permutation_map;
          [exact HEperm | symmetry; exact HEperm]. }
    rewrite Hidx. f_equal. apply map_ext. intros i.
    apply item_at_same_filter.
    unfold E, sl. rewrite filter_aentry, PySortFacts.filter_sort.
    rewrite <- filter_aentry, (aentry_decorated d Hnd). reflexivity. }
  rewrite Hli, Hsub, Hspec. reflexivity.
Qed.

(** The same for the dictionary of a submitted form. *)
Corollary parse_form_spec (f : form) :
  parse_line_items (to_dict f)
  = if sortable (to_dict f)
    then Some (spec_items (entries (to_dict f)),
               float_sum (map amount (spec_items (entries (to_dict f)))))
    else None.
Proof. apply parse_line_items_spec, to_dict_nodup. Qed.

End ParserFacts.

(** ** What the parser reads of a dictionary *)

Module HeadFacts.

Import PyStr PyFloat Form PySort Parser LineItemSpec LoopModel.
Import FormFacts ParserFacts.

Lemma keys_heads h d : keys d = map fst (heads h d).
Proof. unfold keys, heads. rewrite map_map. reflexivity. Qed.

(** A value added to a dictionary changes the first values only when the
    key is new. *)
Lemma heads_add_value h k v d :
  heads h (add_value k v d)
  = if existsb (String.eqb k) (map fst (heads h d)) then heads h d
    else (heads h d ++ [(k, h v)])%list.
Proof.
  induction d as [|[k' [v0 vs]] r IH]; simpl; [reflexivity|].
  destruct (String.eqb k k'); simpl; [reflexivity|].
  unfold heads in *. rewrite IH.
  now destruct (existsb _ _).
Qed.

Lemma heads_fold h (f f' : form) :
  Forall2 (fun kv kv' => fst kv = fst kv' /\ h (snd kv) = h (snd kv')) f f' ->
  forall d d', heads h d = heads h d' ->
  heads h (fold_left (fun d kv => add_value (fst kv) (snd kv) d) f d)
  = heads h (fold_left (fun d kv => add_value (fst kv) (snd kv) d) f' d').
Proof.
  induction 1 as [|kv kv' f f' [Hk Hv] _ IH]; intros d d' Hd; [exact Hd|].
  simpl. apply IH. rewrite !heads_add_value, Hd, Hk, Hv. reflexivity.
Qed.

Lemma heads_to_dict h (f f' : form) :
  Forall2 (fun kv kv' => fst kv = fst kv' /\ h (snd kv) = h (snd kv')) f f' ->
  heads h (to_dict f) = heads h (to_dict f').
Proof. intros H. now apply heads_fold. Qed.

Lemma Forall2_same {A} (R : A -> A -> Prop) l :
  (forall x, R x x) -> Forall2 R l l.
Proof. intros H. induction l; constructor; auto. Qed.

Lemma keys_fold_keep (f : form) k d :
  In k (keys d) ->
  In k (keys (fold_left (fun d kv => add_value (fst kv) (snd kv) d) f d)).
Proof.
  revert d. induction f as [|[k2 v2] f IH]; simpl; intros d Hd; [exact Hd|].
  apply IH. rewrite keys_add_value.
  destruct (existsb _ _); [exact Hd | apply in_or_app; now left].
Qed.

Lemma keys_fold_sent (f : form) k d :
  In k (map fst f) ->
  In k (keys (fold_left (fun d kv => add_value (fst kv) (snd kv) d) f d)).
Proof.
  revert d. induction f as [|[k1 v1] f IH]; simpl; intros d H; [tauto|].
  destruct H as [E|H].
  - subst k1. apply keys_fold_keep. rewrite keys_add_value.
    destruct (existsb (String.eqb k) (keys d)) eqn:E.
    + apply existsb_exists in E as (x & Hx & Ex).
      apply String.eqb_eq in Ex. now subst.
    + apply in_or_app. right. now left.
  - now apply IH.
Qed.

(** A further value for a key that was already sent changes no first
    value. *)
Lemma heads_repeated h (f1 f2 : form) k v :
  In k (map fst f1) ->
  heads h (to_dict (f1 ++ (k, v) :: f2)%list) = heads h (to_dict (f1 ++ f2)%list).
Proof.
  intros Hin. unfold to_dict. rewrite !fold_left_app. cbn [fold_left fst snd].
  apply heads_fold; [apply Forall2_same; now split|].
  rewrite heads_add_value, <- keys_heads.
  pose proof (keys_fold_sent f1 k [] Hin) as Hk.
  match goal with
  | |- (if ?b then _ else _) = _ => assert (b = true) as ->; [|reflexivity]
  end.
  apply existsb_exists. exists k. split; [exact Hk | apply String.eqb_refl].
Qed.

Lemma entries_heads d :
  entries d
  = flat_map (fun kt => match match_key (fst kt) with
                        | Some (g1, f) =>
                            match py_int g1 with
                            | Some i => [(i, f, snd kt)]
                            | None => []
                            end
                        | None => []
                        end) (heads strip d).
Proof.
  unfold entries, heads. induction d as [|kv d IH]; simpl; [reflexivity|].
  now rewrite IH.
Qed.

(** The parser reads the keys and the trimmed first values only. *)
Lemma parse_heads d d' :
  NoDup (keys d) -> NoDup (keys d') -> heads strip d = heads strip d' ->
  parse_line_items d = parse_line_items d'.
Proof.
  intros H H' E. rewrite !parse_line_items_spec by assumption.
  unfold sortable. rewrite !(keys_heads strip), !entries_heads, E.
  reflexivity.
Qed.

(** Whether the parser raises depends on the keys only. *)
Lemma sortable_keys d d' : keys d = keys d' -> sortable d = sortable d'.
Proof. unfold sortable. now intros ->. Qed.

Lemma parse_raises d :
  NoDup (keys d) -> (parse_line_items d = None <-> sortable d = false).
Proof.
  intros H. rewrite parse_line_items_spec by exact H.
  destruct (sortable d); split; congruence.
Qed.

End HeadFacts.

(** ** Trimming and the file name *)

Module FilenameFacts.

Import PyStr Invoice FilenameSpec.

Lemma all_chars_app p a b :
  all_chars p (a ++ b)%string = all_chars p a && all_chars p b.
Proof.
  induction a as [|c a IH]; simpl; [reflexivity|].
  now rewrite IH, andb_assoc.
Qed.

Lemma lstrip_spec p s :
  exists pre,
    s = (pre ++ lstrip p s)%string /\ all_chars p pre = true
    /\ (forall c, first_char (lstrip p s) = Some c -> p c = false).
Proof.
  induction s as [|c r (pre & E & Hp & Hf)]; simpl.
  - exists EmptyString. repeat split. discriminate.
  - destruct (p c) eqn:Pc.
    + exists (String c pre). simpl. rewrite Pc, Hp.
      repeat split; [now f_equal | exact Hf].
    + exists EmptyString. repeat split. simpl. intros c' H.
      inversion H. now subst.
Qed.

Lemma rstrip_spec p s :
  exists post,
    s = (rstrip p s ++ post)%string /\ all_chars p post = true
    /\ (forall c, last_char (rstrip p s) = Some c -> p c = false).
Proof.
  induction s as [|c r (post & E & Hp & Hl)]; simpl.
  - exists EmptyString. repeat split. discriminate.
  - destruct (rstrip p r) as [|c' r'] eqn:R.
    + simpl in E. destruct (p c) eqn:Pc; simpl.
      * exists (String c post). simpl. rewrite Pc, Hp.
        repeat split; [now f_equal | discriminate].
      * exists post. repeat split; [now f_equal | exact Hp |].
        intros c0 H. inversion H. now subst.
    + rewrite andb_false_r. exists post.
      repeat split; [simpl; now f_equal | exact Hp | exact Hl].
Qed.

Lemma rstrip_first p s c :
  first_char (rstrip p s) = Some c -> first_char s = Some c.
Proof.
  destruct s as [|a r]; simpl; [discriminate|].
  destruct (p a && is_empty (rstrip p r)); simpl; [discriminate | tauto].
Qed.

(** [strip] removes the leading and the trailing characters of the set,
    and nothing else. *)
Lemma strip_set_trimmed p s : trimmed p s (strip_set p s).
Proof.
  unfold strip_set.
  destruct (lstrip_spec p s) as (pre & E1 & Hpre & Hf).
  destruct (rstrip_spec p (lstrip p s)) as (post & E2 & Hpost & Hl).
  exists pre, post. repeat split; try assumption.
  - rewrite <- E2. exact E1.
  - intros c H. apply Hf. now apply (rstrip_first p).
Qed.

Lemma sub_unsafe_safe s : all_chars safe_char (sub_unsafe s) = true.
Proof.
  induction s as [|c r IH]; simpl; [reflexivity|].
  rewrite IH, andb_true_r. destruct (safe_char c) eqn:E; [exact E | reflexivity].
Qed.

Lemma clean_safe s : all_chars safe_char (clean s) = true.
Proof.
  unfold clean, strip_underscore.
  destruct (strip_set_trimmed (Ascii.eqb "_") (sub_unsafe s))
    as (pre & post & E & _).
  pose proof (sub_unsafe_safe s) as H. rewrite E in H.
  rewrite !all_chars_app in H.
  apply andb_true_iff in H as [_ H]. now apply andb_true_iff in H as [H _].
Qed.

Lemma all_chars_in p s c :
  all_chars p s = true -> In c (list_ascii_of_string s) -> p c = true.
Proof.
  induction s as [|a r IH]; simpl; [tauto|].
  intros H [->|Hc]; apply andb_true_iff in H as [Ha Hr]; auto.
Qed.

Lemma make_filename_safe s n : all_chars safe_char (make_filename s n) = true.
Proof.
  unfold make_filename.
  rewrite !all_chars_app, !clean_safe. reflexivity.
Qed.

End FilenameFacts.

(** ** Rounding and the totals *)

Module RoundFacts.

Import PyStr PyFloat Form Parser PyDate Invoice LineItemSpec.

Lemma round_half_even_nearest num den :
  0 < den -> nearest_even num den (round_half_even num den).
Proof.
  intros Hd. unfold nearest_even, round_half_even.
  pose proof (Z.div_mod num den ltac:(lia)) as E.
  pose proof (Z.mod_pos_bound num den Hd) as B.
  set (q := num / den) in *. set (r := num mod den) in *.
  destruct (Z.compare_spec (2 * r) den) as [C|C|C].
  - destruct (Z.even q) eqn:Ev.
    + split; [nia | intros _; exact Ev].
    + split; [nia|]. intros _.
      replace (q + 1) with (Z.succ q) by lia.
      rewrite Z.even_succ, <- Z.negb_even, Ev. reflexivity.
  - split; [nia | intros H; nia].
  - split; [nia | intros H; nia].
Qed.

(** [round(x, 2)] of a finite float goes through the nearest number of
    hundredths. *)
Lemma py_round_hundredths s m e :
  exists n,
    hundredths_of (S754_finite s m e) n
    /\ py_round (S754_finite s m e) 2 = of_ratio s n 100.
Proof.
  unfold py_round, hundredths_of.
  change (323 <? 2) with false. cbv iota.
  change (10 ^ 2) with 100.
  destruct e as [|k|k].
  - eexists. split; reflexivity.
  - eexists. split; reflexivity.
  - eexists. split; [|reflexivity].
    change (- Z.neg k) with (Z.pos k).
    apply round_half_even_nearest. apply Z.pow_pos_nonneg; lia.
Qed.

(** What a request that renders an invoice has computed. *)
Lemma generated_inv find_supplier (f : form) fn data :
  generate_invoice find_supplier f = Some (Generated fn data) ->
  exists its s,
    parse_line_items (to_dict f) = Some (its, s)
    /\ its <> []
    /\ items data = its
    /\ inv_subtotal data = s
    /\ tax_amount data = compute_tax s (tax_rate data)
    /\ total data = compute_total s (tax_amount data).
Proof.
  unfold generate_invoice.
  destruct (form_get "supplier_id" f) as [sid|]; [|discriminate].
  destruct (form_get "invoice_number" f) as [number|]; [|discriminate].
  destruct (form_get "invoice_date" f) as [ds|]; [|discriminate].
  destruct (form_get "tax_rate" f) as [rs|]; [|discriminate].
  destruct (negb _); [discriminate|].
  destruct (py_float rs) as [rate|]; [|discriminate].
  destruct (strptime_Ymd ds) as [d|]; [|discriminate].
  destruct (find_supplier sid) as [sup|]; [|discriminate].
  destruct (parse_line_items (to_dict f)) as [[its s]|]; [|discriminate].
  destruct its as [|it its]; [discriminate|].
  intros H. inversion H; subst. simpl.
  exists (it :: its), s. repeat split. discriminate.
Qed.

End RoundFacts.

(** ** The order of the keys and the values of the indices *)

Module OrderFacts.

Import PyStr PyFloat Form PySort Parser LineItemSpec LoopModel.
Import SpecFacts FormFacts ParserFacts.

Lemma field_eqb_eq a b : field_eqb a b = true <-> a = b.
Proof. destruct a, b; simpl; split; congruence. Qed.

Lemma last_text_in es i f t : last_text es i f = Some t -> In (i, f, t) es.
Proof.
  induction es as [|e es IH] using rev_ind; [discriminate|].
  rewrite last_text_snoc, in_app_iff.
  destruct (Z.eqb_spec (idx e) i) as [E|E]; simpl.
  - destruct (field_eqb (fld e) f) eqn:F.
    + apply field_eqb_eq in F. intros H. inversion H. subst.
      right. left. now destruct e as [[? ?] ?].
    + intros H. left. now apply IH.
  - intros H. left. now apply IH.
Qed.

Lemma last_text_none es i f t : last_text es i f = None -> ~ In (i, f, t) es.
Proof.
  induction es as [|e es IH] using rev_ind; [intros _ []|].
  rewrite last_text_snoc, in_app_iff.
  destruct (Z.eqb_spec (idx e) i) as [E|E]; simpl.
  - destruct (field_eqb (fld e) f) eqn:F; [discriminate|].
    intros H [Hin|[He|[]]]; [now apply IH|].
    subst e. simpl in F. destruct f; discriminate.
  - intros H [Hin|[He|[]]]; [now apply IH|].
    subst e. now apply E.
Qed.

Lemma nodup_fst_inj {A B} (l : list (A * B)) a b b' :
  NoDup (map fst l) -> In (a, b) l -> In (a, b') l -> b = b'.
Proof.
  induction l as [|[x y] l IH]; simpl; [tauto|].
  intros Hnd H1 H2. inversion Hnd as [|? ? Hnin Hnd']; subst.
  destruct H1 as [H1|H1], H2 as [H2|H2].
  - congruence.
  - inversion H1; subst. exfalso. apply Hnin.
    change a with (fst (a, b')). now apply in_map.
  - inversion H2; subst. exfalso. apply Hnin.
    change a with (fst (a, b)). now apply in_map.
  - now apply IH.
Qed.

(** With one text per index and field, the order of the entries does not
    matter to the item of an index. *)
Lemma last_text_perm es es' i f :
  NoDup (map fst es) -> Permutation es es' ->
  last_text es' i f = last_text es i f.
Proof.
  intros Hnd Hp.
  destruct (last_text es' i f) as [t'|] eqn:E';
    destruct (last_text es i f) as [t|] eqn:E; try reflexivity.
  - apply last_text_in in E', E.
    apply (Permutation_in _ (Permutation_sym Hp)) in E'.
    f_equal. exact (nodup_fst_inj es (i, f) t' t Hnd E' E).
  - apply last_text_in in E'.
    apply (Permutation_in _ (Permutation_sym Hp)) in E'.
    exfalso. exact (last_text_none _ _ _ _ E E').
  - apply last_text_in in E. apply (Permutation_in _ Hp) in E.
    exfalso. exact (last_text_none _ _ _ _ E' E).
Qed.

Lemma indices_perm es es' : Permutation es es' -> indices es' = indices es.
Proof.
  intros Hp. apply ascending_unique; try apply indices_ascending.
  intros x. rewrite !in_indices.
  split; apply Permutation_in, Permutation_map;
    [symmetry; exact Hp | exact Hp].
Qed.

Lemma spec_items_perm es es' :
  NoDup (map fst es) -> Permutation es es' -> spec_items es' = spec_items es.
Proof.
  intros Hnd Hp. unfold spec_items. rewrite (indices_perm _ _ Hp).
  f_equal. apply map_ext. intros i. unfold item_at.
  now rewrite !(last_text_perm es es' i _ Hnd Hp).
Qed.

Lemma sortable_perm d d' : Permutation d d' -> sortable d' = sortable d.
Proof.
  intros Hp. unfold sortable.
  assert (P : Permutation (filter (startswith "items[") (keys d))
                (filter (startswith "items[") (keys d'))).
  { unfold keys. clear -Hp. induction Hp; cbn [map filter].
    - reflexivity.
    - destruct (startswith "items[" (fst x)); [now apply perm_skip | assumption].
    - destruct (startswith "items[" (fst x)), (startswith "items[" (fst y));
        try reflexivity. apply perm_swap.
    - etransitivity; eassumption. }
  set (t := fun k => match sort_key k with Some _ => true | None => false end).
  destruct (forallb t (filter _ (keys d))) eqn:E.
  - apply forallb_forall. intros x Hx.
    rewrite forallb_forall in E. apply E.
    eapply Permutation_in; [symmetry; exact P | exact Hx].
  - destruct (forallb t (filter _ (keys d'))) eqn:E'; [|reflexivity].
    rewrite <- E. symmetry. apply forallb_forall. intros x Hx.
    rewrite forallb_forall in E'. apply E'.
    eapply Permutation_in; [exact P | exact Hx].
Qed.

Lemma entries_perm d d' : Permutation d d' -> Permutation (entries d) (entries d').
Proof.
  intros Hp. unfold entries. induction Hp; simpl.
  - reflexivity.
  - now apply Permutation_app_head.
  - rewrite !app_assoc. apply Permutation_app_tail, Permutation_app_comm.
  - etransitivity; eassumption.
Qed.

(** *** Renaming the indices by an increasing function *)

Section Rename.
Variable g : Z -> Z.
Hypothesis g_increasing : forall a b, a < b -> g a < g b.






End Rename.

End OrderFacts.

(** ** The fields that the parser does not read *)

Module FrameFacts.

Import PyStr PyFloat Form PySort Parser LineItemSpec LoopModel.
Import FormFacts ParserFacts HeadFacts.

Lemma existsb_filter_key {B} (P : string -> bool) k (l : list (string * B)) :
  P k = true ->
  existsb (String.eqb k) (map fst (filter (fun kt => P (fst kt)) l))
  = existsb (String.eqb k) (map fst l).
Proof.
  intros Hk. induction l as [|[k' x] l IH]; [reflexivity|].
  cbn [filter fst]. destruct (P k') eqn:Pk'; cbn [map existsb fst].
  - now rewrite IH.
  - rewrite IH. destruct (String.eqb_spec k k') as [E|E]; [|reflexivity].
    subst. congruence.
Qed.

(** Leaving out the fields whose key fails a test commutes with building
    the dictionary. *)
Lemma heads_filter_fold h (P : string -> bool) (f : form) :
  forall d d',
    filter (fun kt => P (fst kt)) (heads h d) = heads h d' ->
    filter (fun kt => P (fst kt))
      (heads h (fold_left (fun d kv => add_value (fst kv) (snd kv) d) f d))
    = heads h (fold_left (fun d kv => add_value (fst kv) (snd kv) d)
                 (filter (fun kv => P (fst kv)) f) d').
Proof.
  induction f as [|[k v] f IH]; intros d d' H; [exact H|].
  cbn [fold_left filter fst snd]. destruct (P k) eqn:Pk.
  - cbn [fold_left fst snd]. apply IH.
    rewrite !heads_add_value, <- H, (existsb_filter_key P k _ Pk).
    destruct (existsb _ _); [reflexivity|].
    rewrite filter_app. cbn [filter fst]. now rewrite Pk.
  - apply IH. rewrite heads_add_value.
    destruct (existsb _ _); [exact H|].
    rewrite filter_app. cbn [filter fst]. now rewrite Pk, app_nil_r.
Qed.

Lemma heads_filter_to_dict h (P : string -> bool) (f : form) :
  filter (fun kt => P (fst kt)) (heads h (to_dict f))
  = heads h (to_dict (filter (fun kv => P (fst kv)) f)).
Proof. apply heads_filter_fold. reflexivity. Qed.

Lemma filter_map_fst {B} (P : string -> bool) (l : list (string * B)) :
  filter P (map fst l) = map fst (filter (fun kt => P (fst kt)) l).
Proof.
  induction l as [|x l IH]; [reflexivity|].
  cbn [map filter]. destruct (P (fst x)); cbn [map]; now rewrite IH.
Qed.

Lemma filter_twice {B} (P : B -> bool) l : filter P (filter P l) = filter P l.
Proof.
  induction l as [|x l IH]; [reflexivity|].
  cbn [filter]. destruct (P x) eqn:E; cbn [filter]; now rewrite ?E, IH.
Qed.

(** The parser reads the fields whose key starts with [items[] only. *)
Lemma parse_item_fields (f : form) :
  parse_line_items (to_dict f)
  = parse_line_items
      (to_dict (filter (fun kv => startswith "items[" (fst kv)) f)).
Proof.
  rewrite !parse_line_items_spec by apply to_dict_nodup.
  set (P := startswith "items[").
  set (f' := filter (fun kv => P (fst kv)) f).
  pose proof (heads_filter_to_dict strip P f) as H. fold f' in H.
  assert (Hs : sortable (to_dict f') = sortable (to_dict f)).
  { unfold sortable. fold P. rewrite !(keys_heads strip), !filter_map_fst.
    now rewrite <- H, filter_twice. }
  assert (He : entries (to_dict f') = entries (to_dict f)).
  { rewrite !entries_heads, <- H.
    generalize (heads strip (to_dict f)). intros l.
    induction l as [|kt l IH]; [reflexivity|].
    cbn [filter flat_map]. destruct (P (fst kt)) eqn:E.
    - cbn [flat_map]. now rewrite IH.
    - rewrite IH. unfold P in E.
      now rewrite (KeyFacts.match_key_prefix _ E). }
  now rewrite Hs, He.
Qed.

End FrameFacts.

(** ** Sums of amounts *)

Module SumFacts.

Import PyStr PyFloat Form Parser LineItemSpec FloatSign.

Lemma shr_1_nonneg mrs : 0 <= shr_m mrs -> 0 <= shr_m (shr_1 mrs).
Proof.
  destruct mrs as [m r s]. simpl.
  destruct m as [|[p|p|]|[p|p|]]; simpl; lia.
Qed.

Lemma iter_shr_1_nonneg p mrs :
  0 <= shr_m mrs -> 0 <= shr_m (iter_pos shr_1 p mrs).
Proof.
  revert mrs. induction p as [p IH|p IH|]; intros mrs H; simpl.
  - apply IH, IH, shr_1_nonneg, H.
  - apply IH, IH, H.
  - apply shr_1_nonneg, H.
Qed.

Lemma shr_fexp_nonneg m e l :
  0 <= m -> 0 <= shr_m (fst (shr_fexp prec emax m e l)).
Proof.
  intros H. unfold shr_fexp, shr.
  assert (H0 : 0 <= shr_m (shr_record_of_loc m l))
    by (destruct l as [|[]]; exact H).
  destruct (fexp prec emax (Zdigits2 m + e) - e); simpl;
    [exact H0 | now apply iter_shr_1_nonneg | exact H0].
Qed.

Lemma round_nearest_even_nonneg m l : 0 <= m -> 0 <= round_nearest_even m l.
Proof.
  intros H. destruct l as [|[]]; simpl; try lia.
  destruct (Z.even m); lia.
Qed.

(** Rounding a magnitude keeps the sign: the result is no NaN. *)
Lemma binary_round_aux_nonneg m e l :
  0 <= m -> is_nonneg (binary_round_aux prec emax false m e l) = true.
Proof.
  intros H. unfold binary_round_aux.
  pose proof (shr_fexp_nonneg m e l H) as H1.
  destruct (shr_fexp prec emax m e l) as [mrs1 e1]. simpl in H1.
  pose proof (shr_fexp_nonneg _ e1 loc_Exact
                (round_nearest_even_nonneg _ (loc_of_shr_record mrs1) H1))
    as H2.
  destruct (shr_fexp prec emax
              (round_nearest_even (shr_m mrs1) (loc_of_shr_record mrs1))
              e1 loc_Exact) as [mrs2 e2].
  simpl in H2. destruct (shr_m mrs2) as [|p|p]; [reflexivity| |lia].
  now destruct (e2 <=? emax - prec).
Qed.

(** The sum of two floats that are not negative is not negative. *)
Lemma add_nonneg x y :
  is_nonneg x = true -> is_nonneg y = true -> is_nonneg (add x y) = true.
Proof.
  destruct x as [[]|[]| |[] mx ex]; try discriminate;
    destruct y as [[]|[]| |[] my ey]; try discriminate;
    intros _ _; try reflexivity.
  unfold add, SFadd, binary_normalize, cond_Zopp.
  cbn [Z.add]. unfold binary_round.
  destruct (shl_align _ _ _) as [mz ez].
  now apply binary_round_aux_nonneg.
Qed.

Lemma gt_zero_nonneg x : gt_zero x = true -> is_nonneg x = true.
Proof.
  unfold gt_zero, SFltb.
  destruct x as [[]|[]| |[] m e]; cbn; intros H;
    try discriminate H; reflexivity.
Qed.

Lemma float_sum_nonneg l :
  Forall (fun x => is_nonneg x = true) l -> is_nonneg (float_sum l) = true.
Proof.
  unfold float_sum. generalize zero, (eq_refl : is_nonneg zero = true).
  induction l as [|x l IH]; intros acc Hacc H; [exact Hacc|].
  inversion H; subst. cbn [fold_left].
  apply IH; [now apply add_nonneg | assumption].
Qed.

End SumFacts.

(** ** Reading and printing dates *)

Module DateFacts.

Import PyStr PyDate DateText.

Lemma ascii_match_hyphen {A} (c : ascii) (X Y : A) :
  match c with "-"%char => X | _ => Y end
  = if Ascii.eqb c "-" then X else Y.
Proof. destruct c as [[] [] [] [] [] [] [] []]; reflexivity. Qed.

(** From the tests on characters to facts on their codes. *)
Ltac char_facts :=
  repeat match goal with
         | H : _ || _ = true |- _ => apply orb_true_iff in H as [H|H]
         | H : _ && _ = true |- _ => apply andb_true_iff in H as [? ?]
         | H : Ascii.eqb _ _ = true |- _ => apply Ascii.eqb_eq in H; subst
         | H : between _ _ _ = true |- _ =>
             unfold between in H; apply andb_true_iff in H as [? ?]
         | H : is_digit _ = true |- _ =>
             unfold is_digit in H; apply andb_true_iff in H as [? ?]
         | H : (_ <=? _) = true |- _ => apply Z.leb_le in H
         end;
  unfold dv in *;
  repeat match goal with
         | |- context [code (Ascii ?a ?b ?c ?d ?e ?f ?g ?h)] =>
             let v := eval vm_compute in (code (Ascii a b c d e f g h)) in
             change (code (Ascii a b c d e f g h)) with v
         | H : context [code (Ascii ?a ?b ?c ?d ?e ?f ?g ?h)] |- _ =>
             let v := eval vm_compute in (code (Ascii a b c d e f g h)) in
             change (code (Ascii a b c d e f g h)) with v in H
         end.

Lemma read_year_range s y r : read_year s = Some (y, r) -> 0 <= y <= 9999.
Proof.
  destruct s as [|a [|b [|c [|d r']]]]; try discriminate.
  unfold read_year.
  destruct (is_digit a && is_digit b && is_digit c && is_digit d) eqn:E;
    [|discriminate].
  assert (R : 0 <= 1000 * dv a + 100 * dv b + 10 * dv c + dv d <= 9999)
    by (char_facts; lia).
  intros [= <- <-]. exact R.
Qed.

Lemma read_month_range s m r : read_month s = Some (m, r) -> 1 <= m <= 12.
Proof.
  destruct s as [|a [|b [|c r']]]; try discriminate; unfold read_month;
    rewrite ?ascii_match_hyphen.
  - destruct (Ascii.eqb b "-"); [|discriminate].
    destruct (between "1" "9" a) eqn:E; [|discriminate].
    assert (R : 1 <= dv a <= 12) by (char_facts; lia).
    intros [= <- <-]. exact R.
  - destruct (Ascii.eqb b "-") eqn:Eb; rewrite ?ascii_match_hyphen.
    + destruct (Ascii.eqb c "-").
      * apply Ascii.eqb_eq in Eb. subst b.
        destruct (_ || _) eqn:E; [|discriminate].
        exfalso. char_facts; lia.
      * destruct (between "1" "9" a) eqn:E; [|discriminate].
        assert (R : 1 <= dv a <= 12) by (char_facts; lia).
        intros [= <- <-]. exact R.
    + destruct (Ascii.eqb c "-"); [|discriminate].
      destruct (_ || _) eqn:E; [|discriminate].
      assert (R : 1 <= 10 * dv a + dv b <= 12) by (char_facts; lia).
      intros [= <- <-]. exact R.
Qed.

Lemma read_day_range s d r : read_day s = Some (d, r) -> 1 <= d <= 31.
Proof.
  destruct s as [|a [|b r']]; try discriminate; unfold read_day.
  - destruct (between "1" "9" a) eqn:E; [|discriminate].
    assert (R : 1 <= dv a <= 31) by (char_facts; lia).
    intros [= <- <-]. exact R.
  - destruct (_ || _) eqn:E.
    + assert (R : 1 <= 10 * dv a + dv b <= 31) by (char_facts; lia).
      intros [= <- <-]. exact R.
    + destruct (between "1" "9" a) eqn:E1.
      * assert (R : 1 <= dv a <= 31) by (char_facts; lia).
        intros [= <- <-]. exact R.
      * destruct (Ascii.eqb a " " && between "1" "9" b) eqn:E2;
          [|discriminate].
        assert (R : 1 <= dv b <= 31) by (char_facts; lia).
        intros [= <- <-]. exact R.
Qed.

Lemma days_in_month_le y m : days_in_month y m <= 31.
Proof.
  unfold days_in_month.
  destruct (m =? 2); [destruct (is_leap y); lia|].
  destruct (_ || _); lia.
Qed.

(** A date that [strptime] returns is a date of the calendar. *)
Lemma strptime_valid s d : strptime_Ymd s = Some d -> valid_date d.
Proof.
  unfold strptime_Ymd.
  destruct (read_year s) as [[y [|c r1]]|] eqn:Ey; try discriminate.
  rewrite ascii_match_hyphen. destruct (Ascii.eqb c "-"); [|discriminate].
  destruct (read_month r1) as [[m r2]|] eqn:Em; [|discriminate].
  destruct (read_day r2) as [[dd [|? ?]]|] eqn:Ed; try discriminate.
  destruct ((1 <=? y) && (dd <=? days_in_month y m)) eqn:E; [|discriminate].
  intros H. inversion H; subst. unfold valid_date. simpl.
  apply andb_true_iff in E as [E1 E2]. apply Z.leb_le in E1, E2.
  pose proof (read_year_range _ _ _ Ey).
  pose proof (read_month_range _ _ _ Em).
  pose proof (read_day_range _ _ _ Ed). lia.
Qed.

Lemma digit_char_digit k :
  0 <= k <= 9 -> is_digit (digit_char k) = true /\ dv (digit_char k) = k.
Proof.
  intros H.
  assert (E : k = 0 \/ k = 1 \/ k = 2 \/ k = 3 \/ k = 4 \/ k = 5 \/ k = 6
              \/ k = 7 \/ k = 8 \/ k = 9) by lia.
  repeat destruct E as [E|E]; subst; split; reflexivity.
Qed.

Lemma read_year_digits a b c e r :
  0 <= a <= 9 -> 0 <= b <= 9 -> 0 <= c <= 9 -> 0 <= e <= 9 ->
  read_year (String (digit_char a) (String (digit_char b)
               (String (digit_char c) (String (digit_char e) r))))
  = Some (1000 * a + 100 * b + 10 * c + e, r).
Proof.
  intros Ha Hb Hc He. unfold read_year.
  destruct (digit_char_digit a Ha) as [-> ->].
  destruct (digit_char_digit b Hb) as [-> ->].
  destruct (digit_char_digit c Hc) as [-> ->].
  destruct (digit_char_digit e He) as [-> ->].
  reflexivity.
Qed.

Lemma read_month_pad2 m r :
  1 <= m <= 12 -> read_month (pad2 m ++ String "-" r) = Some (m, r).
Proof.
  intros H.
  assert (E : m = 1 \/ m = 2 \/ m = 3 \/ m = 4 \/ m = 5 \/ m = 6 \/ m = 7
              \/ m = 8 \/ m = 9 \/ m = 10 \/ m = 11 \/ m = 12) by lia.
  repeat destruct E as [E|E]; subst; reflexivity.
Qed.

Lemma read_day_pad2 d :
  1 <= d <= 31 -> read_day (pad2 d) = Some (d, EmptyString).
Proof.
  intros H.
  assert (E : d = 1 \/ d = 2 \/ d = 3 \/ d = 4 \/ d = 5 \/ d = 6 \/ d = 7
              \/ d = 8 \/ d = 9 \/ d = 10 \/ d = 11 \/ d = 12 \/ d = 13
              \/ d = 14 \/ d = 15 \/ d = 16 \/ d = 17 \/ d = 18 \/ d = 19
              \/ d = 20 \/ d = 21 \/ d = 22 \/ d = 23 \/ d = 24 \/ d = 25
              \/ d = 26 \/ d = 27 \/ d = 28 \/ d = 29 \/ d = 30 \/ d = 31)
    by lia.
  repeat destruct E as [E|E]; subst; reflexivity.
Qed.

(** The four digits of a year from 1000 on. *)
Lemma str_year_four y :
  1000 <= y <= 9999 ->
  exists a b c e,
    0 <= a <= 9 /\ 0 <= b <= 9 /\ 0 <= c <= 9 /\ 0 <= e <= 9
    /\ y = 1000 * a + 100 * b + 10 * c + e
    /\ str_year y
       = String (digit_char a) (String (digit_char b)
           (String (digit_char c) (String (digit_char e) EmptyString))).
Proof.
  intros H. unfold str_year.
  destruct (Z.ltb_spec y 10); [lia|].
  destruct (Z.ltb_spec y 100); [lia|].
  destruct (Z.ltb_spec y 1000); [lia|].
  exists (y / 100 / 10), (y / 100 mod 10), (y mod 100 / 10), (y mod 100 mod 10).
  repeat split; try reflexivity; Z.div_mod_to_equations; lia.
Qed.

(** The text that [strftime] prints for a date from the year 1000 on is
    read back by [strptime] as that date. *)
Lemma strptime_strftime d :
  valid_date d -> 1000 <= year d ->
  strptime_Ymd (strftime_Ymd d) = Some d.
Proof.
  destruct d as [y m dd]. unfold valid_date, strftime_Ymd.
  cbn [year month day]. intros (Hy & Hm & Hd) Hy'.
  destruct (str_year_four y ltac:(lia))
    as (a & b & c & e & Ha & Hb & Hc & He & Ey & ->).
  cbn [append]. unfold strptime_Ymd.
  rewrite (read_year_digits a b c e _ Ha Hb Hc He), <- Ey.
  cbv beta iota.
  rewrite (read_month_pad2 m (pad2 dd) Hm).
  pose proof (days_in_month_le y m).
  rewrite (read_day_pad2 dd ltac:(lia)).
  destruct (Z.leb_spec 1 y); [|lia].
  destruct (Z.leb_spec dd (days_in_month y m)); [|lia].
  reflexivity.
Qed.

End DateFacts.

(** ** The list of generated files *)

Module ListingFacts.

Import PyStr PySort Listing.

Section Folder.
Variable getmtime : string -> option Z.

Local Abbreviation key := (newest_key getmtime).

Lemma decorate_known l dl :
  decorate key l = Some dl ->
  map snd dl = l
  /\ Forall (fun p => getmtime (snd p) = Some (- fst p)) dl.
Proof.
  revert dl. induction l as [|x r IH]; simpl; intros dl H.
  - inversion H. split; constructor.
  - unfold key at 1 in H. destruct (getmtime x) as [t|] eqn:K; [|discriminate].
    cbn [option_map] in H.
    destruct (decorate key r) as [dr|]; [|discriminate].
    inversion H; subst. destruct (IH _ eq_refl) as [E F].
    split; simpl; [now rewrite E|].
    constructor; [simpl; rewrite K; f_equal; lia | exact F].
Qed.

Lemma decorate_unknown l x :
  In x l -> getmtime x = None -> decorate key l = None.
Proof.
  induction l as [|y r IH]; simpl; [tauto|].
  intros [->|H] K.
  - unfold key. now rewrite K.
  - destruct (key y); [|reflexivity]. now rewrite (IH H K).
Qed.

Lemma decorate_all_known l :
  (forall x, In x l -> getmtime x <> None) -> decorate key l <> None.
Proof.
  induction l as [|y r IH]; simpl; intros H; [discriminate|].
  unfold key at 1. destruct (getmtime y) eqn:K.
  - cbn [option_map].
    destruct (decorate key r) eqn:D; [discriminate|].
    exfalso. apply IH; [|reflexivity]. intros x Hx. apply H. now right.
  - exfalso. apply (H y); [now left | exact K].
Qed.

(** The sorted files, newest first. *)
Lemma sorted_newest_first dl :
  Forall (fun p => getmtime (snd p) = Some (- fst p)) dl ->
  StronglySorted key_le dl ->
  StronglySorted (newer_or_same getmtime) (map snd dl).
Proof.
  intros F S. induction S as [|p l S IH A]; simpl; [constructor|].
  inversion F as [|? ? Fp Fl]; subst.
  constructor; [now apply IH|].
  apply Forall_forall. intros y Hy. apply in_map_iff in Hy as (q & <- & Hq).
  rewrite Forall_forall in A, Fl.
  unfold newer_or_same. rewrite Fp, (Fl _ Hq).
  specialize (A _ Hq). unfold key_le in A. lia.
Qed.

Lemma firstn_sorted {A} (R : A -> A -> Prop) n l :
  StronglySorted R l -> StronglySorted R (firstn n l).
Proof.
  intros S. revert n. induction S as [|x l S IH F]; intros [|n]; simpl;
    try constructor; [apply IH|].
  rewrite Forall_forall in *. intros y Hy. apply F.
  rewrite <- (firstn_skipn n l). apply in_or_app. now left.
Qed.

Lemma sorted_app_inv {A} (R : A -> A -> Prop) l1 l2 :
  StronglySorted R (l1 ++ l2) ->
  forall x y, In x l1 -> In y l2 -> R x y.
Proof.
  induction l1 as [|a l1 IH]; simpl; intros S x y Hx Hy; [tauto|].
  apply StronglySorted_inv in S as [S F].
  destruct Hx as [->|Hx]; [|now apply IH].
  rewrite Forall_forall in F. apply F, in_or_app. now right.
Qed.

End Folder.

Lemma endswith_app p s : endswith p (s ++ p) = true.
Proof.
  induction s as [|c r IH]; simpl.
  - destruct p as [|c r]; simpl; [reflexivity|].
    now rewrite Ascii.eqb_refl, String.eqb_refl.
  - rewrite IH. apply orb_true_r.
Qed.

Lemma append_assoc (a b c : string) : ((a ++ b) ++ c = a ++ (b ++ c))%string.
Proof. induction a as [|x a IH]; simpl; [reflexivity | now rewrite IH]. Qed.

Lemma make_filename_pdf s n :
  endswith ".pdf" (Invoice.make_filename s n) = true.
Proof.
  unfold Invoice.make_filename.
  rewrite <- !append_assoc. apply endswith_app.
Qed.

End ListingFacts.

(** ** Cleaning a name twice *)

Module CleanFacts.

Import PyStr PyDate Invoice FilenameSpec DateText.
Import FilenameFacts.

Lemma sub_unsafe_id s : all_chars safe_char s = true -> sub_unsafe s = s.
Proof.
  induction s as [|c r IH]; simpl; [reflexivity|].
  intros H. apply andb_true_iff in H as [Hc Hr]. now rewrite Hc, IH.
Qed.

Lemma lstrip_id p s :
  (forall c, first_char s = Some c -> p c = false) -> lstrip p s = s.
Proof.
  destruct s as [|c r]; simpl; [reflexivity|].
  intros H. now rewrite (H c eq_refl).
Qed.

Lemma rstrip_id p s :
  (forall c, last_char s = Some c -> p c = false) -> rstrip p s = s.
Proof.
  induction s as [|c r IH]; [reflexivity|].
  intros H. cbn [rstrip]. destruct r as [|c' r'].
  - simpl. now rewrite (H c eq_refl).
  - rewrite IH by exact H. now rewrite andb_false_r.
Qed.

(** A text of the allowed characters that neither starts nor ends with an
    underscore is left as it is. *)
Lemma clean_fixed s :
  all_chars safe_char s = true ->
  (forall c, first_char s = Some c -> Ascii.eqb "_" c = false) ->
  (forall c, last_char s = Some c -> Ascii.eqb "_" c = false) ->
  clean s = s.
Proof.
  intros Hs Hf Hl. unfold clean, strip_underscore, strip_set.
  rewrite (sub_unsafe_id s Hs), (lstrip_id _ s Hf). now apply rstrip_id.
Qed.

Lemma clean_idempotent s : clean (clean s) = clean s.
Proof.
  destruct (strip_set_trimmed (Ascii.eqb "_") (sub_unsafe s))
    as (pre & post & _ & _ & _ & Hf & Hl).
  apply clean_fixed; [apply clean_safe | exact Hf | exact Hl].
Qed.

Lemma length_lstrip p s : (String.length (lstrip p s) <= String.length s)%nat.
Proof.
  induction s as [|c r IH]; simpl; [lia|].
  destruct (p c); simpl; lia.
Qed.

Lemma length_rstrip p s : (String.length (rstrip p s) <= String.length s)%nat.
Proof.
  induction s as [|c r IH]; simpl; [lia|].
  destruct (p c && is_empty (rstrip p r)); simpl; lia.
Qed.

Lemma length_sub_unsafe s : String.length (sub_unsafe s) = String.length s.
Proof. induction s as [|c r IH]; simpl; [reflexivity | now rewrite IH]. Qed.

Lemma length_clean s : (String.length (clean s) <= String.length s)%nat.
Proof.
  unfold clean, strip_underscore, strip_set.
  rewrite <- (length_sub_unsafe s).
  etransitivity; [apply length_rstrip | apply length_lstrip].
Qed.

Lemma first_char_in s c : first_char s = Some c -> In c (list_ascii_of_string s).
Proof. destruct s; simpl; [discriminate|]. intros [= ->]. now left. Qed.

Lemma last_char_in s c : last_char s = Some c -> In c (list_ascii_of_string s).
Proof.
  induction s as [|a r IH]; [discriminate|].
  cbn [last_char]. destruct r as [|b r'].
  - intros [= ->]. now left.
  - intros H. right. now apply IH.
Qed.

(** A text of digits is left as it is. *)
Lemma clean_digits s : all_chars is_digit s = true -> clean s = s.
Proof.
  intros H.
  assert (Hsafe : forall c, is_digit c = true -> safe_char c = true).
  { intros c Hc. unfold safe_char.
    change (between "0" "9" c) with (is_digit c). rewrite Hc.
    now rewrite !orb_true_r. }
  assert (Hus : forall c, In c (list_ascii_of_string s) ->
                          Ascii.eqb "_" c = false).
  { intros c Hc. pose proof (all_chars_in _ _ _ H Hc) as Hd.
    destruct (Ascii.eqb_spec "_" c) as [<-|]; [discriminate | reflexivity]. }
  apply clean_fixed.
  - eapply KeyFacts.all_chars_impl; [exact Hsafe | exact H].
  - intros c Hc. apply Hus. now apply first_char_in.
  - intros c Hc. apply Hus. now apply last_char_in.
Qed.

Lemma pad2_digits n : 0 <= n <= 99 -> all_chars is_digit (pad2 n) = true.
Proof.
  intros H. unfold pad2. cbn [all_chars].
  destruct (DateFacts.digit_char_digit (n / 10)) as [-> _];
    [Z.div_mod_to_equations; lia|].
  destruct (DateFacts.digit_char_digit (n mod 10)) as [-> _];
    [Z.div_mod_to_equations; lia|].
  reflexivity.
Qed.

Lemma all_chars_append p a b :
  all_chars p a = true -> all_chars p b = true ->
  all_chars p (a ++ b) = true.
Proof. intros Ha Hb. now rewrite all_chars_app, Ha, Hb. Qed.

Lemma str_year_digits y : 1 <= y <= 9999 -> all_chars is_digit (str_year y) = true.
Proof.
  intros H. unfold str_year.
  destruct (Z.ltb_spec y 10).
  - cbn [all_chars]. now destruct (DateFacts.digit_char_digit y) as [-> _]; [lia|].
  - destruct (Z.ltb_spec y 100); [apply pad2_digits; lia|].
    destruct (Z.ltb_spec y 1000).
    + cbn [all_chars].
      destruct (DateFacts.digit_char_digit (y / 100)) as [-> _];
        [Z.div_mod_to_equations; lia|].
      apply pad2_digits. Z.div_mod_to_equations; lia.
    + apply all_chars_append; apply pad2_digits; Z.div_mod_to_equations; lia.
Qed.

End CleanFacts.

(** ** Adding a supplier *)

Module SupplierFacts.

Import PyStr PyFloat Form Suppliers.

(** The three ways in which [add_supplier] ends. *)
Lemma add_supplier_cases execute (f : form) :
  (form_get "name" f = None /\ add_supplier execute f = Bad_request)
  \/ (exists name t,
         form_get "name" f = Some name
         /\ form_get "default_unit_price" f = Some t
         /\ is_empty t = false /\ py_float t = None
         /\ add_supplier execute f
            = Redirected Failure "Invalid default price format." None false)
  \/ (exists name row cat msg c,
         form_get "name" f = Some name
         /\ add_supplier execute f = Redirected cat msg (Some row) c
         /\ row_name row = name
         /\ row_default_unit_price row
            = match form_get "default_unit_price" f with
              | Some t => if is_empty t then None else py_float t
              | None => None
              end
         /\ (row_default_unit_price row = None ->
             form_get "default_unit_price" f = None
             \/ form_get "default_unit_price" f = Some EmptyString)
         /\ (cat = Success <-> execute row = Db_ok)
         /\ (c = true <-> execute row = Db_ok)).
Proof.
  unfold add_supplier.
  destruct (form_get "name" f) as [name|]; [|left; now split].
  right.
  destruct (form_get "default_unit_price" f) as [[|c r]|] eqn:P.
  - right. destruct (execute _) eqn:X; exists name; do 4 eexists;
      (split; [reflexivity|]); (split; [reflexivity|]);
      (split; [reflexivity|]); (split; [reflexivity|]);
      (split; [intros _; now right|]);
      rewrite X; split; split; congruence.
  - destruct (py_float (String c r)) as [x|] eqn:Fx.
    + right. destruct (execute _) eqn:X; exists name; do 4 eexists;
        (split; [reflexivity|]); (split; [reflexivity|]);
        (split; [reflexivity|]);
        (split; [reflexivity|]);
        (split; [cbv beta iota delta [row_default_unit_price];
                 discriminate|]);
        rewrite X; split; split; congruence.
    + left. exists name, (String c r). repeat split. exact Fx.
  - right. destruct (execute _) eqn:X; exists name; do 4 eexists;
      (split; [reflexivity|]); (split; [reflexivity|]);
      (split; [reflexivity|]); (split; [reflexivity|]);
      (split; [intros _; now left|]);
      rewrite X; split; split; congruence.
Qed.

End SupplierFacts.

(** ** Where line items come from, and one more row *)

Module AmountFacts.

Import PyStr PyFloat Form PySort Parser LineItemSpec LoopModel.
Import SpecFacts FormFacts ParserFacts HeadFacts OrderFacts.

(** Rounding with the sign of a negative number gives nothing positive. *)
Lemma binary_round_aux_negative m e l :
  gt_zero (binary_round_aux prec emax true m e l) = false.
Proof.
  unfold binary_round_aux.
  destruct (shr_fexp prec emax m e l) as [mrs1 e1].
  destruct (shr_fexp prec emax _ e1 loc_Exact) as [mrs2 e2].
  destruct (shr_m mrs2); try reflexivity.
  now destruct (e2 <=? emax - prec).
Qed.

Lemma of_ratio_negative p q : gt_zero (of_ratio true p q) = false.
Proof.
  unfold of_ratio. destruct p; [reflexivity| |];
    destruct (SFdiv_core_binary _ _ _ _ _ _) as [[mz ez] lz];
    apply binary_round_aux_negative.
Qed.

Lemma of_decimal_negative m e : gt_zero (of_decimal true m e) = false.
Proof. unfold of_decimal. destruct e; apply of_ratio_negative. Qed.

(** A text that starts with a minus sign is no amount greater than zero. *)
Lemma minus_not_positive r : gt_zero (amount_of_text (String "-" r)) = false.
Proof.
  unfold amount_of_text, py_float, num_strip, strip_set.
  change (lstrip is_num_space (String "-" r)) with (String "-" r).
  cbn [rstrip]. cbv zeta. change (is_num_space "-") with false. cbn [andb].
  cbn [remove_underscores]. change (Ascii.eqb "-" "_") with false. cbv iota.
  destruct (remove_underscores (is_digit "-") (rstrip is_num_space r))
    as [t|]; [|reflexivity].
  cbn [option_map read_sign].
  destruct (parse_decimal t) as [[m e]|]; [apply of_decimal_negative|].
  destruct (_ || _); [reflexivity|].
  destruct (String.eqb _ _); reflexivity.
Qed.

(** The first value of a key of the dictionary is a value that the form
    has under that key. *)
Lemma heads_fold_sent h (f : form) k t d :
  In (k, t)
    (heads h (fold_left (fun d kv => add_value (fst kv) (snd kv) d) f d)) ->
  In (k, t) (heads h d) \/ exists v, In (k, v) f /\ t = h v.
Proof.
  revert d. induction f as [|[k1 v1] f IH]; simpl; intros d H; [now left|].
  apply IH in H as [H|(v & Hv & E)].
  - rewrite heads_add_value in H. destruct (existsb _ _); [now left|].
    apply in_app_iff in H as [H|[H|[]]]; [now left|].
    inversion H; subst. right. exists v1. split; [now left | reflexivity].
  - right. exists v. split; [now right | exact E].
Qed.

Lemma heads_to_dict_sent h (f : form) k t :
  In (k, t) (heads h (to_dict f)) -> exists v, In (k, v) f /\ t = h v.
Proof. intros H. apply heads_fold_sent in H as [[]|H]. exact H. Qed.

(** An entry of the dictionary of a form is a field of the form. *)
Lemma entry_sent (f : form) i fd t :
  In (i, fd, t) (entries (to_dict f)) ->
  exists k v g,
    In (k, v) f /\ match_key k = Some (g, fd) /\ py_int g = Some i
    /\ t = strip v.
Proof.
  rewrite entries_heads. intros H.
  apply in_flat_map in H as ([k t'] & Hin & He). cbn [fst snd] in He.
  destruct (match_key k) as [[g fd']|] eqn:M; [|destruct He].
  destruct (py_int g) as [i'|] eqn:P; [|destruct He].
  destruct He as [He|[]]. inversion He; subst.
  apply heads_to_dict_sent in Hin as (v & Hv & ->).
  now exists k, v, g.
Qed.

(** A valid item has its description and its amount from two fields of the
    form with its index. *)
Lemma valid_item_sent (f : form) i :
  valid (item_at (entries (to_dict f)) i) = true ->
  exists kd vd gd ka va ga,
    In (kd, vd) f /\ match_key kd = Some (gd, Description)
    /\ py_int gd = Some i
    /\ In (ka, va) f /\ match_key ka = Some (ga, Amount)
    /\ py_int ga = Some i
    /\ description (item_at (entries (to_dict f)) i) = strip vd
    /\ amount (item_at (entries (to_dict f)) i) = amount_of_text (strip va).
Proof.
  unfold valid, item_at. cbn [description amount].
  intros H. apply andb_true_iff in H as [Hd Ha].
  destruct (last_text (entries (to_dict f)) i Description) as [td|] eqn:Ld;
    [|discriminate].
  destruct (last_text (entries (to_dict f)) i Amount) as [ta|] eqn:La;
    [|discriminate].
  apply last_text_in, entry_sent in Ld as (kd & vd & gd & H1 & H2 & H3 & ->).
  apply last_text_in, entry_sent in La as (ka & va & ga & H4 & H5 & H6 & ->).
  exists kd, vd, gd, ka, va, ga. repeat split; assumption.
Qed.

Lemma items_sent (f : form) its s :
  parse_line_items (to_dict f) = Some (its, s) ->
  forall it, In it its ->
    valid it = true
    /\ exists i kd vd gd ka va ga,
         In (kd, vd) f /\ match_key kd = Some (gd, Description)
         /\ py_int gd = Some i
         /\ In (ka, va) f /\ match_key ka = Some (ga, Amount)
         /\ py_int ga = Some i
         /\ description it = strip vd
         /\ amount it = amount_of_text (strip va).
Proof.
  intros H it Hit. rewrite parse_form_spec in H.
  destruct (sortable (to_dict f)); [|discriminate].
  inversion H; subst. clear H. unfold spec_items in Hit.
  apply filter_In in Hit as [Hin Hv]. split; [exact Hv|].
  apply in_map_iff in Hin as (i & <- & _).
  exists i. now apply valid_item_sent.
Qed.

(** *** One more row at the end *)


Lemma keys_fold_only (f : form) k d :
  In k (keys (fold_left (fun d kv => add_value (fst kv) (snd kv) d) f d)) ->
  In k (keys d) \/ In k (map fst f).
Proof.
  revert d. induction f as [|[k1 v1] f IH]; simpl; intros d H; [now left|].
  apply IH in H as [H|H]; [|now right; right].
  rewrite keys_add_value in H.
  destruct (existsb _ _); [now left|].
  apply in_app_iff in H as [H|[H|[]]]; [now left | right; now left].
Qed.

Lemma add_value_new k v d :
  ~ In k (keys d) -> add_value k v d = (d ++ [(k, (v, []))])%list.
Proof.
  induction d as [|[k' [v0 vs]] r IH]; simpl; intros H; [reflexivity|].
  destruct (String.eqb_spec k k') as [E|E]; [exfalso; apply H; now left|].
  rewrite IH; [reflexivity|]. intros Hin. apply H. now right.
Qed.

(** Two new keys at the end of the form come at the end of the
    dictionary. *)
Lemma to_dict_two_new (f : form) k1 v1 k2 v2 :
  ~ In k1 (map fst f) -> ~ In k2 (map fst f) -> k1 <> k2 ->
  to_dict (f ++ [(k1, v1); (k2, v2)])%list
  = (to_dict f ++ [(k1, (v1, [])); (k2, (v2, []))])%list.
Proof.
  intros H1 H2 Hne. unfold to_dict. rewrite fold_left_app.
  cbn [fold_left fst snd].
  set (d := fold_left (fun d kv => add_value (fst kv) (snd kv) d) f []).
  assert (N1 : ~ In k1 (keys d)).
  { intros H. apply keys_fold_only in H as [[]|H]. now apply H1. }
  assert (N2 : ~ In k2 (keys d)).
  { intros H. apply keys_fold_only in H as [[]|H]. now apply H2. }
  rewrite (add_value_new k1 v1 d N1), add_value_new.
  - now rewrite <- app_assoc.
  - unfold keys. rewrite map_app, in_app_iff. simpl. intros [H|[H|[]]];
      [now apply N2 | now apply Hne].
Qed.

(** The keys of the dictionary are the keys of the form. *)
Lemma keys_to_dict (f : form) k : In k (keys (to_dict f)) <-> In k (map fst f).
Proof.
  split.
  - intros H. apply keys_fold_only in H as [[]|H]. exact H.
  - apply keys_fold_sent.
Qed.


Lemma sortable_app (d1 d2 : dict) :
  sortable (d1 ++ d2)%list = sortable d1 && sortable d2.
Proof.
  unfold sortable, keys. now rewrite map_app, filter_app, forallb_app.
Qed.

Lemma sorted_lt_snoc (l : list Z) i :
  StronglySorted Z.lt l -> Forall (fun j => j < i) l ->
  StronglySorted Z.lt (l ++ [i])%list.
Proof.
  induction 1 as [|a r Hs IH Ha]; intros F; simpl.
  - repeat constructor.
  - inversion F; subst. constructor; [now apply IH|].
    apply Forall_app. split; [exact Ha | now repeat constructor].
Qed.

(** The indices of entries followed by entries of a new, largest index. *)
Lemma indices_new_last (es : list entry) e1 e2 :
  idx e2 = idx e1 -> Forall (fun e => idx e < idx e1) es ->
  indices (es ++ [e1; e2])%list = (indices es ++ [idx e1])%list.
Proof.
  intros E F. apply ascending_unique.
  - apply indices_ascending.
  - apply sorted_lt_snoc; [apply indices_ascending|].
    apply Forall_forall. intros j Hj. apply in_indices in Hj.
    apply in_map_iff in Hj as (e & <- & He).
    rewrite Forall_forall in F. now apply F.
  - intros x. rewrite in_app_iff, !in_indices, map_app, in_app_iff.
    simpl. rewrite E. tauto.
Qed.

Lemma item_at_new_last (es : list entry) e1 e2 :
  idx e2 = idx e1 -> fld e1 = Description -> fld e2 = Amount ->
  Forall (fun e => idx e < idx e1) es ->
  item_at (es ++ [e1; e2])%list (idx e1)
  = {| description := txt e1; amount := amount_of_text (txt e2) |}.
Proof.
  intros E F1 F2 F.
  change (es ++ [e1; e2])%list with (es ++ [e1] ++ [e2])%list.
  rewrite app_assoc, <- E, item_at_snoc_same, E.
  rewrite item_at_snoc_same, item_at_absent, F1, F2; [reflexivity|].
  intros H. apply in_map_iff in H as (e & He & Hin).
  rewrite Forall_forall in F. specialize (F _ Hin). lia.
Qed.

Lemma item_at_old (es : list entry) e1 e2 j :
  idx e2 = idx e1 -> j <> idx e1 ->
  item_at (es ++ [e1; e2])%list j = item_at es j.
Proof.
  intros E N.
  change (es ++ [e1; e2])%list with (es ++ [e1] ++ [e2])%list.
  rewrite app_assoc, !item_at_snoc_other; congruence.
Qed.

Lemma spec_items_new_last (es : list entry) e1 e2 :
  idx e2 = idx e1 -> fld e1 = Description -> fld e2 = Amount ->
  Forall (fun e => idx e < idx e1) es ->
  spec_items (es ++ [e1; e2])%list
  = (spec_items es
     ++ filter valid
          [{| description := txt e1; amount := amount_of_text (txt e2) |}])%list.
Proof.
  intros E F1 F2 F. unfold spec_items.
  rewrite (indices_new_last es e1 e2 E F), map_app, filter_app.
  cbn [map]. rewrite (item_at_new_last es e1 e2 E F1 F2 F). f_equal.
  f_equal. apply map_ext_in. intros j Hj. apply item_at_old; [exact E|].
  apply in_indices in Hj. apply in_map_iff in Hj as (e & <- & He).
  rewrite Forall_forall in F. specialize (F _ He). lia.
Qed.

End AmountFacts.

(** ** Keys of items, and the item of a row *)

Module RowFacts.

Import PyStr PyFloat Form PySort Parser LineItemSpec LoopModel.
Import KeyFacts SpecFacts FormFacts ParserFacts HeadFacts OrderFacts.

Lemma drop_prefix_append p s : drop_prefix p (p ++ s) = Some s.
Proof.
  induction p as [|a p IH]; simpl; [reflexivity|].
  now rewrite Ascii.eqb_refl.
Qed.

Lemma span_digits_append g c r :
  all_chars is_digit g = true -> is_digit c = false ->
  span_digits (g ++ String c r) = (g, String c r).
Proof.
  intros Hg Hc. induction g as [|a g IH]; simpl.
  - now rewrite Hc.
  - simpl in Hg. apply andb_true_iff in Hg as [Ha Hg].
    now rewrite Ha, (IH Hg).
Qed.

(** The pattern of the loop matches the key of a field, with the text of
    the index as group 1. *)
Lemma match_item_key g fd rest :
  all_chars is_digit g = true -> is_empty g = false ->
  match_key (item_key g fd rest) = Some (g, fd).
Proof.
  intros Hg Hne. unfold match_key, item_key.
  rewrite drop_prefix_append.
  change ("][" ++ field_name fd ++ "]" ++ rest)%string
    with (String "]" (String "[" (field_name fd ++ "]" ++ rest))).
  rewrite (span_digits_append g "]" _ Hg eq_refl), Hne.
  destruct fd; reflexivity.
Qed.

(** Conversely, a key that the pattern matches is the key of a field. *)
Lemma match_key_item_key k g fd :
  match_key k = Some (g, fd) -> exists rest, k = item_key g fd rest.
Proof.
  unfold match_key, item_key. intros H.
  destruct (drop_prefix "items[" k) as [r0|] eqn:E0; [|discriminate].
  apply drop_prefix_app in E0. subst k.
  destruct (span_digits r0) as [ds r1] eqn:E1.
  apply span_digits_app in E1 as [-> Hd].
  destruct (is_empty ds); [discriminate|].
  destruct (drop_prefix "][" r1) as [r2|] eqn:E2; [|discriminate].
  apply drop_prefix_app in E2. subst r1.
  destruct (drop_prefix "description" r2) as [r3|] eqn:E3.
  - apply drop_prefix_app in E3. subst r2.
    destruct r3 as [|c r3]; [discriminate|]. cbn [startswith] in H.
    destruct (Ascii.eqb_spec "]" c) as [<-|]; [|discriminate].
    inversion H; subst. exists r3. reflexivity.
  - destruct (drop_prefix "amount" r2) as [r3|] eqn:E4; [|discriminate].
    apply drop_prefix_app in E4. subst r2.
    destruct r3 as [|c r3]; [discriminate|]. cbn [startswith] in H.
    destruct (Ascii.eqb_spec "]" c) as [<-|]; [|discriminate].
    inversion H; subst. exists r3. reflexivity.
Qed.

Lemma int_digits_dec r :
  all_chars is_digit r = true ->
  forall acc, int_digits acc r = Some (dec_value_from acc r).
Proof.
  induction r as [|c r IH]; cbn [int_digits all_chars dec_value_from];
    intros H acc; [reflexivity|].
  apply andb_true_iff in H as [Hc Hr].
  unfold digit_val. rewrite Hc. apply IH, Hr.
Qed.

(** [int] of the text of an index is the number that its digits denote. *)
Lemma py_int_dec g : index_text g -> py_int g = Some (dec_value g).
Proof.
  intros (Hd & Hne & Hl). unfold py_int. rewrite (strip_digits _ Hd).
  destruct g as [|c r]; [discriminate|].
  pose proof Hd as Hd'. cbn [all_chars] in Hd'.
  apply andb_true_iff in Hd' as [Hc Hr].
  rewrite read_sign_other; [|intros ->; discriminate|intros ->; discriminate].
  rewrite (count_digits_length _ Hd).
  unfold digit_val. rewrite Hc.
  destruct (Z.ltb_spec int_max_str_digits
              (Z.of_nat (String.length (String c r)))) as [L|L].
  - unfold int_max_str_digits in L. lia.
  - rewrite (int_digits_dec r Hr). cbn [option_map].
    unfold dec_value. cbn [dec_value_from]. reflexivity.
Qed.

(** A text of digits that [int] accepts is the text of an index. *)
Lemma py_int_index_text g z :
  all_chars is_digit g = true -> is_empty g = false ->
  py_int g = Some z -> index_text g /\ dec_value g = z.
Proof.
  intros Hd Hne Hz.
  assert (I : index_text g).
  { repeat split; try assumption.
    destruct (Nat.le_gt_cases (String.length g) 4300) as [L|L]; [exact L|].
    rewrite py_int_long in Hz; try assumption; [discriminate|].
    rewrite (count_digits_length _ Hd). unfold int_max_str_digits. lia. }
  split; [exact I|]. rewrite (py_int_dec g I) in Hz. congruence.
Qed.

(** With keys of items only, [sorted] does not raise. *)
Lemma well_keyed_sortable d : well_keyed (keys d) -> sortable d = true.
Proof.
  unfold well_keyed, sortable. intros H. apply forallb_forall.
  intros k Hk. apply filter_In in Hk as [Hk Hs].
  rewrite Forall_forall in H.
  destruct (H k Hk Hs) as (g & fd & rest & -> & I).
  pose proof I as (Hd & Hne & _).
  destruct (match_key_sort_key _ _ _ (match_item_key g fd rest Hd Hne))
    as (_ & -> & _).
  now rewrite (py_int_dec g I).
Qed.

Lemma well_keyed_form (f : form) :
  well_keyed (map fst f) -> well_keyed (keys (to_dict f)).
Proof.
  unfold well_keyed. rewrite !Forall_forall. intros H k Hk.
  apply H. now apply AmountFacts.keys_to_dict.
Qed.

Lemma in_entries d i fd t :
  In (i, fd, t) (entries d) ->
  exists k v vs g,
    In (k, (v, vs)) d /\ match_key k = Some (g, fd) /\ py_int g = Some i
    /\ t = strip v.
Proof.
  unfold entries. intros H.
  apply in_flat_map in H as ([k [v vs]] & Hin & He).
  unfold entry_of in He. cbn [fst snd] in He.
  destruct (match_key k) as [[g fd']|] eqn:M; [|destruct He].
  destruct (py_int g) as [i'|] eqn:P; [|destruct He].
  destruct He as [He|[]]. inversion He; subst.
  now exists k, v, vs, g.
Qed.

Lemma entry_in d k v vs g fd i :
  In (k, (v, vs)) d -> match_key k = Some (g, fd) -> py_int g = Some i ->
  In (i, fd, strip v) (entries d).
Proof.
  intros Hin M P. unfold entries. apply in_flat_map.
  exists (k, (v, vs)). split; [exact Hin|].
  unfold entry_of. cbn [fst snd]. rewrite M, P. now left.
Qed.

(** The text of a field of an index for which the dictionary has one key
    only. *)
Lemma last_text_only d k v vs g fd i :
  NoDup (keys d) ->
  In (k, (v, vs)) d -> match_key k = Some (g, fd) -> py_int g = Some i ->
  (forall k' x g', In (k', x) d -> match_key k' = Some (g', fd) ->
                   py_int g' = Some i -> k' = k) ->
  last_text (entries d) i fd = Some (strip v).
Proof.
  intros Hnd Hin M P U.
  destruct (last_text (entries d) i fd) as [t|] eqn:L.
  - apply last_text_in, in_entries in L
      as (k' & v' & vs' & g' & Hin' & M' & P' & ->).
    pose proof (U _ _ _ Hin' M' P') as ->.
    pose proof (nodup_fst_inj d k _ _ Hnd Hin Hin') as E.
    inversion E. reflexivity.
  - exfalso. apply (last_text_none _ _ _ (strip v) L).
    exact (entry_in d k v vs g fd i Hin M P).
Qed.

(** The item of a row: an index whose description and whose amount have
    one key each. *)
Lemma row_item d gd rd vd vsd ga ra va vsa :
  NoDup (keys d) ->
  In (item_key gd Description rd, (vd, vsd)) d ->
  In (item_key ga Amount ra, (va, vsa)) d ->
  index_text gd -> index_text ga -> dec_value gd = dec_value ga ->
  (forall k x g fd rest,
      In (k, x) d -> k = item_key g fd rest -> index_text g ->
      dec_value g = dec_value gd ->
      k = item_key gd Description rd \/ k = item_key ga Amount ra) ->
  In (dec_value gd) (map idx (entries d))
  /\ item_at (entries d) (dec_value gd)
     = {| description := strip vd; amount := amount_of_text (strip va) |}.
Proof.
  intros Hnd Hd Ha Id Ia E U.
  pose proof Id as (Dd & Nd & _). pose proof Ia as (Da & Na & _).
  pose proof (match_item_key gd Description rd Dd Nd) as Md.
  pose proof (match_item_key ga Amount ra Da Na) as Ma.
  pose proof (py_int_dec gd Id) as Pd.
  pose proof (py_int_dec ga Ia) as Pa. rewrite <- E in Pa.
  assert (U' : forall fd k kx gx k' x g',
             match_key k = Some (gx, fd) ->
             (k = item_key gd Description rd \/ k = item_key ga Amount ra) ->
             In (k, kx) d ->
             In (k', x) d -> match_key k' = Some (g', fd) ->
             py_int g' = Some (dec_value gd) -> k' = k).
  { intros fd k kx gx k' x g' Mk Hk Hink Hin' M' P'.
    destruct (match_key_item_key _ _ _ M') as [rest Ek'].
    destruct (match_key_sort_key _ _ _ M') as (_ & _ & D' & N').
    destruct (py_int_index_text g' _ D' N' P') as [I' V'].
    destruct (U k' x g' fd rest Hin' Ek' I' V') as [->| ->];
      destruct Hk as [->| ->]; try reflexivity;
      rewrite ?Md, ?Ma in *; congruence. }
  split.
  - apply in_map_iff. exists (dec_value gd, Description, strip vd).
    split; [reflexivity|]. exact (entry_in d _ vd vsd gd _ _ Hd Md Pd).
  - unfold item_at.
    rewrite (last_text_only d _ vd vsd gd Description _ Hnd Hd Md Pd).
    2:{ intros k' x g' Hin' M' P'.
        exact (U' Description _ _ _ k' x g' Md (or_introl eq_refl) Hd Hin' M' P'). }
    rewrite (last_text_only d _ va vsa ga Amount _ Hnd Ha Ma Pa).
    2:{ intros k' x g' Hin' M' P'.
        exact (U' Amount _ _ _ k' x g' Ma (or_intror eq_refl) Ha Hin' M' P'). }
    reflexivity.
Qed.

(** With keys of items only the parser returns, and it returns the valid
    items of the indices that occur. *)
Lemma well_keyed_parse d :
  NoDup (keys d) -> well_keyed (keys d) ->
  parse_line_items d
  = Some (spec_items (entries d), float_sum (map amount (spec_items (entries d)))).
Proof.
  intros Hnd Hw. rewrite parse_line_items_spec by exact Hnd.
  now rewrite (well_keyed_sortable d Hw).
Qed.

Lemma in_spec_items es i :
  In i (map idx es) -> valid (item_at es i) = true ->
  In (item_at es i) (spec_items es).
Proof.
  intros Hi Hv. unfold spec_items. apply filter_In. split; [|exact Hv].
  apply in_map. now apply in_indices.
Qed.

(** The first value of a key of the form is the first value that the
    dictionary has for it. *)
Lemma dict_get_add_value k k' v d :
  option_map fst (dict_get k (add_value k' v d))
  = match option_map fst (dict_get k d) with
    | Some v0 => Some v0
    | None => if String.eqb k k' then Some v else None
    end.
Proof.
  induction d as [|[k0 [v0 vs]] d IH]; cbn [add_value dict_get option_map].
  - destruct (String.eqb k k'); reflexivity.
  - destruct (String.eqb_spec k' k0) as [->|Ne]; cbn [dict_get].
    + destruct (String.eqb_spec k k0) as [->|Ne']; [reflexivity|].
      destruct (option_map fst (dict_get k d)); [reflexivity|].
      destruct (String.eqb_spec k k0); [contradiction | reflexivity].
    + destruct (String.eqb_spec k k0) as [->|Ne']; [reflexivity | exact IH].
Qed.

Lemma dict_get_fold (f : form) k d :
  option_map fst
    (dict_get k (fold_left (fun d kv => add_value (fst kv) (snd kv) d) f d))
  = match option_map fst (dict_get k d) with
    | Some v0 => Some v0
    | None => form_get k f
    end.
Proof.
  revert d. induction f as [|[k' v] f IH]; intros d; cbn [fold_left form_get].
  - now destruct (option_map fst (dict_get k d)).
  - rewrite IH. cbn [fst snd]. rewrite dict_get_add_value.
    destruct (option_map fst (dict_get k d)); [reflexivity|].
    now destruct (String.eqb k k').
Qed.

Lemma dict_get_some_in k x d : dict_get k d = Some x -> In (k, x) d.
Proof.
  induction d as [|[k0 x0] d IH]; cbn [dict_get]; [discriminate|].
  destruct (String.eqb_spec k k0) as [->|Ne].
  - intros H. inversion H. now left.
  - intros H. right. now apply IH.
Qed.

Lemma form_get_to_dict (f : form) k v :
  form_get k f = Some v -> exists vs, In (k, (v, vs)) (to_dict f).
Proof.
  intros H. pose proof (dict_get_fold f k []) as E.
  cbn [dict_get option_map] in E. rewrite H in E. fold (to_dict f) in E.
  destruct (dict_get k (to_dict f)) as [[v0 vs]|] eqn:G; [|discriminate].
  inversion E; subst. exists vs. now apply dict_get_some_in.
Qed.

(** Two tests that settle, by evaluation, that the keys of a form are
    keys of items and that an index has one key for each of its fields. *)
Lemma well_keyed_check ks :
  forallb (fun k => negb (startswith "items[" k)
                    || match match_key k with
                       | Some (g, _) => (String.length g <=? 4300)%nat
                       | None => false
                       end) ks = true ->
  well_keyed ks.
Proof.
  intros H. apply Forall_forall. intros k Hk Hs.
  rewrite forallb_forall in H. specialize (H k Hk).
  rewrite Hs in H. cbn [negb orb] in H.
  destruct (match_key k) as [[g fd]|] eqn:M; [|discriminate].
  destruct (match_key_item_key _ _ _ M) as [rest ->].
  destruct (match_key_sort_key _ _ _ M) as (_ & _ & Hd & Hne).
  exists g, fd, rest. split; [reflexivity|].
  repeat split; try assumption. now apply Nat.leb_le.
Qed.

Lemma row_unique_check ks kd ka i :
  forallb (fun k => match match_key k with
                    | Some (g, _) =>
                        match py_int g with
                        | Some z => negb (z =? i) || String.eqb k kd
                                    || String.eqb k ka
                        | None => true
                        end
                    | None => true
                    end) ks = true ->
  forall k g fd rest,
    In k ks -> k = item_key g fd rest -> index_text g -> dec_value g = i ->
    k = kd \/ k = ka.
Proof.
  intros H k g fd rest Hk -> I V.
  rewrite forallb_forall in H. specialize (H _ Hk).
  pose proof I as (Hd & Hne & _).
  rewrite (match_item_key g fd rest Hd Hne), (py_int_dec g I), V in H.
  rewrite Z.eqb_refl in H. cbn [negb orb] in H.
  apply orb_true_iff in H as [H|H]; apply String.eqb_eq in H; auto.
Qed.

(** *** Rates without a digit *)

Lemma no_digit_underscores s :
  all_chars (fun c => negb (is_digit c)) s = true ->
  forall prev, PyFloat.remove_underscores prev s = None
               \/ PyFloat.remove_underscores prev s = Some s.
Proof.
  induction s as [|c r IH]; cbn [all_chars PyFloat.remove_underscores];
    intros H prev; [now right|].
  apply andb_true_iff in H as [Hc Hr]. apply negb_true_iff in Hc.
  destruct (Ascii.eqb c "_").
  - left. destruct r as [|c' r']; [reflexivity|].
    cbn [all_chars] in Hr. apply andb_true_iff in Hr as [Hc' _].
    apply negb_true_iff in Hc'. rewrite Hc'.
    now rewrite andb_false_r.
  - destruct (IH Hr (is_digit c)) as [-> | ->]; [now left | now right].
Qed.

Lemma no_digit_lstrip p s :
  all_chars (fun c => negb (is_digit c)) s = true ->
  all_chars (fun c => negb (is_digit c)) (lstrip p s) = true.
Proof.
  induction s as [|c r IH]; cbn [lstrip]; [reflexivity|].
  intros H. destruct (p c); [|exact H].
  cbn [all_chars] in H. apply andb_true_iff in H as [_ H]. now apply IH.
Qed.

Lemma no_digit_rstrip p s :
  all_chars (fun c => negb (is_digit c)) s = true ->
  all_chars (fun c => negb (is_digit c)) (rstrip p s) = true.
Proof.
  induction s as [|c r IH]; cbn [rstrip all_chars]; [reflexivity|].
  intros H. apply andb_true_iff in H as [Hc Hr].
  destruct (p c && is_empty (rstrip p r)); [reflexivity|].
  cbn [all_chars]. now rewrite Hc, (IH Hr).
Qed.

Lemma no_digit_read_sign s :
  all_chars (fun c => negb (is_digit c)) s = true ->
  all_chars (fun c => negb (is_digit c)) (snd (read_sign s)) = true.
Proof.
  destruct s as [|c r]; [reflexivity|]. intros H.
  pose proof H as H'. cbn [all_chars] in H'.
  apply andb_true_iff in H' as [_ Hr].
  destruct (Ascii.eqb_spec c "-") as [->|N1]; [exact Hr|].
  destruct (Ascii.eqb_spec c "+") as [->|N2]; [exact Hr|].
  now rewrite (read_sign_other c r N1 N2).
Qed.

Lemma no_digit_prefix s :
  all_chars (fun c => negb (is_digit c)) s = true -> digits_prefix s = ([], s).
Proof.
  destruct s as [|c r]; [reflexivity|]. cbn [all_chars digits_prefix].
  intros H. apply andb_true_iff in H as [Hc _]. apply negb_true_iff in Hc.
  unfold digit_val. now rewrite Hc.
Qed.

Lemma no_digit_decimal s :
  all_chars (fun c => negb (is_digit c)) s = true ->
  PyFloat.parse_decimal s = None.
Proof.
  intros H. unfold PyFloat.parse_decimal. rewrite (no_digit_prefix s H).
  destruct s as [|c r]; [reflexivity|].
  destruct (Ascii.eqb_spec c ".") as [->|N].
  - cbn [all_chars] in H. apply andb_true_iff in H as [_ Hr].
    now rewrite (no_digit_prefix r Hr).
  - destruct c as [[] [] [] [] [] [] [] []]; try reflexivity.
    exfalso. now apply N.
Qed.

(** [float] rejects a text without a digit, unless the text says [inf],
    [infinity] or [nan]. *)
Lemma no_digit_float t :
  all_chars (fun c => negb (is_digit c)) t = true ->
  (let w := lower_str (snd (read_sign (num_strip t))) in
   String.eqb w "inf" || String.eqb w "infinity" || String.eqb w "nan")
  = false ->
  py_float t = None.
Proof.
  intros H W. cbv zeta in W. unfold py_float.
  assert (Hs : all_chars (fun c => negb (is_digit c)) (num_strip t) = true)
    by (unfold num_strip, strip_set; now apply no_digit_rstrip, no_digit_lstrip).
  destruct (no_digit_underscores _ Hs false) as [-> | ->]; [reflexivity|].
  pose proof (no_digit_read_sign _ Hs) as Hu.
  destruct (read_sign (num_strip t)) as [neg u]. cbn [snd] in Hu, W.
  rewrite (no_digit_decimal u Hu).
  apply orb_false_iff in W as [W1 W3].
  now rewrite W1, W3.
Qed.

End RowFacts.

(** ** The error of the float operations of lines 259-260 *)

Module ErrorFacts.

Import PyStr PyFloat Form Parser Invoice LineItemSpec FloatValue.


(** *** The number of binary digits *)

Lemma digits2_size p : digits2_pos p = Pos.size p.
Proof. induction p; simpl; congruence. Qed.

Lemma digits_log2 m : 0 < m -> Zdigits2 m = Z.log2 m + 1.
Proof.
  destruct m as [|p|p]; try lia. intros _. cbn [Zdigits2].
  rewrite digits2_size. destruct p; simpl; lia.
Qed.

Lemma digits_nonneg m : 0 <= m -> 0 <= Zdigits2 m.
Proof. destruct m; simpl; lia. Qed.

Lemma digits_bounds m :
  0 < m -> 2 ^ (Zdigits2 m - 1) <= m < 2 ^ Zdigits2 m.
Proof.
  intros H. rewrite (digits_log2 m H).
  replace (Z.log2 m + 1 - 1) with (Z.log2 m) by lia.
  exact (Z.log2_spec m H).
Qed.

Lemma digits_le m k : 0 <= m -> 0 <= k -> m < 2 ^ k -> Zdigits2 m <= k.
Proof.
  intros Hm Hk H. destruct (Z.eq_dec m 0) as [->|N]; [exact Hk|].
  rewrite digits_log2 by lia.
  apply Z.log2_lt_pow2 in H; lia.
Qed.

Lemma digits_ge m k : 0 <= k -> 2 ^ k <= m -> k + 1 <= Zdigits2 m.
Proof.
  intros Hk H. pose proof (Z.pow_pos_nonneg 2 k ltac:(lia) Hk).
  rewrite digits_log2 by lia.
  apply Z.log2_le_pow2 in H; lia.
Qed.

Lemma digits_mono a b : 0 <= a <= b -> Zdigits2 a <= Zdigits2 b.
Proof.
  intros [Ha Hab]. destruct (Z.eq_dec a 0) as [->|N].
  - apply digits_nonneg. lia.
  - rewrite !digits_log2 by lia.
    pose proof (Z.log2_le_mono a b Hab). lia.
Qed.

Lemma digits_div_pow2 m k :
  0 <= k -> 0 < m / 2 ^ k -> Zdigits2 (m / 2 ^ k) = Zdigits2 m - k.
Proof.
  intros Hk Hq.
  pose proof (Z.pow_pos_nonneg 2 k ltac:(lia) Hk) as Hp.
  assert (Hm : 0 < m).
  { destruct (Z.lt_ge_cases 0 m) as [L|L]; [exact L|].
    pose proof (Z.div_le_mono m 0 (2 ^ k) Hp L) as D.
    rewrite Z.div_0_l in D by lia. lia. }
  rewrite !digits_log2 by assumption.
  rewrite <- Z.shiftr_div_pow2 by exact Hk.
  rewrite Z.log2_shiftr by exact Hm.
  rewrite <- Z.shiftr_div_pow2 in Hq by exact Hk.
  assert (k <= Z.log2 m); [|lia].
  destruct (Z.le_gt_cases k (Z.log2 m)) as [L|L]; [exact L|].
  rewrite Z.shiftr_eq_0 in Hq; lia.
Qed.

Lemma digits_mul_pow2 m k :
  0 < m -> 0 <= k -> Zdigits2 (m * 2 ^ k) = Zdigits2 m + k.
Proof.
  intros Hm Hk.
  pose proof (Z.pow_pos_nonneg 2 k ltac:(lia) Hk) as Hp.
  rewrite !digits_log2 by nia.
  rewrite Z.log2_mul_pow2 by assumption. lia.
Qed.

(** *** The exponent of the format *)

Lemma fexp_mono a b : a <= b -> fexp prec emax a <= fexp prec emax b.
Proof. unfold fexp. lia. Qed.

Lemma fexp_ge_emin a : emin prec emax <= fexp prec emax a.
Proof. unfold fexp. lia. Qed.

Lemma fexp_eq a : fexp prec emax a = Z.max (a - 53) (-1074).
Proof. reflexivity. Qed.

(** *** Shifting to the right *)

Lemma shr_1_m mrs : 0 <= shr_m mrs -> shr_m (shr_1 mrs) = shr_m mrs / 2.
Proof.
  destruct mrs as [m r s]. cbn [shr_m]. intros H.
  rewrite <- Z.div2_div.
  destruct m as [|[p|p|]|p]; try reflexivity. lia.
Qed.

Lemma iter_shr_1_m p mrs :
  0 <= shr_m mrs ->
  shr_m (iter_pos shr_1 p mrs) = shr_m mrs / 2 ^ Zpos p.
Proof.
  revert mrs. induction p as [p IH|p IH|]; intros mrs H; cbn [iter_pos].
  - assert (H1 : 0 <= shr_m (shr_1 mrs)).
    { rewrite shr_1_m by exact H. apply Z.div_pos; lia. }
    assert (H2 : 0 <= shr_m (iter_pos shr_1 p (shr_1 mrs))).
    { rewrite IH by exact H1. apply Z.div_pos; [exact H1|].
      apply Z.pow_pos_nonneg; lia. }
    rewrite IH by exact H2. rewrite IH by exact H1.
    rewrite shr_1_m by exact H.
    pose proof (Z.pow_pos_nonneg 2 (Zpos p) ltac:(lia) ltac:(lia)) as Hp.
    rewrite !Z.div_div by lia. f_equal.
    replace (Z.pos p~1) with (Z.succ (Z.pos p + Z.pos p)) by lia.
    rewrite Z.pow_succ_r by lia. rewrite Z.pow_add_r by lia. lia.
  - assert (H2 : 0 <= shr_m (iter_pos shr_1 p mrs)).
    { rewrite IH by exact H. apply Z.div_pos; [exact H|].
      apply Z.pow_pos_nonneg; lia. }
    rewrite IH by exact H2. rewrite IH by exact H.
    pose proof (Z.pow_pos_nonneg 2 (Zpos p) ltac:(lia) ltac:(lia)) as Hp.
    rewrite !Z.div_div by lia. f_equal.
    replace (Z.pos p~0) with (Z.pos p + Z.pos p) by lia.
    rewrite Z.pow_add_r by lia. lia.
  - rewrite shr_1_m by exact H. reflexivity.
Qed.

(** The first step of rounding: the mantissa is divided by the power of two
    that takes its exponent up to the one of the format. *)
Lemma shr_fexp_spec m e l :
  0 <= m ->
  let e' := Z.max e (fexp prec emax (Zdigits2 m + e)) in
  snd (shr_fexp prec emax m e l) = e'
  /\ shr_m (fst (shr_fexp prec emax m e l)) = m / 2 ^ (e' - e).
Proof.
  intros H e'. unfold shr_fexp, shr.
  assert (H0 : shr_m (shr_record_of_loc m l) = m)
    by (destruct l as [|[]]; reflexivity).
  subst e'.
  destruct (fexp prec emax (Zdigits2 m + e) - e) as [|p|p] eqn:E;
    cbn [fst snd].
  - replace (Z.max e (fexp prec emax (Zdigits2 m + e))) with e by lia.
    rewrite Z.sub_diag, H0. cbn. now rewrite Z.div_1_r.
  - replace (Z.max e (fexp prec emax (Zdigits2 m + e))) with (e + Zpos p)
      by lia.
    rewrite iter_shr_1_m by (rewrite H0; exact H).
    rewrite H0. split; [reflexivity|]. f_equal. f_equal. lia.
  - replace (Z.max e (fexp prec emax (Zdigits2 m + e))) with e by lia.
    rewrite Z.sub_diag, H0. cbn. now rewrite Z.div_1_r.
Qed.

Lemma round_nearest_even_range m l :
  m <= round_nearest_even m l <= m + 1.
Proof.
  destruct l as [|[]]; cbn [round_nearest_even]; try lia.
  destruct (Z.even m); lia.
Qed.

(** Rounding, step by step. *)
Lemma round_aux_spec s mx ex lx :
  0 <= mx ->
  exists m1 m2,
    let e1 := Z.max ex (fexp prec emax (Zdigits2 mx + ex)) in
    let e2 := Z.max e1 (fexp prec emax (Zdigits2 m1 + e1)) in
    mx / 2 ^ (e1 - ex) <= m1 <= mx / 2 ^ (e1 - ex) + 1
    /\ m2 = m1 / 2 ^ (e2 - e1)
    /\ 0 <= m2
    /\ binary_round_aux prec emax s mx ex lx
       = match m2 with
         | Z0 => S754_zero s
         | Zpos m => if e2 <=? emax - prec then S754_finite s m e2
                     else S754_infinity s
         | Zneg _ => S754_nan
         end.
Proof.
  intros H. unfold binary_round_aux.
  destruct (shr_fexp_spec mx ex lx H) as [E1 M1].
  destruct (shr_fexp prec emax mx ex lx) as [mrs1 e1]. cbn [fst snd] in E1, M1.
  set (m1 := round_nearest_even (shr_m mrs1) (loc_of_shr_record mrs1)).
  pose proof (round_nearest_even_range (shr_m mrs1) (loc_of_shr_record mrs1))
    as R. fold m1 in R.
  assert (H0 : 0 <= shr_m mrs1).
  { rewrite M1. apply Z.div_pos; [exact H|]. apply Z.pow_pos_nonneg; lia. }
  assert (H1 : 0 <= m1) by lia.
  destruct (shr_fexp_spec m1 e1 loc_Exact H1) as [E2 M2].
  destruct (shr_fexp prec emax m1 e1 loc_Exact) as [mrs2 e2].
  cbn [fst snd] in E2, M2.
  rewrite <- E1 in M1. rewrite <- E2 in M2.
  exists m1, (shr_m mrs2). cbv zeta. rewrite <- E1.
  split; [rewrite <- M1; exact R|].
  rewrite <- E2. split; [exact M2|]. split.
  - rewrite M2. apply Z.div_pos; [exact H1|]. apply Z.pow_pos_nonneg; lia.
  - reflexivity.
Qed.


(** Rounding changes the mantissa, at the exponent of the result, by one
    unit at most, and the exponent of the result is bounded by the size of
    the number. *)
Lemma round_aux_coarse s mx ex lx K B :
  0 <= mx -> ex <= K -> mx < 2 ^ (K - ex) ->
  ex <= B -> K - 52 <= B -> -1074 <= B -> B <= K -> B <= 971 ->
  exists m2 e2,
    0 <= m2 /\ ex <= e2 <= B
    /\ Z.abs (m2 * 2 ^ (e2 - ex) - mx) <= 2 ^ (e2 - ex)
    /\ binary_round_aux prec emax s mx ex lx
       = match m2 with
         | Z0 => S754_zero s
         | Zpos m => S754_finite s m e2
         | Zneg _ => S754_nan
         end.
Proof.
  intros Hm HK Hlt HB1 HB2 HB3 HB4 HB5.
  destruct (round_aux_spec s mx ex lx Hm) as (m1 & m2 & R & M2 & P2 & E).
  cbv zeta in R, M2, E.
  set (e1 := Z.max ex (fexp prec emax (Zdigits2 mx + ex))) in *.
  set (e2 := Z.max e1 (fexp prec emax (Zdigits2 m1 + e1))) in *.
  pose proof (digits_le mx (K - ex) Hm ltac:(lia) Hlt) as D.
  assert (L1 : ex <= e1 <= B).
  { subst e1. rewrite fexp_eq. lia. }
  pose proof (Z.pow_pos_nonneg 2 (e1 - ex) ltac:(lia) ltac:(lia)) as Q1.
  pose proof (Z.mul_div_le mx _ Q1) as A1.
  pose proof (Z.mul_succ_div_gt mx _ Q1) as A2.
  set (m0 := mx / 2 ^ (e1 - ex)) in *.
  assert (M0 : 0 <= m0) by (apply Z.div_pos; lia).
  assert (B0 : m0 < 2 ^ (K - e1)).
  { apply Z.div_lt_upper_bound; [exact Q1|].
    rewrite <- Z.pow_add_r by lia.
    replace (e1 - ex + (K - e1)) with (K - ex) by lia. exact Hlt. }
  assert (D1 : Zdigits2 m1 <= K - e1 + 1).
  { apply digits_le; [lia | lia|].
    rewrite Z.pow_add_r by lia. change (2 ^ 1) with 2. lia. }
  assert (L2 : e1 <= e2 <= B).
  { subst e2. rewrite fexp_eq. lia. }
  pose proof (Z.pow_pos_nonneg 2 (e2 - e1) ltac:(lia) ltac:(lia)) as Q2.
  pose proof (Z.mul_div_le m1 _ Q2) as A3.
  pose proof (Z.mul_succ_div_gt m1 _ Q2) as A4.
  rewrite <- M2 in A3, A4.
  exists m2, e2. split; [exact P2|]. split; [lia|]. split.
  - replace (e2 - ex) with ((e1 - ex) + (e2 - e1)) by lia.
    rewrite Z.pow_add_r by lia.
    set (p1 := 2 ^ (e1 - ex)) in *. set (p2 := 2 ^ (e2 - e1)) in *.
    nia.
  - rewrite E. destruct m2; try reflexivity.
    destruct (Z.leb_spec e2 (emax - prec)) as [L|L]; [reflexivity|].
    unfold emax, prec in L. lia.
Qed.

(** Rounding a mantissa that is not too short for its exponent gives a
    number whose mantissa is not too short either. *)
Lemma round_aux_scaled s mx ex lx :
  0 <= mx -> ex <= fexp prec emax (Zdigits2 mx + ex) ->
  well_scaled (binary_round_aux prec emax s mx ex lx).
Proof.
  intros Hm Hp.
  destruct (round_aux_spec s mx ex lx Hm) as (m1 & m2 & R & M2 & P2 & E).
  cbv zeta in R, M2, E.
  set (e1 := Z.max ex (fexp prec emax (Zdigits2 mx + ex))) in *.
  set (e2 := Z.max e1 (fexp prec emax (Zdigits2 m1 + e1))) in *.
  rewrite E. destruct m2 as [|m|m]; try exact I.
  assert (L1 : e1 = fexp prec emax (Zdigits2 mx + ex)) by (subst e1; lia).
  assert (X1 : ex <= e1) by (subst e1; lia).
  pose proof (Z.pow_pos_nonneg 2 (e1 - ex) ltac:(lia) ltac:(lia)) as Q1.
  pose proof (Z.mul_succ_div_gt mx _ Q1) as A2.
  set (m0 := mx / 2 ^ (e1 - ex)) in *.
  assert (M0 : 0 <= m0) by (apply Z.div_pos; lia).
  assert (X2 : e1 <= e2) by (subst e2; lia).
  pose proof (Z.pow_pos_nonneg 2 (e2 - e1) ltac:(lia) ltac:(lia)) as Q2.
  assert (M1 : 0 < m1).
  { destruct (Z.lt_ge_cases 0 m1) as [L|L]; [exact L|].
    assert (m1 = 0) by lia. subst m1. rewrite Z.div_0_l in M2 by lia.
    discriminate. }
  assert (A : e1 <= fexp prec emax (Zdigits2 m1 + e1)).
  { destruct (Z.eq_dec m0 0) as [Z0|NZ].
    - assert (Dm : Zdigits2 mx <= e1 - ex)
        by (apply digits_le; [lia | lia | lia]).
      rewrite fexp_eq in L1. rewrite fexp_eq. lia.
    - assert (Dm : Zdigits2 m0 = Zdigits2 mx - (e1 - ex))
        by (apply digits_div_pow2; lia).
      pose proof (digits_mono m0 m1 ltac:(lia)) as Dmono.
      rewrite L1 at 1. apply fexp_mono. lia. }
  assert (L2 : e2 = fexp prec emax (Zdigits2 m1 + e1)) by (subst e2; lia).
  assert (D2 : Zdigits2 (Z.pos m) = Zdigits2 m1 - (e2 - e1)).
  { rewrite M2. apply digits_div_pow2; [lia|]. rewrite <- M2. lia. }
  assert (W : e2 <= fexp prec emax (Zdigits2 (Z.pos m) + e2)).
  { rewrite D2. replace (Zdigits2 m1 - (e2 - e1) + e2) with (Zdigits2 m1 + e1)
      by lia. lia. }
  destruct (e2 <=? emax - prec); [exact W | exact I].
Qed.

(** *** Aligning mantissas *)

Lemma iter_xO m d : Zpos (Pos.iter xO m d) = Zpos m * 2 ^ Zpos d.
Proof.
  induction d as [|d IH] using Pos.peano_ind.
  - cbn [Pos.iter]. rewrite Pos2Z.inj_xO. change (2 ^ 1) with 2. lia.
  - rewrite Pos.iter_succ, Pos2Z.inj_xO, IH, Pos2Z.inj_succ.
    rewrite Z.pow_succ_r by lia. lia.
Qed.

Lemma shl_align_spec mx ex e' :
  snd (shl_align mx ex e') = Z.min ex e'
  /\ Zpos (fst (shl_align mx ex e'))
     = Zpos mx * 2 ^ (ex - Z.min ex e').
Proof.
  unfold shl_align. destruct (e' - ex) as [|d|d] eqn:E; cbn [fst snd].
  - replace (Z.min ex e') with ex by lia. rewrite Z.sub_diag.
    change (2 ^ 0) with 1. lia.
  - replace (Z.min ex e') with ex by lia. rewrite Z.sub_diag.
    change (2 ^ 0) with 1. lia.
  - replace (Z.min ex e') with e' by lia. rewrite iter_xO.
    split; [reflexivity|]. f_equal. f_equal. lia.
Qed.

Lemma binary_round_scaled s m e : well_scaled (binary_round prec emax s m e).
Proof.
  unfold binary_round.
  pose proof (shl_align_spec m e (fexp prec emax (Z.pos (digits2_pos m) + e)))
    as [E M].
  destruct (shl_align m e _) as [mz ez]. cbn [fst snd] in E, M.
  apply round_aux_scaled; [lia|].
  rewrite M, digits_mul_pow2 by lia.
  change (Zdigits2 (Z.pos m)) with (Z.pos (digits2_pos m)).
  replace (Z.pos (digits2_pos m) + (e - Z.min e (fexp prec emax (Z.pos (digits2_pos m) + e))) + ez)
    with (Z.pos (digits2_pos m) + e) by lia.
  lia.
Qed.

Lemma binary_normalize_scaled m e z :
  well_scaled (binary_normalize prec emax m e z).
Proof. destruct m; [exact I | apply binary_round_scaled ..]. Qed.

Lemma add_scaled x y :
  well_scaled x -> well_scaled y -> well_scaled (add x y).
Proof.
  intros Hx Hy. unfold add.
  destruct x as [[]|[]| |sx mx ex], y as [[]|[]| |sy my ey];
    try exact I; try exact Hx; try exact Hy.
  apply binary_normalize_scaled.
Qed.

(** *** Quotients *)

Lemma div_core_spec p q :
  0 < p -> 0 < q ->
  let e' := Z.min (fexp prec emax (Zdigits2 p - Zdigits2 q)) 0 in
  exists l,
    SFdiv_core_binary prec emax p 0 q 0 = (p * 2 ^ (- e') / q, e', l).
Proof.
  intros Hp Hq e'. unfold SFdiv_core_binary.
  rewrite !Z.add_0_r. change (0 - 0) with 0. fold e'.
  assert (He : e' <= 0) by (subst e'; lia).
  replace (0 - e') with (- e') by lia.
  assert (M : match - e' with
              | Z0 => p
              | Zpos _ => Z.shiftl p (- e')
              | Zneg _ => 0
              end = p * 2 ^ (- e')).
  { destruct (- e') as [|s|s] eqn:S.
    - change (2 ^ 0) with 1. lia.
    - rewrite Z.shiftl_mul_pow2 by lia. reflexivity.
    - lia. }
  rewrite M. unfold Z.div.
  destruct (Z.div_eucl (p * 2 ^ (- e')) q) as [quo r].
  eexists. reflexivity.
Qed.

Lemma of_ratio_scaled s p q : 0 <= p -> 0 < q -> well_scaled (of_ratio s p q).
Proof.
  intros Hp Hq. unfold of_ratio.
  destruct p as [|p'|p']; [exact I| |lia].
  destruct (div_core_spec (Z.pos p') q ltac:(lia) Hq) as [l E].
  cbv zeta in E. rewrite E. clear E.
  set (p := Z.pos p') in *.
  assert (N : 0 < p) by (subst p; lia).
  set (e' := Z.min (fexp prec emax (Zdigits2 p - Zdigits2 q)) 0) in *.
  assert (He : e' <= 0) by (subst e'; lia).
  pose proof (Z.pow_pos_nonneg 2 (- e') ltac:(lia) ltac:(lia)) as Ps.
  set (quo := p * 2 ^ (- e') / q).
  assert (Hquo : 0 <= quo) by (apply Z.div_pos; nia).
  apply round_aux_scaled; [exact Hquo|].
  assert (D : Zdigits2 p - Zdigits2 q <= Zdigits2 quo + e').
  { pose proof (digits_nonneg quo Hquo) as Dq.
    destruct (Z.le_gt_cases (Zdigits2 p - e' - Zdigits2 q) 0) as [L|L];
      [lia|].
    pose proof (digits_bounds p ltac:(lia)) as [Bp _].
    pose proof (digits_bounds q Hq) as [_ Bq].
    pose proof (digits_nonneg q ltac:(lia)) as Dq2.
    assert (G : (Zdigits2 p - e' - Zdigits2 q - 1) + 1 <= Zdigits2 quo);
      [|lia].
    apply digits_ge; [lia|]. apply Z.div_le_lower_bound; [exact Hq|].
    pose proof (digits_ge p 0 ltac:(lia) ltac:(change (2 ^ 0) with 1; lia))
      as Dp1.
    remember (Zdigits2 p - e' - Zdigits2 q - 1) as k eqn:Ek.
    assert (Hk : 0 <= k) by lia.
    assert (Pk : 0 < 2 ^ k) by (apply Z.pow_pos_nonneg; lia).
    assert (E2 : 2 ^ Zdigits2 q * 2 ^ k = 2 ^ (Zdigits2 p - 1) * 2 ^ (- e')).
    { rewrite <- (Z.pow_add_r 2 (Zdigits2 q) k) by lia.
      rewrite <- (Z.pow_add_r 2 (Zdigits2 p - 1) (- e')) by lia.
      f_equal. lia. }
    nia. }
  pose proof (fexp_mono _ _ D). lia.
Qed.


(** *** Numbers [m * 2 ^ e] as rationals *)

Lemma pow2_pos e : (0 < pow2 e)%Q.
Proof. apply Qpower_0_lt. reflexivity. Qed.

Lemma pow2_add a b : (pow2 (a + b) == pow2 a * pow2 b)%Q.
Proof. apply Qpower_plus. discriminate. Qed.

Lemma pow2_le a b : a <= b -> (pow2 a <= pow2 b)%Q.
Proof. intros H. apply Qpower_le_compat_l; [exact H | discriminate]. Qed.

Lemma pow2_Z n : 0 <= n -> (inject_Z (2 ^ n) == pow2 n)%Q.
Proof. intros H. unfold pow2. now rewrite Zpower_Qpower. Qed.

Lemma F2Q_shift m e k : 0 <= k -> (F2Q (m * 2 ^ k) e == F2Q m (e + k))%Q.
Proof.
  intros H. unfold F2Q.
  rewrite inject_Z_mult, (pow2_Z k H), pow2_add. ring.
Qed.

Lemma F2Q_le m m' e : m <= m' -> (F2Q m e <= F2Q m' e)%Q.
Proof.
  intros H. unfold F2Q. apply Qmult_le_compat_r.
  - now rewrite <- Zle_Qle.
  - apply Qlt_le_weak, pow2_pos.
Qed.

Lemma F2Q_sub a b e : (F2Q (a - b) e == F2Q a e - F2Q b e)%Q.
Proof.
  unfold F2Q. unfold Z.sub. rewrite inject_Z_plus, inject_Z_opp. ring.
Qed.

Lemma F2Q_opp a e : (F2Q (- a) e == - F2Q a e)%Q.
Proof. unfold F2Q. rewrite inject_Z_opp. ring. Qed.

Lemma F2Q_one e : (F2Q 1 e == pow2 e)%Q.
Proof. unfold F2Q. ring. Qed.

Lemma F2Q_zero e : (F2Q 0 e == 0)%Q.
Proof. unfold F2Q. ring. Qed.

Lemma F2Q_abs m n e : Z.abs m <= n -> (Qabs (F2Q m e) <= F2Q n e)%Q.
Proof.
  intros H. apply Qabs_Qle_condition. split.
  - rewrite <- F2Q_opp. apply F2Q_le. lia.
  - apply F2Q_le. lia.
Qed.

(** Two numbers whose mantissas, at the lower exponent, differ by one unit
    of the higher exponent at most. *)
Lemma F2Q_near m2 e2 mx ex :
  ex <= e2 -> Z.abs (m2 * 2 ^ (e2 - ex) - mx) <= 2 ^ (e2 - ex) ->
  (Qabs (F2Q m2 e2 - F2Q mx ex) <= pow2 e2)%Q.
Proof.
  intros He H.
  assert (E : (F2Q m2 e2 == F2Q (m2 * 2 ^ (e2 - ex)) ex)%Q).
  { rewrite F2Q_shift by lia. replace (ex + (e2 - ex)) with e2 by lia.
    reflexivity. }
  rewrite E, <- F2Q_sub.
  eapply Qle_trans; [apply F2Q_abs; exact H|].
  assert (E1 : (F2Q (2 ^ (e2 - ex)) ex == pow2 e2)%Q).
  { replace (2 ^ (e2 - ex)) with (1 * 2 ^ (e2 - ex)) by lia.
    rewrite F2Q_shift by lia. replace (ex + (e2 - ex)) with e2 by lia.
    apply F2Q_one. }
  rewrite E1. apply Qle_refl.
Qed.

Lemma F2Q_lt_pow m e K :
  0 < m -> (F2Q m e < pow2 K)%Q -> e < K /\ m < 2 ^ (K - e).
Proof.
  intros Hm H.
  assert (He : e < K).
  { destruct (Z.lt_ge_cases e K) as [L|L]; [exact L|]. exfalso.
    pose proof (pow2_le K e L) as P.
    pose proof (F2Q_le 1 m e ltac:(lia)) as Q1. rewrite F2Q_one in Q1.
    lra. }
  split; [exact He|].
  destruct (Z.lt_ge_cases m (2 ^ (K - e))) as [L|L]; [exact L|]. exfalso.
  pose proof (F2Q_le _ _ e L) as Q1.
  replace (2 ^ (K - e)) with (1 * 2 ^ (K - e)) in Q1 by lia.
  rewrite F2Q_shift in Q1 by lia.
  replace (e + (K - e)) with K in Q1 by lia.
  rewrite F2Q_one in Q1. lra.
Qed.

(** *** The value of a float *)

Lemma value_finite s m e :
  value (S754_finite s m e)
  = Some (if s then - F2Q (Z.pos m) e else F2Q (Z.pos m) e)%Q.
Proof. reflexivity. Qed.

Lemma value_rounded s m2 e2 :
  0 <= m2 ->
  exists v, value (rounded s m2 e2) = Some v
            /\ (v == if s then - F2Q m2 e2 else F2Q m2 e2)%Q.
Proof.
  intros H. destruct m2 as [|m|m]; [| |lia]; cbn [rounded].
  - exists 0%Q. split; [reflexivity|].
    destruct s; rewrite F2Q_zero; reflexivity.
  - eexists. split; [apply value_finite | reflexivity].
Qed.

(** A float whose mantissa is not too short for its exponent, and that is
    less than [2 ^ K], has an exponent of [K - 53] at most. *)
Lemma scaled_exponent s m e K :
  well_scaled (S754_finite s m e) -> -1021 <= K ->
  (F2Q (Z.pos m) e < pow2 K)%Q -> e <= K - 53.
Proof.
  cbn [well_scaled]. intros W HK H.
  destruct (F2Q_lt_pow (Z.pos m) e K ltac:(lia) H) as [He Hm].
  pose proof (digits_le (Z.pos m) (K - e) ltac:(lia) ltac:(lia) Hm) as D.
  rewrite fexp_eq in W. lia.
Qed.


(** *** The error of one rounding *)

(** Rounding a number [X] that lies between [mx * 2 ^ ex] and
    [(mx + 1) * 2 ^ ex] and is less than [2 ^ K]: the result is a number,
    and it is within [2 * 2 ^ B] of [X], where [B] bounds the exponent. *)
Lemma round_aux_error s mx ex lx K B (X : Q) :
  0 <= mx -> (F2Q mx ex <= X)%Q -> (X <= F2Q (mx + 1) ex)%Q ->
  (X < pow2 K)%Q ->
  ex <= B -> K - 52 <= B -> -1074 <= B -> B <= K -> B <= 971 ->
  exists a v,
    value (binary_round_aux prec emax s mx ex lx) = Some v
    /\ (v == if s then - a else a)%Q
    /\ (Qabs (a - X) <= pow2 B + pow2 B)%Q.
Proof.
  intros Hm L U HX B1 B2 B3 B4 B5.
  assert (Hlt : mx < 2 ^ (K - ex)).
  { destruct (Z.eq_dec mx 0) as [->|N].
    - apply Z.pow_pos_nonneg; lia.
    - apply (F2Q_lt_pow mx ex K); [lia|]. lra. }
  destruct (round_aux_coarse s mx ex lx K B Hm ltac:(lia) Hlt B1 B2 B3 B4 B5)
    as (m2 & e2 & P2 & E2 & A & R).
  fold (rounded s m2 e2) in R. rewrite R.
  destruct (value_rounded s m2 e2 P2) as (v & V & Ev).
  exists (F2Q m2 e2), v. split; [exact V|]. split; [exact Ev|].
  pose proof (F2Q_near m2 e2 mx ex ltac:(lia) A) as N1.
  pose proof (pow2_le e2 B ltac:(lia)) as P1.
  pose proof (pow2_le ex B B1) as P0.
  assert (S1 : (F2Q (mx + 1) ex == F2Q mx ex + pow2 ex)%Q).
  { unfold F2Q. rewrite inject_Z_plus. ring. }
  apply Qabs_Qle_condition in N1. apply Qabs_Qle_condition.
  split; lra.
Qed.

Lemma binary_round_error s m e K B :
  (F2Q (Z.pos m) e < pow2 K)%Q ->
  e <= B -> K - 52 <= B -> -1074 <= B -> B <= K -> B <= 971 ->
  exists a v,
    value (binary_round prec emax s m e) = Some v
    /\ (v == if s then - a else a)%Q
    /\ (Qabs (a - F2Q (Z.pos m) e) <= pow2 B + pow2 B)%Q.
Proof.
  intros HX B1 B2 B3 B4 B5. unfold binary_round.
  pose proof (shl_align_spec m e (fexp prec emax (Z.pos (digits2_pos m) + e)))
    as [E M].
  destruct (shl_align m e _) as [mz ez]. cbn [fst snd] in E, M.
  assert (Ev : (F2Q (Z.pos mz) ez == F2Q (Z.pos m) e)%Q).
  { rewrite M, F2Q_shift by lia. replace (ez + (e - Z.min e _)) with e by lia.
    reflexivity. }
  apply (round_aux_error s (Z.pos mz) ez loc_Exact K B); try lia.
  - rewrite Ev. apply Qle_refl.
  - rewrite <- Ev. apply F2Q_le. lia.
  - exact HX.
Qed.

(** *** The error of a subtraction *)

Lemma value_some_cases x v :
  value x = Some v ->
  (exists s, x = S754_zero s /\ v = 0%Q)
  \/ (exists s m e, x = S754_finite s m e
                    /\ v = (if s then - F2Q (Z.pos m) e else F2Q (Z.pos m) e)%Q).
Proof.
  destruct x as [s|s| |s m e]; try discriminate.
  - intros H. inversion H. left. now exists s.
  - rewrite value_finite. intros H. inversion H. right. now exists s, m, e.
Qed.

Lemma F2Q_cond_Zopp s m e :
  (F2Q (cond_Zopp s m) e == if s then - F2Q m e else F2Q m e)%Q.
Proof. destruct s; cbn [cond_Zopp]; [apply F2Q_opp | reflexivity]. Qed.

Lemma sub_error x y vx vy :
  value x = Some vx -> value y = Some vy -> well_scaled x ->
  (Qabs vx < pow2 40)%Q -> (Qabs vy < pow2 40)%Q ->
  exists vd,
    value (sub x y) = Some vd
    /\ (Qabs (vd - (vx - vy)) <= pow2 (-10))%Q.
Proof.
  intros Vx Vy W Bx By.
  assert (P10 : (0 < pow2 (-10))%Q) by apply pow2_pos.
  assert (Zero : forall q : Q, (q == vx - vy)%Q ->
                               (Qabs (q - (vx - vy)) <= pow2 (-10))%Q).
  { intros q E. apply Qabs_Qle_condition. split; lra. }
  destruct (value_some_cases x vx Vx) as [(sx & -> & ->)|(sx & mx & ex & -> & Ex)];
    destruct (value_some_cases y vy Vy) as [(sy & -> & ->)|(sy & my & ey & -> & Ey)].
  - exists 0%Q. split; [destruct sx, sy; reflexivity | apply Zero; ring].
  - eexists. split; [unfold sub; cbn [SFsub]; apply value_finite|].
    apply Zero. subst vy. destruct sy; cbn [negb]; ring.
  - exists vx. split; [unfold sub; cbn [SFsub]; rewrite value_finite; now subst|].
    apply Zero. ring.
  - assert (Hex : ex <= -13).
    { apply (scaled_exponent sx mx ex 40 W); [lia|].
      subst vx. destruct sx; [rewrite Qabs_opp in Bx|];
        rewrite Qabs_pos in Bx
          by (unfold F2Q; apply Qmult_le_0_compat;
              [now rewrite <- (Zle_Qle 0) | apply Qlt_le_weak, pow2_pos]);
        exact Bx. }
    unfold sub. cbn [SFsub].
    set (ez := Z.min ex ey).
    destruct (shl_align_spec mx ex ez) as [_ Mx].
    destruct (shl_align_spec my ey ez) as [_ My].
    replace (Z.min ex ez) with ez in Mx by lia.
    replace (Z.min ey ez) with ez in My by lia.
    rewrite Mx, My.
    set (M := cond_Zopp sx (Z.pos mx * 2 ^ (ex - ez))
              - cond_Zopp sy (Z.pos my * 2 ^ (ey - ez))).
    assert (EM : (F2Q M ez == vx - vy)%Q).
    { assert (Sx : (F2Q (Z.pos mx * 2 ^ (ex - ez)) ez == F2Q (Z.pos mx) ex)%Q).
      { rewrite F2Q_shift by lia. replace (ez + (ex - ez)) with ex by lia.
        reflexivity. }
      assert (Sy : (F2Q (Z.pos my * 2 ^ (ey - ez)) ez == F2Q (Z.pos my) ey)%Q).
      { rewrite F2Q_shift by lia. replace (ez + (ey - ez)) with ey by lia.
        reflexivity. }
      subst M. rewrite F2Q_sub, !F2Q_cond_Zopp.
      subst vx vy. destruct sx, sy; rewrite Sx, Sy; reflexivity. }
    assert (BM : (Qabs (F2Q M ez) < pow2 41)%Q).
    { rewrite EM. apply Qabs_Qlt_condition.
      apply Qabs_Qlt_condition in Bx, By.
      assert (E41 : (pow2 41 == pow2 40 + pow2 40)%Q) by reflexivity.
      split; lra. }
    destruct M as [|m|m] eqn:HM; cbn [binary_normalize].
    + exists 0%Q. split; [reflexivity|]. apply Zero.
      rewrite <- EM. apply (Qeq_sym _ _ (F2Q_zero ez)).
    + assert (BM' : (F2Q (Z.pos m) ez < pow2 41)%Q).
      { apply Qabs_Qlt_condition in BM. lra. }
      destruct (binary_round_error false m ez 41 (-11) BM')
        as (a & v & Va & Ea & Aa); try lia.
      exists v. split; [exact Va|]. cbv iota in Ea.
      assert (E10 : (pow2 (-10) == pow2 (-11) + pow2 (-11))%Q) by reflexivity.
      apply Qabs_Qle_condition in Aa. apply Qabs_Qle_condition.
      split; lra.
    + assert (BM' : (F2Q (Z.pos m) ez < pow2 41)%Q).
      { apply Qabs_Qlt_condition in BM.
        change (Z.neg m) with (- Z.pos m) in BM. rewrite F2Q_opp in BM. lra. }
      destruct (binary_round_error true m ez 41 (-11) BM')
        as (a & v & Va & Ea & Aa); try lia.
      exists v. split; [exact Va|]. cbv iota in Ea.
      change (Z.neg m) with (- Z.pos m) in EM. rewrite F2Q_opp in EM.
      assert (E10 : (pow2 (-10) == pow2 (-11) + pow2 (-11))%Q) by reflexivity.
      apply Qabs_Qle_condition in Aa. apply Qabs_Qle_condition.
      split; lra.
Qed.


(** *** The error of [round(x, 2)] *)

(** The binary64 number for [n] hundredths. *)
Lemma of_ratio_error s n :
  0 < n < 100 * 2 ^ 41 ->
  exists a v,
    value (of_ratio s n 100) = Some v
    /\ (v == if s then - a else a)%Q
    /\ (Qabs (a - inject_Z n * (1 # 100)) <= pow2 (-10))%Q.
Proof.
  intros [Hn Hb]. unfold of_ratio.
  destruct n as [|n'|n']; try lia.
  destruct (div_core_spec (Z.pos n') 100 ltac:(lia) ltac:(lia)) as [l E].
  cbv zeta in E. rewrite E. clear E.
  set (n := Z.pos n') in *.
  set (e' := Z.min (fexp prec emax (Zdigits2 n - Zdigits2 100)) 0) in *.
  assert (Dn : Zdigits2 n <= 48).
  { apply digits_le; [lia | lia|]. change (2 ^ 48) with 281474976710656.
    change (2 ^ 41) with 2199023255552 in Hb. lia. }
  pose proof (digits_ge n 0 ltac:(lia) ltac:(change (2 ^ 0) with 1; lia)) as Dn1.
  assert (He : -1074 <= e' <= -12).
  { subst e'. change (Zdigits2 100) with 7. rewrite fexp_eq. lia. }
  pose proof (Z.pow_pos_nonneg 2 (- e') ltac:(lia) ltac:(lia)) as Ps.
  set (quo := n * 2 ^ (- e') / 100).
  assert (Hquo : 0 <= quo) by (apply Z.div_pos; nia).
  pose proof (Z.mul_div_le (n * 2 ^ (- e')) 100 ltac:(lia)) as A1.
  pose proof (Z.mul_succ_div_gt (n * 2 ^ (- e')) 100 ltac:(lia)) as A2.
  fold quo in A1, A2.
  assert (En : (F2Q (n * 2 ^ (- e')) e' == inject_Z n)%Q).
  { rewrite F2Q_shift by lia. replace (e' + - e') with 0 by lia.
    unfold F2Q. change (pow2 0) with 1%Q. ring. }
  assert (E100 : forall m, (F2Q (100 * m) e' == 100 * F2Q m e')%Q).
  { intros m. unfold F2Q. rewrite inject_Z_mult. ring. }
  pose proof (F2Q_le _ _ e' A1) as L1. rewrite En, E100 in L1.
  pose proof (F2Q_le _ _ e' (Z.lt_le_incl _ _ A2)) as L2.
  rewrite En, E100 in L2.
  set (X := (inject_Z n * (1 # 100))%Q).
  assert (HX : (X < pow2 41)%Q).
  { assert (I : (inject_Z n < inject_Z (100 * 2 ^ 41))%Q)
      by (now rewrite <- Zlt_Qlt).
    change (inject_Z (100 * 2 ^ 41)) with (219902325555200 # 1)%Q in I.
    assert (E41 : (pow2 41 == 2199023255552 # 1)%Q) by reflexivity.
    subst X. lra. }
  destruct (round_aux_error s quo e' l 41 (-11) X Hquo) as (a & v & V & Ev & A);
    try lia.
  - subst X. lra.
  - subst X. replace (quo + 1) with (Z.succ quo) by lia. lra.
  - exact HX.
  - exists a, v. split; [exact V|]. split; [exact Ev|].
    assert (E10 : (pow2 (-10) == pow2 (-11) + pow2 (-11))%Q) by reflexivity.
    rewrite E10. exact A.
Qed.

Lemma round_half_even_nonneg num den :
  0 <= num -> 0 < den -> 0 <= round_half_even num den.
Proof.
  intros Hn Hd. unfold round_half_even.
  pose proof (Z.div_pos num den Hn Hd) as Q0.
  destruct (2 * (num mod den) ?= den); [destruct (Z.even _)| |]; lia.
Qed.

(** The number of hundredths that [round] takes for a positive float. *)
Lemma hundredths_near m e :
  let n := match e with
           | Zneg _ => round_half_even (Z.pos m * 100) (2 ^ (- e))
           | _ => Z.pos m * 2 ^ e * 100
           end in
  0 <= n
  /\ (Qabs (inject_Z n - 100 * F2Q (Z.pos m) e) <= 1 # 2)%Q.
Proof.
  assert (Exact : forall n, 0 <= e -> n = Z.pos m * 2 ^ e * 100 ->
            0 <= n
            /\ (Qabs (inject_Z n - 100 * F2Q (Z.pos m) e) <= 1 # 2)%Q).
  { intros n He ->. pose proof (Z.pow_pos_nonneg 2 e ltac:(lia) He).
    split; [nia|].
    assert (E : (inject_Z (Z.pos m * 2 ^ e * 100) == 100 * F2Q (Z.pos m) e)%Q).
    { unfold F2Q. rewrite !inject_Z_mult, (pow2_Z e He). ring. }
    apply Qabs_Qle_condition. split; lra. }
  destruct e as [|k|k]; cbv zeta.
  - apply Exact; [lia | reflexivity].
  - apply Exact; [lia | reflexivity].
  - change (- Z.neg k) with (Z.pos k).
    pose proof (Z.pow_pos_nonneg 2 (Z.pos k) ltac:(lia) ltac:(lia)) as Pk.
    destruct (RoundFacts.round_half_even_nearest (Z.pos m * 100) _ Pk)
      as [N _].
    set (n := round_half_even (Z.pos m * 100) (2 ^ Z.pos k)) in *.
    split; [apply round_half_even_nonneg; lia|].
    assert (En : (inject_Z n == F2Q (n * 2 ^ Z.pos k) (Z.neg k))%Q).
    { rewrite F2Q_shift by lia.
      replace (Z.neg k + Z.pos k) with 0 by lia.
      unfold F2Q. change (pow2 0) with 1%Q. ring. }
    assert (Em : (100 * F2Q (Z.pos m) (Z.neg k)
                  == F2Q (Z.pos m * 100) (Z.neg k))%Q).
    { unfold F2Q. rewrite inject_Z_mult. ring. }
    assert (Ed : (F2Q (2 ^ Z.pos k) (Z.neg k) == 1)%Q).
    { replace (2 ^ Z.pos k) with (1 * 2 ^ Z.pos k) by lia.
      rewrite F2Q_shift by lia.
      replace (Z.neg k + Z.pos k) with 0 by lia. reflexivity. }
    rewrite En, Em, <- F2Q_sub.
    assert (T : (2 * Qabs (F2Q (n * 2 ^ Z.pos k - Z.pos m * 100) (Z.neg k))
                 <= 1)%Q).
    { rewrite <- Ed.
      assert (E2 : forall z, (2 * F2Q z (Z.neg k) == F2Q (2 * z) (Z.neg k))%Q).
      { intros z. unfold F2Q. rewrite inject_Z_mult. ring. }
      pose proof (F2Q_abs (2 * (n * 2 ^ Z.pos k - Z.pos m * 100))
                    (2 ^ Z.pos k) (Z.neg k)) as Ab.
      rewrite <- E2 in Ab. rewrite Qabs_Qmult in Ab.
      change (Qabs 2) with 2%Q in Ab. apply Ab.
      rewrite Z.abs_mul. change (Z.abs 2) with 2.
      rewrite <- Z.abs_opp.
      replace (- (n * 2 ^ Z.pos k - Z.pos m * 100))
        with (Z.pos m * 100 - n * 2 ^ Z.pos k) by lia.
      exact N. }
    lra.
Qed.

Lemma round2_error d vd :
  value d = Some vd -> (Qabs vd <= 2000000000001 # 1)%Q ->
  exists vo,
    value (py_round d 2) = Some vo
    /\ (Qabs (vo - vd) <= (5 # 1000) + pow2 (-10))%Q.
Proof.
  intros V Bd.
  assert (P10 : (0 < pow2 (-10))%Q) by apply pow2_pos.
  destruct (value_some_cases d vd V) as [(s & -> & ->)|(s & m & e & -> & E)].
  - exists 0%Q. split; [reflexivity|].
    apply Qabs_Qle_condition. split; lra.
  - unfold py_round. change (323 <? 2) with false. cbv iota.
    change (10 ^ 2) with 100.
    destruct (hundredths_near m e) as [Hn Near]. cbv zeta in Hn, Near.
    set (n := match e with
              | Z.neg _ => round_half_even (Z.pos m * 100) (2 ^ (- e))
              | _ => Z.pos m * 2 ^ e * 100
              end) in *.
    set (a := F2Q (Z.pos m) e) in *.
    assert (Pa : (0 <= a)%Q).
    { subst a. unfold F2Q. apply Qmult_le_0_compat;
        [now rewrite <- (Zle_Qle 0) | apply Qlt_le_weak, pow2_pos]. }
    assert (Ba : (a <= 2000000000001 # 1)%Q).
    { subst vd. destruct s; [rewrite Qabs_opp in Bd|];
        rewrite (Qabs_pos a Pa) in Bd; exact Bd. }
    apply Qabs_Qle_condition in Near.
    destruct (Z.eq_dec n 0) as [Z0|NZ].
    + rewrite Z0 in *. exists 0%Q. split; [reflexivity|].
      change (inject_Z 0) with 0%Q in Near.
      subst vd. apply Qabs_Qle_condition. destruct s; split; lra.
    + assert (Bn : n < 100 * 2 ^ 41).
      { change (100 * 2 ^ 41) with 219902325555200.
        rewrite Zlt_Qlt.
        change (inject_Z 219902325555200) with (219902325555200 # 1)%Q. lra. }
      destruct (of_ratio_error s n ltac:(lia)) as (ao & v & Vo & Ev & Ao).
      exists v. split; [exact Vo|].
      apply Qabs_Qle_condition in Ao. subst vd.
      apply Qabs_Qle_condition. destruct s; split; lra.
Qed.

(** *** Floats that are read or added are not too short *)

Lemma digits_prefix_nonneg s :
  Forall (fun d => 0 <= d) (fst (digits_prefix s)).
Proof.
  induction s as [|c r IH]; cbn [digits_prefix]; [constructor|].
  unfold digit_val. destruct (is_digit c) eqn:Hc; [|constructor].
  destruct (digits_prefix r) as [ds rest]. cbn [fst] in *.
  constructor; [|exact IH]. unfold is_digit in Hc.
  apply andb_true_iff in Hc as [Hc _]. apply Z.leb_le in Hc. lia.
Qed.

Lemma Z_of_digits_nonneg ds :
  Forall (fun d => 0 <= d) ds -> 0 <= Z_of_digits ds.
Proof.
  unfold Z_of_digits. intros H.
  assert (G : forall acc, 0 <= acc ->
                0 <= fold_left (fun a d => 10 * a + d) ds acc).
  { induction H as [|d ds Hd _ IH]; intros acc Hacc; cbn [fold_left];
      [exact Hacc|].
    apply IH. lia. }
  apply G. lia.
Qed.

Lemma parse_decimal_nonneg u m e : parse_decimal u = Some (m, e) -> 0 <= m.
Proof.
  unfold parse_decimal.
  pose proof (digits_prefix_nonneg u) as F1.
  destruct (digits_prefix u) as [ip r1]. cbn [fst] in F1.
  assert (F2 : Forall (fun d => 0 <= d)
                 (fst (match r1 with
                       | String "." r => digits_prefix r
                       | _ => ([], r1)
                       end))).
  { destruct r1 as [|c r]; [constructor|].
    destruct c as [[] [] [] [] [] [] [] []];
      first [ apply digits_prefix_nonneg | constructor ]. }
  destruct (match r1 with
            | String "." r => digits_prefix r
            | _ => ([], r1)
            end) as [fp r2].
  cbn [fst] in F2.
  assert (F : Forall (fun d => 0 <= d) (ip ++ fp))
    by (apply Forall_app; now split).
  destruct (ip ++ fp)%list as [|d ds]; [discriminate|].
  pose proof (Z_of_digits_nonneg _ F) as Pm.
  destruct r2 as [|c r3].
  - intros H. inversion H. subst. exact Pm.
  - destruct (Ascii.eqb (lower c) "e"); [|discriminate].
    destruct (read_sign r3) as [eneg r4].
    destruct (digits_prefix r4) as [[|d' ed] [|? ?]]; try discriminate.
    intros H. inversion H. subst. exact Pm.
Qed.

Lemma of_decimal_scaled s m e : 0 <= m -> well_scaled (of_decimal s m e).
Proof.
  intros H. unfold of_decimal. destruct e as [|k|k].
  - apply of_ratio_scaled; lia.
  - apply of_ratio_scaled; [|lia].
    pose proof (Z.pow_pos_nonneg 10 (Z.pos k) ltac:(lia) ltac:(lia)). nia.
  - apply of_ratio_scaled; [exact H|].
    apply Z.pow_pos_nonneg; lia.
Qed.

Lemma py_float_scaled t x : py_float t = Some x -> well_scaled x.
Proof.
  unfold py_float.
  destruct (remove_underscores false (num_strip t)) as [t'|]; [|discriminate].
  destruct (read_sign t') as [neg u].
  destruct (parse_decimal u) as [[m e]|] eqn:P.
  - intros H. inversion H. subst.
    apply of_decimal_scaled. exact (parse_decimal_nonneg _ _ _ P).
  - destruct (_ || _); [intros H; inversion H; exact I|].
    destruct (String.eqb _ _); [intros H; inversion H; exact I | discriminate].
Qed.

Lemma amount_scaled t : well_scaled (amount_of_text t).
Proof.
  unfold amount_of_text. destruct (py_float t) as [x|] eqn:E; [|exact I].
  exact (py_float_scaled t x E).
Qed.

Lemma float_sum_scaled l : Forall well_scaled l -> well_scaled (float_sum l).
Proof.
  unfold float_sum. intros H.
  assert (G : forall acc, well_scaled acc -> well_scaled (fold_left add l acc)).
  { induction H as [|x l Hx _ IH]; intros acc Hacc; cbn [fold_left];
      [exact Hacc|].
    apply IH. now apply add_scaled. }
  apply G. exact I.
Qed.

Lemma subtotal_scaled (f : form) its s :
  parse_line_items (to_dict f) = Some (its, s) -> well_scaled s.
Proof.
  intros H. rewrite ParserFacts.parse_form_spec in H.
  destruct (sortable (to_dict f)); [|discriminate].
  inversion H; subst. apply float_sum_scaled.
  apply Forall_forall. intros x Hx.
  apply in_map_iff in Hx as (it & <- & Hit).
  unfold spec_items in Hit. apply filter_In in Hit as [Hit _].
  apply in_map_iff in Hit as (i & <- & _).
  unfold item_at. cbn [amount].
  destruct (last_text _ i Amount); [apply amount_scaled | exact I].
Qed.

(** *** The rounding law *)

(** Subtotal minus tax, rounded to two decimals, is within 0.01 of the
    difference when subtotal and tax are below [10 ^ 12]. *)
Lemma total_near x y vx vy :
  value x = Some vx -> value y = Some vy -> well_scaled x ->
  (Qabs vx <= 1000000000000 # 1)%Q -> (Qabs vy <= 1000000000000 # 1)%Q ->
  exists vo,
    value (compute_total x y) = Some vo
    /\ (Qabs (vy + vo - vx) <= 1 # 100)%Q.
Proof.
  intros Vx Vy W Bx By.
  assert (E40 : (pow2 40 == 1099511627776 # 1)%Q) by reflexivity.
  assert (E10 : (pow2 (-10) == 1 # 1024)%Q) by reflexivity.
  destruct (sub_error x y vx vy Vx Vy W) as (vd & Vd & Ad).
  { rewrite E40. apply Qabs_Qlt_condition.
    apply Qabs_Qle_condition in Bx. split; lra. }
  { rewrite E40. apply Qabs_Qlt_condition.
    apply Qabs_Qle_condition in By. split; lra. }
  apply Qabs_Qle_condition in Ad, Bx, By.
  destruct (round2_error _ vd Vd) as (vo & Vo & Ao).
  { apply Qabs_Qle_condition. split; lra. }
  exists vo. split; [exact Vo|].
  apply Qabs_Qle_condition in Ao. apply Qabs_Qle_condition. split; lra.
Qed.

End ErrorFacts.

(** ** The model on the scenarios of the specification *)

Module Scenarios.

Import PyStr PyFloat Form Parser PyDate Invoice LineItemSpec Examples.

(** The integer 100 of line 259 as a float. *)
Example hundred_is_100 : py_float "100" = Some hundred.
Proof. reflexivity. Qed.

(** One valid item and one with an empty description, at the rate 3.00:
    the item (Rent, 500.00), subtotal 500.00, tax 15.00, total 485.00. *)
Example rent_scenario :
  generate_invoice demo_suppliers
    [("supplier_id", "1"); ("invoice_number", "2024/05");
     ("invoice_date", "2024-05-03"); ("tax_rate", "3.00");
     ("items[0][description]", "Rent"); ("items[0][amount]", "500");
     ("items[2][description]", EmptyString); ("items[2][amount]", "10")]
  = Some (Generated "LENGOLF_Acme___Co._Inv_2024_05.pdf"
            {| invoice_number := "2024/05";
               invoice_date := {| year := 2024; month := 5; day := 3 |};
               items := [{| description := "Rent";
                            amount := of_decimal false 500 0 |}];
               inv_subtotal := of_decimal false 500 0;
               tax_rate := of_decimal false 3 0;
               tax_amount := of_decimal false 15 0;
               total := of_decimal false 485 0 |}).
Proof. vm_compute. reflexivity. Qed.

(** Index 9 comes before index 10, whatever the order of the keys. *)
Example numeric_order :
  option_map (fun r => map description (fst r))
    (parse_line_items
       (to_dict [("items[10][description]", "ten"); ("items[10][amount]", "1");
                 ("items[9][description]", "nine"); ("items[9][amount]", "1")]))
  = Some ["nine"; "ten"].
Proof. vm_compute. reflexivity. Qed.

(** [float] and [int] on some texts. *)
Example float_texts :
  py_float "0.01" = Some (S754_finite false 5764607523034235 (-59))
  /\ py_float " 1_000.5e-1 " = Some (of_ratio false 10005 100)
  /\ py_float "-Infinity" = Some (S754_infinity true)
  /\ py_float "NaN" = Some S754_nan
  /\ py_float "1e400" = Some (S754_infinity false)
  /\ py_float "1e-400" = Some (S754_zero false)
  /\ py_float "1e" = None
  /\ py_float "abc" = None
  /\ py_int " 0012 " = Some 12
  /\ py_int "1_0" = Some 10
  /\ py_int "-1" = Some (-1)
  /\ py_int "x" = None.
Proof. repeat split. Qed.

(** [round] takes an exact half to the even hundredth, and takes the
    binary value of the float, not its decimal text. *)
Example round_texts :
  py_round (of_ratio false 125 1000) 2 = of_ratio false 12 100
  /\ py_round (of_ratio false 375 1000) 2 = of_ratio false 38 100
  /\ py_round (of_ratio false 2675 1000) 2 = of_ratio false 267 100.
Proof. repeat split. Qed.

(** [strptime] takes one-digit months and days, and knows the leap years. *)
Example date_texts :
  strptime_Ymd "2024-02-29" = Some {| year := 2024; month := 2; day := 29 |}
  /\ strptime_Ymd "2024-5-3" = Some {| year := 2024; month := 5; day := 3 |}
  /\ strptime_Ymd "2023-02-29" = None
  /\ strptime_Ymd "2024-13-01" = None
  /\ strptime_Ymd "2024-01-01 " = None
  /\ strptime_Ymd "0000-01-01" = None.
Proof. repeat split. Qed.

(** [int] takes a literal of 4300 digits and rejects one of 4301, with
    or without a sign, white space and underscores. *)
Example int_limit :
  py_int long_index = None
  /\ py_int (String "-" long_index) = None
  /\ (exists z, py_int (string_of_list_ascii (repeat "1"%char 4300%nat))
                = Some z)
  /\ (exists z, py_int (" 1_" ++ string_of_list_ascii (repeat "0"%char 4299%nat))
                = Some z)
  /\ py_int (string_of_list_ascii (repeat "0"%char 4301%nat)) = None.
Proof.
  split; [vm_compute; reflexivity|].
  split; [vm_compute; reflexivity|].
  split; [eexists; vm_compute; reflexivity|].
  split; [eexists; vm_compute; reflexivity|].
  vm_compute. reflexivity.
Qed.

End Scenarios.

(** * The claims *)

Import PyStr PyFloat Form PySort Parser PyDate Invoice LineItemSpec.
Import FilenameSpec Examples.

(** C1, as stated, fails: with the amounts 0.1 and 0.2 the subtotal is
    the float 0.30000000000000004, which is not the exact sum of the two
    amounts. *)
Lemma C1_exact_sum_counterexample :
  let f := [("items[0][description]", "a"); ("items[0][amount]", "0.1");
            ("items[1][description]", "b"); ("items[1][amount]", "0.2")] in
  exists its sub q s,
    parse_line_items (to_dict f) = Some (its, sub)
    /\ exact_sum (map amount its) = Some q
    /\ value sub = Some s
    /\ ~ (s == q)%Q.
Proof.
  cbv zeta. do 4 eexists.
  split; [vm_compute; reflexivity|].
  split; [vm_compute; reflexivity|].
  split; [vm_compute; reflexivity|].
  vm_compute. discriminate.
Qed.

(** C1, amended: for every form, the parsed line items are exactly the
    indexed items whose trimmed description is not empty and whose amount
    text stands for a float greater than zero, in ascending index order,
    and the subtotal is the binary64 sum of their amounts accumulated from
    0.0 from left to right; the parser raises when [int] rejects the text
    between the first brackets of a key that starts with [items[], which
    is then no integer or has more than 4300 digits. An amount text that
    is no number counts as zero and excludes the item, as does "0"; "0.01"
    does not. *)
Theorem C1_line_items (f : form) :
  let es := entries (to_dict f) in
  parse_line_items (to_dict f)
  = (if sortable (to_dict f)
     then Some (spec_items es, float_sum (map amount (spec_items es)))
     else None)
  /\ (forall it,
         In it (spec_items es) <->
         exists i, In i (map idx es) /\ it = item_at es i
                   /\ description it <> EmptyString
                   /\ gt_zero (amount it) = true)
  /\ (forall t, py_float t = None -> gt_zero (amount_of_text t) = false)
  /\ gt_zero (amount_of_text "0") = false
  /\ gt_zero (amount_of_text "0.01") = true.
Proof.
  intros es. split; [apply ParserFacts.parse_form_spec|].
  split; [|split; [|split; reflexivity]].
  - intros it. unfold spec_items. rewrite filter_In, in_map_iff.
    unfold valid. rewrite andb_true_iff, negb_true_iff.
    split.
    + intros [(i & <- & Hi) [Hd Ha]].
      exists i. apply SpecFacts.in_indices in Hi.
      repeat split; try assumption.
      intros E. now rewrite E in Hd.
    + intros (i & Hi & -> & Hd & Ha). split.
      * exists i. split; [reflexivity | now apply SpecFacts.in_indices].
      * split; [|exact Ha].
        destruct (description (item_at es i)); [congruence | reflexivity].
  - intros t Ht. unfold amount_of_text. now rewrite Ht.
Qed.

(** C2, as stated, fails: for the subtotal 12.5 and the rate 1 the exact
    tax is 0.125, which rounds half-up to 0.13, but the tax amount
    computed is 0.12. *)
Lemma C2_counterexample :
  let f := [("supplier_id", "1"); ("invoice_number", "7");
            ("invoice_date", "2024-05-03"); ("tax_rate", "1");
            ("items[0][description]", "Rent"); ("items[0][amount]", "12.5")] in
  exists fn data s r,
    generate_invoice demo_suppliers f = Some (Generated fn data)
    /\ value (inv_subtotal data) = Some s
    /\ value (tax_rate data) = Some r
    /\ half_up_cents (s * r / 100) = 13
    /\ tax_amount data = of_ratio false 12 100
    /\ tax_amount data <> of_ratio false (half_up_cents (s * r / 100)) 100.
Proof.
  cbv zeta. do 4 eexists.
  split; [vm_compute; reflexivity|].
  split; [vm_compute; reflexivity|].
  split; [vm_compute; reflexivity|].
  split; [vm_compute; reflexivity|].
  split; [vm_compute; reflexivity|].
  vm_compute. discriminate.
Qed.

(** C2, amended: the tax amount is [round(subtotal * tax_rate / 100, 2)]
    in binary64: the product and the quotient are rounded to binary64, the
    result is taken to the nearest number of hundredths, an exact half
    going to the even one, and that decimal is converted to the nearest
    binary64; a result that is no finite number is kept as it is. *)
Theorem C2_tax_amount find_supplier (f : form) fn data :
  generate_invoice find_supplier f = Some (Generated fn data) ->
  let raw := div (mul (inv_subtotal data) (tax_rate data)) hundred in
  tax_amount data = py_round raw 2
  /\ (forall s m e,
         raw = S754_finite s m e ->
         exists n, hundredths_of raw n /\ tax_amount data = of_ratio s n 100)
  /\ (forall s, raw = S754_zero s \/ raw = S754_infinity s \/ raw = S754_nan ->
                tax_amount data = raw).
Proof.
  intros H raw.
  destruct (RoundFacts.generated_inv _ _ _ _ H)
    as (its & s0 & _ & _ & _ & Hs & Ht & _).
  assert (E : tax_amount data = py_round raw 2).
  { rewrite Ht. unfold raw, compute_tax. now rewrite Hs. }
  split; [exact E|]. split.
  - intros s m e Hr. rewrite E, Hr. apply RoundFacts.py_round_hundredths.
  - intros s [Hr|[Hr|Hr]]; rewrite E, Hr; reflexivity.
Qed.

(** C2, at the request with the amount 12.5 and the rate 1. *)
Lemma C2_tax_amount_witness :
  exists fn data,
    generate_invoice demo_suppliers (request "2024-05-03" "1" "12.5")
    = Some (Generated fn data)
    /\ tax_amount data
       = py_round (div (mul (inv_subtotal data) (tax_rate data)) hundred) 2.
Proof.
  do 2 eexists. split; [vm_compute; reflexivity|].
  refine (proj1 (C2_tax_amount demo_suppliers
                   (request "2024-05-03" "1" "12.5") _ _ _)).
  vm_compute. reflexivity.
Defined.

(** C3, as stated, fails: for the one amount 100000000000000016 and the
    rate 3 the tax amount is 3000000000000000.5 and the total
    97000000000000016, so that tax amount plus total exceeds the subtotal
    by 0.5. *)
Lemma C3_counterexample :
  exists fn data,
    generate_invoice demo_suppliers
      (request "2024-05-03" "3" "100000000000000016")
    = Some (Generated fn data)
    /\ items data <> []
    /\ value (inv_subtotal data) = Some (100000000000000016 # 1)%Q
    /\ value (tax_amount data) = Some (6000000000000001 # 2)%Q
    /\ value (total data) = Some (97000000000000016 # 1)%Q
    /\ ~ cent_law (tax_amount data) (total data) (inv_subtotal data).
Proof.
  do 2 eexists.
  split; [vm_compute; reflexivity|].
  split; [discriminate|].
  split; [vm_compute; reflexivity|].
  split; [vm_compute; reflexivity|].
  split; [vm_compute; reflexivity|].
  intros (t & o & s & Ht & Ho & Hs & H).
  vm_compute in Ht, Ho, Hs.
  inversion Ht; inversion Ho; inversion Hs; subst.
  vm_compute in H. apply H. reflexivity.
Qed.

(** An amount text that [float] reads as an infinity is greater than zero:
    the subtotal and the tax amount are then infinite and the total is not
    a number. *)
Example infinite_amount :
  exists fn data,
    generate_invoice demo_suppliers (request "2024-05-03" "3.00" "1e999")
    = Some (Generated fn data)
    /\ inv_subtotal data = S754_infinity false
    /\ tax_amount data = S754_infinity false
    /\ total data = S754_nan.
Proof.
  do 2 eexists. split; [vm_compute; reflexivity|]. repeat split.
Qed.

(** C3, amended: the total is [round(subtotal - tax_amount, 2)] in
    binary64, the tax being subtracted: when the binary64 difference is a
    finite number, the total is the binary64 nearest to the number of
    hundredths nearest to it (ties to even), which is within 0.005 of that
    difference. When the subtotal and the tax amount are numbers of at most
    [10 ^ 12] in magnitude, tax amount plus total is within 0.01 of the
    subtotal, the tolerance of two decimals: the rounding law holds on
    such invoices. For the subtotal 1000.00 and the rate 3.00 the tax
    amount is 30.00, the total 970.00 and their sum the subtotal. *)
Theorem C3_total find_supplier (f : form) fn data :
  generate_invoice find_supplier f = Some (Generated fn data) ->
  let diff := sub (inv_subtotal data) (tax_amount data) in
  items data <> []
  /\ total data = py_round diff 2
  /\ (forall s m e,
         diff = S754_finite s m e ->
         exists n, hundredths_of diff n /\ total data = of_ratio s n 100)
  /\ (inv_subtotal data = of_decimal false 1000 0 ->
      tax_rate data = of_decimal false 3 0 ->
      tax_amount data = of_decimal false 30 0
      /\ total data = of_decimal false 970 0
      /\ add (tax_amount data) (total data) = inv_subtotal data)
  /\ (forall s t,
         value (inv_subtotal data) = Some s ->
         value (tax_amount data) = Some t ->
         (Qabs s <= 1000000000000 # 1)%Q ->
         (Qabs t <= 1000000000000 # 1)%Q ->
         cent_law (tax_amount data) (total data) (inv_subtotal data)).
Proof.
  intros H diff.
  destruct (RoundFacts.generated_inv _ _ _ _ H)
    as (its & s0 & Hp & Hne & Hi & Hs & Ht & Ho).
  assert (E : total data = py_round diff 2).
  { rewrite Ho. unfold diff, compute_total. now rewrite Hs. }
  split; [now rewrite Hi|]. split; [exact E|]. split; [|split].
  - intros s m e Hd. rewrite E, Hd. apply RoundFacts.py_round_hundredths.
  - intros Hsub Hrate.
    assert (T : tax_amount data = of_decimal false 30 0).
    { rewrite Ht, <- Hs, Hsub, Hrate. vm_compute. reflexivity. }
    split; [exact T|].
    assert (O : total data = of_decimal false 970 0).
    { rewrite Ho, T, <- Hs, Hsub. vm_compute. reflexivity. }
    split; [exact O|]. rewrite T, O, Hsub. vm_compute. reflexivity.
  - intros s t Vs Vt Bs Bt.
    pose proof (ErrorFacts.subtotal_scaled f its s0 Hp) as W.
    rewrite <- Hs in W.
    destruct (ErrorFacts.total_near _ _ s t Vs Vt W Bs Bt) as (o & Vo & A).
    exists t, o, s. rewrite Ho, <- Hs.
    repeat split; assumption.
Qed.

(** C3, at the request with the amount 1000.00 and the rate 3.00. *)
Lemma C3_total_witness :
  exists fn data,
    generate_invoice demo_suppliers (request "2024-05-03" "3.00" "1000.00")
    = Some (Generated fn data)
    /\ items data <> []
    /\ total data = py_round (sub (inv_subtotal data) (tax_amount data)) 2
    /\ cent_law (tax_amount data) (total data) (inv_subtotal data).
Proof.
  do 2 eexists. split; [vm_compute; reflexivity|].
  pose proof (C3_total demo_suppliers
                (request "2024-05-03" "3.00" "1000.00") _ _ eq_refl) as H.
  split; [exact (proj1 H)|]. split; [exact (proj1 (proj2 H))|].
  eapply (proj2 (proj2 (proj2 (proj2 H)))).
  - vm_compute. reflexivity.
  - vm_compute. reflexivity.
  - apply Qle_bool_iff. vm_compute. reflexivity.
  - apply Qle_bool_iff. vm_compute. reflexivity.
Defined.

(** C4, as stated, fails: when [items[0][amount]] is sent with "100" and
    then with "200", the amount of the item is 100. *)
Lemma C4_counterexample :
  let f := [("items[0][description]", "x"); ("items[0][amount]", "100");
            ("items[0][amount]", "200")] in
  exists it sub,
    parse_line_items (to_dict f) = Some ([it], sub)
    /\ py_float "100" = Some (amount it)
    /\ py_float "200" <> Some (amount it).
Proof.
  cbv zeta. do 2 eexists.
  split; [vm_compute; reflexivity|].
  split; [vm_compute; reflexivity|].
  vm_compute. discriminate.
Qed.

(** C4, amended: of the values sent for one key the first is the one
    processed; a further value for a key that was already sent changes
    nothing. *)
Theorem C4_first_value_wins (f1 f2 : form) (k v : string) :
  In k (map fst f1) ->
  parse_line_items (to_dict (f1 ++ (k, v) :: f2)%list)
  = parse_line_items (to_dict (f1 ++ f2)%list).
Proof.
  intros H. apply HeadFacts.parse_heads; try apply FormFacts.to_dict_nodup.
  now apply HeadFacts.heads_repeated.
Qed.

(** C4, at the form that sends [items[0][amount]] twice. *)
Lemma C4_first_value_wins_witness :
  parse_line_items
    (to_dict [("items[0][description]", "x"); ("items[0][amount]", "100");
              ("items[0][amount]", "200")])
  = parse_line_items
      (to_dict [("items[0][description]", "x"); ("items[0][amount]", "100")]).
Proof.
  apply (C4_first_value_wins
           [("items[0][description]", "x"); ("items[0][amount]", "100")]
           [] "items[0][amount]" "200").
  simpl. right. left. reflexivity.
Defined.

(** C5: a key [items[x][amount]] makes the sort key raise, so that the
    parser, and with it the request, ends in an uncaught exception; without
    that key the same form gives one line item. *)
Theorem C5_unparseable_index_raises :
  let good := [("items[0][description]", "Rent"); ("items[0][amount]", "500")] in
  parse_line_items (to_dict (good ++ [("items[x][amount]", "5")])%list) = None
  /\ exists it sub, parse_line_items (to_dict good) = Some ([it], sub).
Proof.
  cbv zeta. split; [vm_compute; reflexivity|].
  do 2 eexists. vm_compute. reflexivity.
Qed.

(** C6, as stated, fails: the rate "nan" is no decimal number and the date
    "2024-5-3" is not of the form YYYY-MM-DD, yet [float] and [strptime]
    accept them and the invoice is rendered, in the first case with a tax
    amount and a total that are not numbers. *)
Lemma C6_counterexample :
  (exists fn data,
      generate_invoice demo_suppliers (request "2024-05-03" "nan" "500")
      = Some (Generated fn data)
      /\ tax_amount data = S754_nan /\ total data = S754_nan)
  /\ all_chars (fun c => negb (is_digit c)) "nan" = true
  /\ (exists fn data,
         generate_invoice demo_suppliers (request "2024-5-3" "3.00" "500")
         = Some (Generated fn data)
         /\ invoice_date data = {| year := 2024; month := 5; day := 3 |})
  /\ String.length "2024-5-3" = 8%nat.
Proof.
  split; [|split; [reflexivity|split; [|reflexivity]]].
  - do 2 eexists. split; [vm_compute; reflexivity|]. split; reflexivity.
  - do 2 eexists. split; [vm_compute; reflexivity|]. reflexivity.
Qed.

(** C6, amended: a request whose parsed line items are empty, or whose tax
    rate [float] rejects, or whose invoice date [strptime] rejects with the
    format [%Y-%m-%d], ends in a flashed error: no invoice data and no file
    name are produced. [float] rejects every text without a digit other
    than [inf], [infinity] and [nan], and a date that [strptime] accepts is
    a day of the calendar. The values of the line items cannot make the
    parser raise, whatever their text, since two forms with the same keys
    raise together; and a request whose other fields are in order is
    rendered as soon as the parser returns one valid item, with exactly the
    items the parser returned. *)
Theorem C6_rejections (find_supplier : string -> option supplier) (f : form) :
  ((exists s, parse_line_items (to_dict f) = Some ([], s))
   \/ (forall t, form_get "tax_rate" f = Some t -> py_float t = None)
   \/ (forall t, form_get "invoice_date" f = Some t -> strptime_Ymd t = None)
   -> exists msg, generate_invoice find_supplier f = Some (Rejected msg))
  /\ (forall f' : form,
         map fst f = map fst f' ->
         (parse_line_items (to_dict f) = None
          <-> parse_line_items (to_dict f') = None))
  /\ (forall it its s,
         header_ok find_supplier f ->
         parse_line_items (to_dict f) = Some (it :: its, s) ->
         exists fn data,
           generate_invoice find_supplier f = Some (Generated fn data)
           /\ items data = it :: its)
  /\ (forall t,
         all_chars (fun c => negb (is_digit c)) t = true ->
         (let w := lower_str (snd (read_sign (num_strip t))) in
          String.eqb w "inf" || String.eqb w "infinity" || String.eqb w "nan")
         = false ->
         py_float t = None)
  /\ (forall t d, strptime_Ymd t = Some d -> DateText.valid_date d)
  /\ (forall fn data,
         generate_invoice find_supplier f = Some (Generated fn data) ->
         items data <> []
         /\ (exists t, form_get "tax_rate" f = Some t
                       /\ py_float t = Some (tax_rate data))
         /\ (exists t, form_get "invoice_date" f = Some t
                       /\ strptime_Ymd t = Some (invoice_date data))).
Proof.
  split; [|split; [|split; [|split; [|split]]]].
  4:{ exact RowFacts.no_digit_float. }
  4:{ exact DateFacts.strptime_valid. }
  4:{ intros fn data. unfold generate_invoice.
      destruct (form_get "supplier_id" f) as [sid|]; [|discriminate].
      destruct (form_get "invoice_number" f) as [number|]; [|discriminate].
      destruct (form_get "invoice_date" f) as [ds|]; [|discriminate].
      destruct (form_get "tax_rate" f) as [rs|]; [|discriminate].
      destruct (negb _); [discriminate|].
      destruct (py_float rs) as [rate|] eqn:Pr; [|discriminate].
      destruct (strptime_Ymd ds) as [d|] eqn:Pd; [|discriminate].
      destruct (find_supplier sid) as [sup|]; [|discriminate].
      destruct (parse_line_items (to_dict f)) as [[[|it its] s]|];
        try discriminate.
      intros H. inversion H; subst. cbn [items tax_rate invoice_date].
      split; [discriminate|]. split; eexists; split; eauto. }
  - intros H. unfold generate_invoice.
    destruct (form_get "supplier_id" f) as [sid|]; [|eauto].
    destruct (form_get "invoice_number" f) as [number|]; [|eauto].
    destruct (form_get "invoice_date" f) as [ds|] eqn:Ed; [|eauto].
    destruct (form_get "tax_rate" f) as [rs|] eqn:Er; [|eauto].
    destruct (negb _); [eauto|].
    destruct (py_float rs) as [rate|] eqn:Pr.
    2:{ eauto. }
    destruct (strptime_Ymd ds) as [d|] eqn:Pd.
    2:{ eauto. }
    destruct (find_supplier sid) as [sup|]; [|eauto].
    destruct H as [[s Hs]|[H|H]].
    + rewrite Hs. eauto.
    + specialize (H _ eq_refl). congruence.
    + specialize (H _ eq_refl). congruence.
  - intros f' Hk.
    rewrite !HeadFacts.parse_raises by apply FormFacts.to_dict_nodup.
    assert (E : keys (to_dict f) = keys (to_dict f')).
    { rewrite !(HeadFacts.keys_heads (fun _ => EmptyString)).
      f_equal. apply HeadFacts.heads_to_dict.
      revert f' Hk. induction f as [|kv f IH]; intros [|kv' f'] Hk;
        try discriminate; constructor.
      - inversion Hk. now split.
      - inversion Hk. now apply IH. }
    now rewrite (HeadFacts.sortable_keys _ _ E).
  - intros it its s (sid & number & ds & rs & Hs & Hn & Hd & Hr &
                     Es & En & Ed & Er & Pr & Pd & Fs) Hp.
    unfold generate_invoice. rewrite Hs, Hn, Hd, Hr. unfold truthy.
    rewrite Es, En, Ed, Er. cbn [negb andb].
    destruct (py_float rs); [|congruence].
    destruct (strptime_Ymd ds); [|congruence].
    destruct (find_supplier sid); [|congruence].
    rewrite Hp. eauto.
Qed.

(** C6, at three requests: a day that does not exist, no valid item, and
    a malformed item next to a valid one. *)
Lemma C6_rejections_witness :
  (exists msg,
      generate_invoice demo_suppliers
        [("supplier_id", "1"); ("invoice_number", "7");
         ("invoice_date", "2024-02-30"); ("tax_rate", "3.00");
         ("items[0][description]", "Rent"); ("items[0][amount]", "abc")]
      = Some (Rejected msg))
  /\ (exists msg,
         generate_invoice demo_suppliers
           [("supplier_id", "1"); ("invoice_number", "7");
            ("invoice_date", "2024-02-29"); ("tax_rate", "3.00");
            ("items[0][description]", "Rent"); ("items[0][amount]", "abc")]
         = Some (Rejected msg))
  /\ (exists fn data,
         generate_invoice demo_suppliers
           [("supplier_id", "1"); ("invoice_number", "7");
            ("invoice_date", "2024-02-29"); ("tax_rate", "3.00");
            ("items[0][description]", "Rent"); ("items[0][amount]", "abc");
            ("items[1][description]", "Fee"); ("items[1][amount]", "20")]
         = Some (Generated fn data)
         /\ items data
            = [{| description := "Fee"; amount := of_decimal false 20 0 |}]).
Proof.
  split; [|split].
  - apply (proj1 (C6_rejections demo_suppliers _)).
    right. right. intros t Ht. vm_compute in Ht. inversion Ht. reflexivity.
  - apply (proj1 (C6_rejections demo_suppliers _)).
    left. eexists. vm_compute. reflexivity.
  - eapply (proj2 (proj2 (C6_rejections demo_suppliers _))).
    + exists "1", "7", "2024-02-29", "3.00".
      repeat split; try reflexivity; vm_compute; discriminate.
    + vm_compute. reflexivity.
Defined.

(** C7, as stated, fails: the keys [items[0][amount]] and
    [items[00][amount]] both denote the amount of index 0, and the one that
    comes later in the dictionary wins, so two orders of the same keys give
    different line items. *)
Lemma C7_counterexample :
  let d1 := to_dict [("items[0][description]", "a"); ("items[0][amount]", "1");
                     ("items[00][amount]", "2")] in
  let d2 := to_dict [("items[0][description]", "a"); ("items[00][amount]", "2");
                     ("items[0][amount]", "1")] in
  Permutation d1 d2 /\ parse_line_items d1 <> parse_line_items d2.
Proof.
  cbv zeta. split.
  - cbv [to_dict fold_left add_value fst snd String.eqb Ascii.eqb Bool.eqb app].
    apply perm_skip, perm_swap.
  - vm_compute. discriminate.
Qed.

(** C7, amended: the line items are the valid indexed items in strictly
    ascending order of the numeric index (index 9 before index 10), and a
    parse is a function of the dictionary; it is the same for every order
    of the keys provided that no two keys denote the same field of the same
    index. *)
Theorem C7_ascending_order (d d' : dict) :
  NoDup (keys d) ->
  (forall its s,
      parse_line_items d = Some (its, s) ->
      its = filter valid (map (item_at (entries d)) (indices (entries d))))
  /\ StronglySorted Z.lt (indices (entries d))
  /\ (forall i, In i (indices (entries d)) <-> In i (map idx (entries d)))
  /\ (Permutation d d' -> NoDup (map fst (entries d)) ->
      parse_line_items d' = parse_line_items d)
  /\ indices (entries (to_dict [("items[10][amount]", "1");
                                ("items[9][amount]", "2")])) = [9; 10].
Proof.
  intros Hnd. split; [|split; [|split; [|split]]].
  - intros its s H. rewrite ParserFacts.parse_line_items_spec in H by exact Hnd.
    destruct (sortable d); [|discriminate]. now inversion H.
  - apply SpecFacts.indices_ascending.
  - apply SpecFacts.in_indices.
  - intros Hp Hu.
    assert (Hnd' : NoDup (keys d')).
    { eapply Permutation_NoDup; [|exact Hnd].
      unfold keys. now apply Permutation_map. }
    rewrite !ParserFacts.parse_line_items_spec by assumption.
    rewrite (OrderFacts.sortable_perm _ _ Hp).
    rewrite (OrderFacts.spec_items_perm _ _ Hu (OrderFacts.entries_perm _ _ Hp)).
    reflexivity.
  - vm_compute. reflexivity.
Qed.

(** C7, at two orders of the four keys of two items. *)
Lemma C7_ascending_order_witness :
  parse_line_items
    (to_dict [("items[0][amount]", "3"); ("items[1][description]", "b");
              ("items[0][description]", "a"); ("items[1][amount]", "5")])
  = parse_line_items
      (to_dict [("items[1][description]", "b"); ("items[1][amount]", "5");
                ("items[0][description]", "a"); ("items[0][amount]", "3")]).
Proof.
  refine (proj1 (proj2 (proj2 (proj2
            (C7_ascending_order
               (to_dict [("items[1][description]", "b"); ("items[1][amount]", "5");
                         ("items[0][description]", "a"); ("items[0][amount]", "3")])
               (to_dict [("items[0][amount]", "3"); ("items[1][description]", "b");
                         ("items[0][description]", "a"); ("items[1][amount]", "5")])
               _)))) _ _).
  - apply FormFacts.to_dict_nodup.
  - cbv [to_dict fold_left add_value fst snd String.eqb Ascii.eqb Bool.eqb app].
    eapply perm_trans; [apply perm_skip, perm_skip, perm_swap|].
    eapply perm_trans; [apply perm_skip, perm_swap|].
    eapply perm_trans; [apply perm_swap|].
    apply perm_skip, perm_skip, perm_swap.
  - vm_compute.
    repeat (constructor; [simpl; intuition discriminate|]). constructor.
Defined.

(** C8, as stated, fails: the full stop of "Acme & Co." is kept, so the
    file name is not [LENGOLF_Acme___Co_Inv_2024_05.pdf]. *)
Lemma C8_counterexample :
  make_filename "Acme & Co." "2024/05" = "LENGOLF_Acme___Co._Inv_2024_05.pdf"
  /\ make_filename "Acme & Co." "2024/05" <> "LENGOLF_Acme___Co_Inv_2024_05.pdf".
Proof. split; [reflexivity | vm_compute; discriminate]. Qed.

(** C8, amended: the file name is [LENGOLF_<s>_Inv_<n>.pdf], where <s>
    and <n> come from the supplier name and the invoice number by putting
    [_] for every character outside [A-Za-z0-9_.-] and then removing the
    leading and trailing [_] of each; it has no character outside that
    class, hence no path separator; for "Acme & Co." and "2024/05" it is
    [LENGOLF_Acme___Co._Inv_2024_05.pdf]. *)
Theorem C8_filename (s n : string) :
  make_filename s n
  = ("LENGOLF_" ++ clean s ++ "_Inv_" ++ clean n ++ ".pdf")%string
  /\ trimmed (Ascii.eqb "_") (sub_unsafe s) (clean s)
  /\ trimmed (Ascii.eqb "_") (sub_unsafe n) (clean n)
  /\ (forall t i,
         String.get i (sub_unsafe t)
         = option_map (fun c => if safe_char c then c else "_"%char)
             (String.get i t))
  /\ (forall c,
         In c (list_ascii_of_string (make_filename s n)) ->
         safe_char c = true /\ c <> "/"%char /\ c <> "\"%char)
  /\ make_filename "Acme & Co." "2024/05" = "LENGOLF_Acme___Co._Inv_2024_05.pdf".
Proof.
  split; [reflexivity|].
  split; [apply FilenameFacts.strip_set_trimmed|].
  split; [apply FilenameFacts.strip_set_trimmed|].
  split; [|split; [|reflexivity]].
  - induction t as [|c r IH]; intros i; [reflexivity|].
    destruct i as [|i]; simpl; [reflexivity | apply IH].
  - intros c Hc.
    pose proof (FilenameFacts.all_chars_in _ _ _
                  (FilenameFacts.make_filename_safe s n) Hc) as H.
    split; [exact H|]. split; intros ->; discriminate.
Qed.




(** C10: the values are trimmed before they are read: two forms with the
    same keys whose values agree after trimming give the same line items
    and subtotal; " 500 " is read as "500", the float 500.0. When the keys
    of the form are keys of items, the parser returns, and a row whose
    trimmed description is not empty is in the output with the float of
    its trimmed amount as soon as that is greater than zero: with the
    amount text " 500 ", or any other text that is "500" once trimmed, the
    row is in the output with the amount 500.0. *)
Theorem C10_amount_trimmed (f f' : form) :
  Forall2 (fun kv kv' => fst kv = fst kv' /\ strip (snd kv) = strip (snd kv'))
    f f' ->
  parse_line_items (to_dict f) = parse_line_items (to_dict f')
  /\ py_float (strip " 500 ") = Some (of_decimal false 500 0)
  /\ strip " 500 " = "500"
  /\ (well_keyed (map fst f) ->
      exists its s,
        parse_line_items (to_dict f) = Some (its, s)
        /\ forall gd rd vd ga ra va,
             form_get (item_key gd Description rd) f = Some vd ->
             form_get (item_key ga Amount ra) f = Some va ->
             index_text gd -> index_text ga ->
             dec_value gd = dec_value ga ->
             (forall k g0 fd rest,
                 In k (map fst f) -> k = item_key g0 fd rest ->
                 index_text g0 -> dec_value g0 = dec_value gd ->
                 k = item_key gd Description rd
                 \/ k = item_key ga Amount ra) ->
             is_empty (strip vd) = false ->
             (gt_zero (amount_of_text (strip va)) = true ->
              In {| description := strip vd;
                    amount := amount_of_text (strip va) |} its)
             /\ (strip va = "500" ->
                 In {| description := strip vd;
                       amount := of_decimal false 500 0 |} its))
  /\ parse_line_items
       (to_dict [("items[0][description]", "Rent"); ("items[0][amount]", " 500 ")])
     = Some ([{| description := "Rent"; amount := of_decimal false 500 0 |}],
             of_decimal false 500 0).
Proof.
  intros H. split; [|split; [reflexivity|split; [reflexivity|split]]].
  - apply HeadFacts.parse_heads; try apply FormFacts.to_dict_nodup.
    now apply HeadFacts.heads_to_dict.
  - intros Hw.
    pose proof (FormFacts.to_dict_nodup f) as Hnd.
    pose proof (RowFacts.well_keyed_parse _ Hnd (RowFacts.well_keyed_form f Hw))
      as P.
    do 2 eexists. split; [exact P|].
    intros gd rd vd ga ra va Gd Ga Id Ia E U Hne.
    destruct (RowFacts.form_get_to_dict f _ _ Gd) as [vsd Hd].
    destruct (RowFacts.form_get_to_dict f _ _ Ga) as [vsa Ha].
    destruct (RowFacts.row_item (to_dict f) gd rd vd vsd ga ra va vsa
                Hnd Hd Ha Id Ia E) as [Hi Hit].
    { intros k x g0 fd rest Hin. apply U.
      apply AmountFacts.keys_to_dict. unfold keys.
      change k with (fst (k, x)). now apply in_map. }
    assert (Incl : gt_zero (amount_of_text (strip va)) = true ->
                   In {| description := strip vd;
                         amount := amount_of_text (strip va) |}
                     (spec_items (entries (to_dict f)))).
    { intros Hpos. rewrite <- Hit. apply RowFacts.in_spec_items; [exact Hi|].
      rewrite Hit. unfold valid. cbn [description amount].
      now rewrite Hne, Hpos. }
    split; [exact Incl|].
    intros E500. rewrite E500 in Incl.
    change (amount_of_text "500") with (of_decimal false 500 0) in Incl.
    apply Incl. reflexivity.
  - vm_compute. reflexivity.
Qed.

(** C10, at the amount texts " 500 " and "500": the two parses are the
    same, and the row is in the output with the amount 500.0. *)
Lemma C10_amount_trimmed_witness :
  parse_line_items
    (to_dict [("items[0][description]", "Rent"); ("items[0][amount]", " 500 ")])
  = parse_line_items
      (to_dict [("items[0][description]", "Rent"); ("items[0][amount]", "500")])
  /\ exists its s,
       parse_line_items
         (to_dict [("items[0][description]", "Rent");
                   ("items[0][amount]", " 500 ")])
       = Some (its, s)
       /\ In {| description := strip "Rent"; amount := of_decimal false 500 0 |}
            its.
Proof.
  destruct (C10_amount_trimmed
              [("items[0][description]", "Rent"); ("items[0][amount]", " 500 ")]
              [("items[0][description]", "Rent"); ("items[0][amount]", "500")])
    as (Eq & _ & _ & Incl & _).
  - repeat constructor.
  - split; [exact Eq|].
    destruct Incl as (its & s & P & Row).
    { apply RowFacts.well_keyed_check. vm_compute. reflexivity. }
    exists its, s. split; [exact P|].
    apply (Row "0" EmptyString "Rent" "0" EmptyString " 500 ").
    + reflexivity.
    + reflexivity.
    + repeat split. apply Nat.leb_le. vm_compute. reflexivity.
    + repeat split. apply Nat.leb_le. vm_compute. reflexivity.
    + reflexivity.
    + apply RowFacts.row_unique_check. vm_compute. reflexivity.
    + reflexivity.
    + reflexivity.
Defined.

(** * Further properties of the code *)

Import DateText Listing Suppliers FloatSign.


(** X2: the fields of the form whose key does not start with [items[],
    among them the four fields in front, do not matter to the line items:
    the parser gives the same result, or raises alike, on the form
    without them. *)
Theorem X2_only_item_fields (f : form) :
  parse_line_items (to_dict f)
  = parse_line_items
      (to_dict (filter (fun kv => startswith "items[" (fst kv)) f)).
Proof. apply FrameFacts.parse_item_fields. Qed.

(** X3: a request without any key that starts with [items[] has no line
    item and the subtotal 0.0, and once its other fields are in order it is
    turned down for having no valid line item. *)
Theorem X3_no_item_fields (find_supplier : string -> option supplier) (f : form) :
  Forall (fun kv => startswith "items[" (fst kv) = false) f ->
  parse_line_items (to_dict f) = Some ([], zero)
  /\ (header_ok find_supplier f ->
      generate_invoice find_supplier f
      = Some (Rejected "Cannot generate invoice with no valid line items.")).
Proof.
  intros H.
  assert (P : parse_line_items (to_dict f) = Some ([], zero)).
  { rewrite FrameFacts.parse_item_fields.
    replace (filter (fun kv => startswith "items[" (fst kv)) f)
      with (@nil (string * string)); [reflexivity|].
    induction H as [|kv f Hk _ IH]; [reflexivity|].
    cbn [filter]. now rewrite Hk. }
  split; [exact P|].
  intros (sid & number & ds & rs & Hs & Hn & Hd & Hr &
          Es & En & Ed & Er & Pr & Pd & Fs).
  unfold generate_invoice, truthy.
  rewrite Hs, Hn, Hd, Hr, Es, En, Ed, Er, P. cbn [negb andb].
  destruct (py_float rs); [|congruence].
  destruct (strptime_Ymd ds); [|congruence].
  destruct (find_supplier sid); [|congruence].
  reflexivity.
Qed.

(** X3, at a request that has the four fields in front and nothing else. *)
Lemma X3_no_item_fields_witness :
  parse_line_items
    (to_dict [("supplier_id", "1"); ("invoice_number", "7");
              ("invoice_date", "2024-05-03"); ("tax_rate", "3.00")])
  = Some ([], zero)
  /\ generate_invoice demo_suppliers
       [("supplier_id", "1"); ("invoice_number", "7");
        ("invoice_date", "2024-05-03"); ("tax_rate", "3.00")]
     = Some (Rejected "Cannot generate invoice with no valid line items.").
Proof.
  pose proof (X3_no_item_fields demo_suppliers
                [("supplier_id", "1"); ("invoice_number", "7");
                 ("invoice_date", "2024-05-03"); ("tax_rate", "3.00")]) as H.
  assert (F : Forall (fun kv => startswith "items[" (fst kv) = false)
                [("supplier_id", "1"); ("invoice_number", "7");
                 ("invoice_date", "2024-05-03"); ("tax_rate", "3.00")])
    by (repeat constructor).
  destruct (H F) as [P G]. split; [exact P|]. apply G.
  exists "1", "7", "2024-05-03", "3.00".
  repeat split; try reflexivity; vm_compute; discriminate.
Defined.

(** X4: on a key that matches the pattern of the loop, the sort key of
    line 220 and the index of line 230 are one and the same call of [int]
    on the digits between the first brackets: a natural number when there
    are at most 4300 digits, and a [ValueError] when there are more. So the
    loop never raises on a key that [sorted] has accepted, and [sorted]
    orders the keys by the index that the loop groups by. *)
Theorem X4_sort_key_is_index (k g : string) (fd : field) :
  match_key k = Some (g, fd) ->
  startswith "items[" k = true
  /\ sort_key k = py_int g
  /\ all_chars is_digit g = true /\ is_empty g = false
  /\ (if Z.of_nat (String.length g) <=? 4300
      then exists z, 0 <= z /\ py_int g = Some z /\ sort_key k = Some z
      else py_int g = None /\ sort_key k = None).
Proof.
  intros M.
  destruct (KeyFacts.match_key_sort_key _ _ _ M) as (Hs & Hk & Hd & Hne).
  repeat split; try assumption.
  pose proof (KeyFacts.py_int_digits_cases g Hd Hne) as P.
  rewrite (KeyFacts.count_digits_length g Hd) in P.
  unfold int_max_str_digits in P.
  destruct (Z.leb_spec (Z.of_nat (String.length g)) 4300) as [L|L];
    destruct (Z.ltb_spec 4300 (Z.of_nat (String.length g))) as [L'|L'];
    try lia.
  - destruct P as (z & Hz & Hp). exists z. repeat split; congruence.
  - split; congruence.
Qed.

(** X4, at the key [items[12][amount]junk]. *)
Lemma X4_sort_key_is_index_witness :
  sort_key "items[12][amount]junk" = py_int "12"
  /\ exists z, 0 <= z /\ py_int "12" = Some z
               /\ sort_key "items[12][amount]junk" = Some z.
Proof.
  destruct (X4_sort_key_is_index "items[12][amount]junk" "12" Amount eq_refl)
    as (_ & Hk & _ & _ & H).
  split; [exact Hk | exact H].
Defined.

(** X5: whatever the form, the subtotal that the parser returns is not
    NaN and not negative: it is [+0.0], a positive finite float or [+inf];
    and so is the amount of every line item. *)
Theorem X5_subtotal_not_negative (f : form) its s :
  parse_line_items (to_dict f) = Some (its, s) ->
  is_nonneg s = true
  /\ Forall (fun it => is_nonneg (amount it) = true) its.
Proof.
  intros H. rewrite ParserFacts.parse_form_spec in H.
  destruct (sortable (to_dict f)); [|discriminate].
  inversion H; subst. clear H.
  assert (A : Forall (fun it => is_nonneg (amount it) = true)
                (spec_items (entries (to_dict f)))).
  { apply Forall_forall. intros it Hit. unfold spec_items in Hit.
    apply filter_In in Hit as [_ Hv]. unfold valid in Hv.
    apply andb_true_iff in Hv as [_ Hv]. now apply SumFacts.gt_zero_nonneg. }
  split; [|exact A].
  apply SumFacts.float_sum_nonneg.
  apply Forall_forall. intros x Hx. apply in_map_iff in Hx as (it & <- & Hit).
  rewrite Forall_forall in A. now apply A.
Qed.

(** X5, at a form with two items. *)
Lemma X5_subtotal_not_negative_witness :
  exists its s,
    parse_line_items
      (to_dict [("items[0][description]", "a"); ("items[0][amount]", "0.1");
                ("items[1][description]", "b"); ("items[1][amount]", "0.2")])
    = Some (its, s)
    /\ is_nonneg s = true.
Proof.
  do 2 eexists. split; [vm_compute; reflexivity|].
  refine (proj1 (X5_subtotal_not_negative
                   [("items[0][description]", "a"); ("items[0][amount]", "0.1");
                    ("items[1][description]", "b"); ("items[1][amount]", "0.2")]
                   _ _ _)).
  vm_compute. reflexivity.
Defined.



(** X7: a date that [strptime] accepts for the invoice is a date of the
    calendar: the year is between 1 and 9999, the month between 1 and 12
    and the day exists in that month of that year; so the date of every
    invoice that is rendered is one. *)
Theorem X7_invoice_date_valid find_supplier (f : form) fn data :
  generate_invoice find_supplier f = Some (Generated fn data) ->
  valid_date (invoice_date data)
  /\ exists t, form_get "invoice_date" f = Some t
               /\ strptime_Ymd t = Some (invoice_date data).
Proof.
  unfold generate_invoice.
  destruct (form_get "supplier_id" f) as [sid|]; [|discriminate].
  destruct (form_get "invoice_number" f) as [number|]; [|discriminate].
  destruct (form_get "invoice_date" f) as [ds|]; [|discriminate].
  destruct (form_get "tax_rate" f) as [rs|]; [|discriminate].
  destruct (negb _); [discriminate|].
  destruct (py_float rs) as [rate|]; [|discriminate].
  destruct (strptime_Ymd ds) as [d|] eqn:Pd; [|discriminate].
  destruct (find_supplier sid) as [sup|]; [|discriminate].
  destruct (parse_line_items (to_dict f)) as [[[|it its] s]|];
    try discriminate.
  intros H. inversion H; subst. simpl. split.
  - now apply (DateFacts.strptime_valid ds).
  - now exists ds.
Qed.

(** X7, at a request dated 2024-02-29. *)
Lemma X7_invoice_date_valid_witness :
  exists fn data,
    generate_invoice demo_suppliers (request "2024-02-29" "3.00" "500")
    = Some (Generated fn data)
    /\ valid_date (invoice_date data).
Proof.
  do 2 eexists. split; [vm_compute; reflexivity|].
  refine (proj1 (X7_invoice_date_valid demo_suppliers
                   (request "2024-02-29" "3.00" "500") _ _ _)).
  vm_compute. reflexivity.
Defined.

(** X8: the default date that [create_invoice_form] fills in, today
    printed with [%Y-%m-%d], is read back by [generate_invoice] as today,
    for every day from the year 1000 on. *)
Theorem X8_default_date_round_trip (today : date) :
  valid_date today -> 1000 <= year today ->
  strptime_Ymd (strftime_Ymd today) = Some today.
Proof. apply DateFacts.strptime_strftime. Qed.

(** X8, on the 29th of February 2024. *)
Lemma X8_default_date_round_trip_witness :
  strptime_Ymd (strftime_Ymd {| year := 2024; month := 2; day := 29 |})
  = Some {| year := 2024; month := 2; day := 29 |}.
Proof.
  apply (X8_default_date_round_trip {| year := 2024; month := 2; day := 29 |}).
  - unfold valid_date. simpl. vm_compute. intuition discriminate.
  - simpl. lia.
Defined.

(** X9: the list of generated files holds at most ten names, each the
    name of a file of the folder that ends in [.pdf], and it is in the
    order of the modification times, newest first. *)
Theorem X9_generated_files_newest_first
    (listdir : option (list string)) (getmtime : string -> option Z) :
  let shown := generated_files listdir getmtime in
  (List.length shown <= 10)%nat
  /\ (forall x, In x shown ->
                endswith ".pdf" x = true
                /\ exists names, listdir = Some names /\ In x names)
  /\ StronglySorted (newer_or_same getmtime) shown.
Proof.
  unfold generated_files. destruct listdir as [names|].
  2:{ split; [simpl; lia|]. split; [intros x []|constructor]. }
  unfold py_sorted.
  destruct (decorate _ _) as [dl|] eqn:D; cbn [option_map].
  2:{ split; [simpl; lia|]. split; [intros x []|constructor]. }
  destruct (ListingFacts.decorate_known getmtime _ _ D) as [E F].
  pose proof (PySortFacts.sort_perm dl) as P.
  split; [apply firstn_le_length|]. split.
  - intros x Hx.
    assert (Hin : In x (filter (endswith ".pdf") names)).
    { rewrite <- E. eapply Permutation_in;
        [apply Permutation_map; exact P|].
      rewrite <- (firstn_skipn 10 (map snd (sort dl))).
      apply in_or_app. now left. }
    apply filter_In in Hin as [Hn Hp]. split; [exact Hp|].
    now exists names.
  - apply ListingFacts.firstn_sorted, ListingFacts.sorted_newest_first.
    + eapply Permutation_Forall; [symmetry; exact P | exact F].
    + apply PySortFacts.sort_sorted.
Qed.

(** X10: when the time of every PDF file of the folder is known, the
    files shown and the files left out are together the PDF files of the
    folder, no file left out is newer than a file shown, and no file is
    left out when there are at most ten. *)
Theorem X10_latest_ten (names : list string) (getmtime : string -> option Z) :
  (forall x, In x names -> endswith ".pdf" x = true -> getmtime x <> None) ->
  exists rest,
    Permutation (generated_files (Some names) getmtime ++ rest)
      (filter (endswith ".pdf") names)
    /\ (forall x y, In x (generated_files (Some names) getmtime) ->
                    In y rest -> newer_or_same getmtime x y)
    /\ ((List.length (filter (endswith ".pdf") names) <= 10)%nat -> rest = []).
Proof.
  intros K. unfold generated_files, py_sorted.
  destruct (decorate _ _) as [dl|] eqn:D; cbn [option_map].
  2:{ exfalso. revert D. apply ListingFacts.decorate_all_known.
      intros x Hx. apply filter_In in Hx as [Hn Hp]. now apply K. }
  destruct (ListingFacts.decorate_known getmtime _ _ D) as [E F].
  pose proof (PySortFacts.sort_perm dl) as P.
  exists (skipn 10 (map snd (sort dl))). split; [|split].
  - rewrite firstn_skipn, <- E. now apply Permutation_map.
  - apply ListingFacts.sorted_app_inv. rewrite firstn_skipn.
    apply ListingFacts.sorted_newest_first.
    + eapply Permutation_Forall; [symmetry; exact P | exact F].
    + apply PySortFacts.sort_sorted.
  - intros L. apply skipn_all2.
    rewrite length_map, (Permutation_length P), <- (length_map snd), E.
    exact L.
Qed.

(** X10, at a folder of three files. *)
Lemma X10_latest_ten_witness :
  exists rest,
    Permutation
      (generated_files (Some ["a.pdf"; "notes.txt"; "b.pdf"])
         (fun f => if String.eqb f "b.pdf" then Some 7 else Some 3) ++ rest)
      (filter (endswith ".pdf") ["a.pdf"; "notes.txt"; "b.pdf"]).
Proof.
  destruct (X10_latest_ten ["a.pdf"; "notes.txt"; "b.pdf"]
              (fun f => if String.eqb f "b.pdf" then Some 7 else Some 3))
    as (rest & P & _).
  - intros x _ _. destruct (String.eqb x "b.pdf"); discriminate.
  - exists rest. exact P.
Defined.

(** X11: when the time of one PDF file of the folder cannot be read, the
    file having gone since the folder was listed, no file at all is
    shown. *)
Theorem X11_vanished_file_empties_list
    (names : list string) (getmtime : string -> option Z) (x : string) :
  In x names -> endswith ".pdf" x = true -> getmtime x = None ->
  generated_files (Some names) getmtime = [].
Proof.
  intros Hn Hp K. unfold generated_files, py_sorted.
  rewrite (ListingFacts.decorate_unknown getmtime _ x); [reflexivity| |exact K].
  apply filter_In. now split.
Qed.

(** X11, at a folder of two files, one of which has gone. *)
Lemma X11_vanished_file_empties_list_witness :
  generated_files (Some ["a.pdf"; "b.pdf"])
    (fun f => if String.eqb f "b.pdf" then None else Some 3)
  = [].
Proof.
  apply (X11_vanished_file_empties_list _ _ "b.pdf");
    [right; left; reflexivity | reflexivity | reflexivity].
Defined.

(** X12: the file that [generate_invoice] writes ends in [.pdf], and when
    it is in the folder and strictly newer than every other PDF file
    there, it is the first of the list of generated files. *)
Theorem X12_new_invoice_listed_first
    (names : list string) (getmtime : string -> option Z)
    (supplier_name number : string) (t : Z) :
  let fn := make_filename supplier_name number in
  In fn names ->
  getmtime fn = Some t ->
  (forall g, In g names -> endswith ".pdf" g = true -> g <> fn ->
             exists tg, getmtime g = Some tg /\ tg < t) ->
  endswith ".pdf" fn = true
  /\ hd_error (generated_files (Some names) getmtime) = Some fn.
Proof.
  intros fn Hin Ht Hold.
  pose proof (ListingFacts.make_filename_pdf supplier_name number) as Hp.
  fold fn in Hp. split; [exact Hp|].
  unfold generated_files, py_sorted.
  destruct (decorate _ _) as [dl|] eqn:D; cbn [option_map].
  2:{ exfalso. revert D. apply ListingFacts.decorate_all_known.
      intros x Hx. apply filter_In in Hx as [Hn Hx].
      destruct (String.eqb_spec x fn) as [->|Ne]; [congruence|].
      destruct (Hold x Hn Hx Ne) as (tg & -> & _). discriminate. }
  destruct (ListingFacts.decorate_known getmtime _ _ D) as [E F].
  pose proof (PySortFacts.sort_perm dl) as P.
  pose proof (PySortFacts.sort_sorted dl) as S.
  assert (F' : Forall (fun p => getmtime (snd p) = Some (- fst p)) (sort dl))
    by (eapply Permutation_Forall; [symmetry; exact P | exact F]).
  assert (Hfn : In fn (map snd (sort dl))).
  { eapply Permutation_in; [apply Permutation_map; symmetry; exact P|].
    rewrite E. apply filter_In. now split. }
  assert (Hall : forall x, In x (map snd (sort dl)) ->
                           In x names /\ endswith ".pdf" x = true).
  { intros x Hx. apply filter_In. rewrite <- E.
    eapply Permutation_in; [apply Permutation_map; exact P | exact Hx]. }
  destruct (sort dl) as [|[k0 x0] sl]; [destruct Hfn|].
  cbn [map firstn hd_error snd]. f_equal.
  destruct (String.eqb_spec x0 fn) as [E0|Ne]; [exact E0|]. exfalso.
  destruct (Hall x0 (or_introl eq_refl)) as [Hn0 Hp0].
  destruct (Hold x0 Hn0 Hp0 Ne) as (t0 & Ht0 & Hlt).
  inversion F' as [|? ? F0 Fl]; subst. cbn [fst snd] in F0.
  apply StronglySorted_inv in S as [_ A].
  cbn [map snd] in Hfn. destruct Hfn as [Hfn|Hfn]; [congruence|].
  apply in_map_iff in Hfn as ([kf xf] & Ef & Hq). cbn [snd] in Ef. subst xf.
  rewrite Forall_forall in A, Fl.
  specialize (A _ Hq). specialize (Fl _ Hq).
  unfold key_le in A. cbn [fst snd] in A, Fl.
  rewrite Ht0 in F0. rewrite Ht in Fl.
  inversion F0. inversion Fl. lia.
Qed.

(** X12, at a folder with an older invoice and a file that is no PDF. *)
Lemma X12_new_invoice_listed_first_witness :
  hd_error
    (generated_files
       (Some ["old.pdf"; "LENGOLF_Acme___Co._Inv_2024_05.pdf"; "z.txt"])
       (fun f => if String.eqb f "old.pdf" then Some 3 else Some 8))
  = Some "LENGOLF_Acme___Co._Inv_2024_05.pdf".
Proof.
  refine (proj2 (X12_new_invoice_listed_first
                   ["old.pdf"; "LENGOLF_Acme___Co._Inv_2024_05.pdf"; "z.txt"]
                   (fun f => if String.eqb f "old.pdf" then Some 3 else Some 8)
                   "Acme & Co." "2024/05" 8 _ _ _)).
  - right. left. reflexivity.
  - reflexivity.
  - intros g [<-|[<-|[<-|[]]]] Hp Hne.
    + exists 3. split; [reflexivity | lia].
    + exfalso. apply Hne. reflexivity.
    + discriminate Hp.
Defined.

(** X13: cleaning a name is stable: a cleaned name is left as it is by a
    second cleaning, so the file name built from cleaned names is the file
    name built from the names themselves; and a cleaned name is never
    longer than the name. *)
Theorem X13_clean_stable (s n : string) :
  clean (clean s) = clean s
  /\ (String.length (clean s) <= String.length s)%nat
  /\ make_filename (clean s) (clean n) = make_filename s n.
Proof.
  split; [apply CleanFacts.clean_idempotent|].
  split; [apply CleanFacts.length_clean|].
  unfold make_filename. now rewrite !CleanFacts.clean_idempotent.
Qed.

(** X14: the default invoice number that [create_invoice_form] fills in,
    today printed with [%Y%m], is not empty, so that it passes the test of
    the required fields, and it goes into the file name as it is. *)
Theorem X14_default_number_kept (today : date) (supplier_name : string) :
  valid_date today ->
  is_empty (strftime_Ym today) = false
  /\ clean (strftime_Ym today) = strftime_Ym today
  /\ make_filename supplier_name (strftime_Ym today)
     = ("LENGOLF_" ++ clean supplier_name ++ "_Inv_" ++ strftime_Ym today
        ++ ".pdf")%string.
Proof.
  intros (Hy & Hm & Hd).
  assert (C : clean (strftime_Ym today) = strftime_Ym today).
  { apply CleanFacts.clean_digits. unfold strftime_Ym.
    apply CleanFacts.all_chars_append.
    - now apply CleanFacts.str_year_digits.
    - apply CleanFacts.pad2_digits. lia. }
  split; [|split; [exact C|]].
  - unfold strftime_Ym, str_year.
    destruct (year today <? 10); [reflexivity|].
    destruct (year today <? 100); [reflexivity|].
    destruct (year today <? 1000); reflexivity.
  - unfold make_filename. now rewrite C.
Qed.

(** X14, in May 2024. *)
Lemma X14_default_number_kept_witness :
  clean (strftime_Ym {| year := 2024; month := 5; day := 3 |})
  = strftime_Ym {| year := 2024; month := 5; day := 3 |}.
Proof.
  refine (proj1 (proj2 (X14_default_number_kept
                          {| year := 2024; month := 5; day := 3 |}
                          EmptyString _))).
  unfold valid_date. simpl. vm_compute. intuition discriminate.
Defined.

(** X15: the price of a supplier row that [add_supplier] hands to the
    database is the float of the price text of the form, and it is NULL
    exactly when that field is absent or empty: an empty price is not
    stored as zero. The name of the row is the name of the form. *)
Theorem X15_price_stored
    (execute : supplier_row -> db_result) (f : form) cat msg row c :
  add_supplier execute f = Redirected cat msg (Some row) c ->
  form_get "name" f = Some (row_name row)
  /\ row_default_unit_price row
     = match form_get "default_unit_price" f with
       | Some t => if is_empty t then None else py_float t
       | None => None
       end
  /\ (row_default_unit_price row = None
      <-> form_get "default_unit_price" f = None
          \/ form_get "default_unit_price" f = Some EmptyString).
Proof.
  intros H.
  destruct (SupplierFacts.add_supplier_cases execute f)
    as [[_ E]|[(name & t & _ & _ & _ & _ & E)
              |(name & row' & cat' & msg' & c' & Hn & E & Hr & Hp & Hz & _)]];
    rewrite E in H; try discriminate.
  inversion H; subst. split; [exact Hn|]. split; [exact Hp|].
  split; [exact Hz|].
  rewrite Hp. intros [->| ->]; reflexivity.
Qed.

(** X15, at a form with an empty price. *)
Lemma X15_price_stored_witness :
  exists cat msg row c,
    add_supplier (fun _ => Db_ok)
      [("name", "Acme"); ("default_unit_price", EmptyString)]
    = Redirected cat msg (Some row) c
    /\ row_default_unit_price row = None.
Proof.
  do 4 eexists. split; [reflexivity|].
  refine (proj2 (proj2 (proj2 (X15_price_stored (fun _ => Db_ok)
            [("name", "Acme"); ("default_unit_price", EmptyString)]
            _ _ _ _ eq_refl))) _).
  right. reflexivity.
Defined.

(** X16: [add_supplier] flashes success only when the row was inserted
    and committed, and then it was; and the one case in which it goes back
    to the list without an INSERT is a price text that is not empty and
    that [float] rejects. *)
Theorem X16_success_only_committed
    (execute : supplier_row -> db_result) (f : form) cat msg ins c :
  add_supplier execute f = Redirected cat msg ins c ->
  (cat = Success <-> c = true)
  /\ (c = true -> exists row, ins = Some row /\ execute row = Db_ok)
  /\ (ins = None ->
      exists t, form_get "default_unit_price" f = Some t
                /\ is_empty t = false /\ py_float t = None).
Proof.
  intros H.
  destruct (SupplierFacts.add_supplier_cases execute f)
    as [[_ E]|[(name & t & _ & Ht & Ht1 & Ht2 & E)
              |(name & row' & cat' & msg' & c' & _ & E & _ & _ & _ & Hc & Hk)]];
    rewrite E in H; try discriminate; inversion H; subst.
  - split; [split; discriminate|]. split; [discriminate|].
    intros _. now exists t.
  - split; [now rewrite Hc, Hk|]. split; [|discriminate].
    intros Hc'. exists row'. split; [reflexivity | now apply Hk].
Qed.

(** X16, at a form whose price is no number. *)
Lemma X16_success_only_committed_witness :
  exists t, form_get "default_unit_price"
              [("name", "Acme"); ("default_unit_price", "ten")] = Some t
            /\ is_empty t = false /\ py_float t = None.
Proof.
  refine (proj2 (proj2 (X16_success_only_committed (fun _ => Db_ok)
            [("name", "Acme"); ("default_unit_price", "ten")]
            Failure "Invalid default price format." None false eq_refl))
            eq_refl).
Defined.

(** X17: the parser never makes up a line item: every item it returns has
    a description that is not empty and an amount greater than zero, and
    both are read from fields of the form whose keys carry one and the same
    index: the description is the trimmed value of a description field, the
    amount the float of the trimmed value of an amount field. *)
Theorem X17_items_come_from_form (f : form) its s it :
  parse_line_items (to_dict f) = Some (its, s) ->
  In it its ->
  is_empty (description it) = false
  /\ gt_zero (amount it) = true
  /\ exists i kd vd gd ka va ga,
       In (kd, vd) f /\ match_key kd = Some (gd, Description)
       /\ py_int gd = Some i
       /\ In (ka, va) f /\ match_key ka = Some (ga, Amount)
       /\ py_int ga = Some i
       /\ description it = strip vd
       /\ amount it = amount_of_text (strip va).
Proof.
  intros H Hit.
  destruct (AmountFacts.items_sent f its s H it Hit) as [Hv Hs].
  unfold valid in Hv. apply andb_true_iff in Hv as [Hd Ha].
  split; [now apply negb_true_iff in Hd|]. split; [exact Ha | exact Hs].
Qed.

(** X17, at a form with one item. *)
Lemma X17_items_come_from_form_witness :
  is_empty (description {| description := "Rent"; amount := amount_of_text "500" |})
  = false
  /\ gt_zero (amount {| description := "Rent"; amount := amount_of_text "500" |})
     = true.
Proof.
  destruct (X17_items_come_from_form
              [("items[0][description]", " Rent"); ("items[0][amount]", "500 ")]
              [{| description := "Rent"; amount := amount_of_text "500" |}]
              (amount_of_text "500")
              {| description := "Rent"; amount := amount_of_text "500" |})
    as (Hd & Ha & _).
  - vm_compute. reflexivity.
  - left. reflexivity.
  - split; [exact Hd | exact Ha].
Defined.

(** X18: an amount that is written with a minus sign makes no line item.
    When every amount field of the form has, once trimmed, a minus sign in
    front, the parser returns no item and the subtotal 0.0, and no invoice
    is rendered. *)
Theorem X18_minus_amounts_rejected
    (find_supplier : string -> option supplier) (f : form) :
  (forall k v g, In (k, v) f -> match_key k = Some (g, Amount) ->
                 exists r, strip v = String "-" r) ->
  (forall its s, parse_line_items (to_dict f) = Some (its, s) ->
                 its = [] /\ s = zero)
  /\ (forall fn data,
        generate_invoice find_supplier f = Some (Generated fn data) -> False).
Proof.
  intros Hm.
  assert (P : forall its s, parse_line_items (to_dict f) = Some (its, s) ->
                            its = [] /\ s = zero).
  { intros its s H.
    assert (E : its = []).
    { destruct its as [|it its]; [reflexivity|]. exfalso.
      destruct (AmountFacts.items_sent f _ s H it (or_introl eq_refl))
        as [Hv (i & kd & vd & gd & ka & va & ga & _ & _ & _ & Ha & Ma & _ & _ & Am)].
      destruct (Hm ka va ga Ha Ma) as [r Hr].
      unfold valid in Hv. apply andb_true_iff in Hv as [_ Hv].
      rewrite Am, Hr, AmountFacts.minus_not_positive in Hv. discriminate. }
    split; [exact E|]. subst its.
    rewrite ParserFacts.parse_form_spec in H.
    destruct (sortable (to_dict f)); [|discriminate].
    inversion H as [[E1 E2]]. rewrite E1. reflexivity. }
  split; [exact P|].
  intros fn data H.
  destruct (RoundFacts.generated_inv _ _ _ _ H) as (its & s & Hp & Hne & _).
  destruct (P its s Hp) as [E _]. contradiction.
Qed.

(** X18, at a form with one item of amount -5. *)
Lemma X18_minus_amounts_rejected_witness :
  exists its s,
    parse_line_items
      (to_dict [("items[0][description]", "Refund"); ("items[0][amount]", " -5")])
    = Some (its, s)
    /\ its = [] /\ s = zero.
Proof.
  do 2 eexists. split; [vm_compute; reflexivity|].
  refine (proj1 (X18_minus_amounts_rejected (fun _ => None)
                   [("items[0][description]", "Refund");
                    ("items[0][amount]", " -5")] _) _ _ _).
  - intros k v g [E|[E|[]]] M; inversion E; subst k v.
    + vm_compute in M. discriminate M.
    + exists "5". reflexivity.
  - vm_compute. reflexivity.
Defined.

(** X19: one more row at the end. When a description field and an amount
    field of an index greater than every index of the form are added at the
    end of the form, the parser returns what it returned before, followed
    by the new item with its amount added to the subtotal if the new item
    is valid, and just what it returned before if not. *)
Theorem X19_row_appended (f : form) (kd vd ka va gd ga : string) (i : Z) its s :
  parse_line_items (to_dict f) = Some (its, s) ->
  match_key kd = Some (gd, Description) -> py_int gd = Some i ->
  match_key ka = Some (ga, Amount) -> py_int ga = Some i ->
  (forall k v g fd j, In (k, v) f -> match_key k = Some (g, fd) ->
                      py_int g = Some j -> j < i) ->
  let it := {| description := strip vd; amount := amount_of_text (strip va) |} in
  parse_line_items (to_dict (f ++ [(kd, vd); (ka, va)])%list)
  = Some (if valid it then ((its ++ [it])%list, add s (amount it))
          else (its, s)).
Proof.
  intros H Md Gd Ma Ga Hlt it.
  assert (New : forall k g fd, match_key k = Some (g, fd) ->
                               py_int g = Some i -> ~ In k (map fst f)).
  { intros k g fd M G Hin. apply in_map_iff in Hin as ([k' v] & E & Hin).
    cbn [fst] in E. subst k'. specialize (Hlt k v g fd i Hin M G). lia. }
  assert (Ne : kd <> ka) by (intros E; rewrite E in Md; congruence).
  rewrite ParserFacts.parse_form_spec in H |- *.
  rewrite (AmountFacts.to_dict_two_new f kd vd ka va
             (New _ _ _ Md Gd) (New _ _ _ Ma Ga) Ne).
  rewrite AmountFacts.sortable_app.
  destruct (sortable (to_dict f)); [|discriminate].
  inversion H as [[E1 E2]]. clear H.
  destruct (KeyFacts.match_key_sort_key _ _ _ Md) as (Sd & Kd & _).
  destruct (KeyFacts.match_key_sort_key _ _ _ Ma) as (Sa & Ka & _).
  assert (S2 : sortable [(kd, (vd, [])); (ka, (va, []))] = true).
  { unfold sortable, keys. cbn [map fst filter]. rewrite Sd, Sa.
    cbn [forallb]. now rewrite Kd, Ka, Gd, Ga. }
  rewrite S2. cbn [andb]. unfold entries. rewrite flat_map_app.
  fold (entries (to_dict f)).
  assert (E : flat_map entry_of [(kd, (vd, [])); (ka, (va, []))]
              = [(i, Description, strip vd); (i, Amount, strip va)]).
  { cbn [flat_map]. unfold entry_of. cbn [fst snd].
    rewrite Md, Gd, Ma, Ga. reflexivity. }
  rewrite E.
  assert (F : Forall (fun e => idx e < idx (i, Description, strip vd))
                (entries (to_dict f))).
  { apply Forall_forall. intros [[j fd] t] He.
    apply AmountFacts.entry_sent in He as (k & v & g & Hin & M & G & _).
    exact (Hlt k v g fd j Hin M G). }
  pose proof (AmountFacts.spec_items_new_last (entries (to_dict f))
                (i, Description, strip vd) (i, Amount, strip va)
                eq_refl eq_refl eq_refl F) as R.
  unfold entry in R |- *. rewrite R.
  cbn [txt snd filter]. fold it.
  destruct (valid it); [|now rewrite !app_nil_r].
  rewrite map_app. cbn [map]. now rewrite LoopFacts.float_sum_snoc.
Qed.

(** X19, at a form with one item and a second one added. *)
Lemma X19_row_appended_witness :
  parse_line_items
    (to_dict ([("items[0][description]", "Rent"); ("items[0][amount]", "500")]
              ++ [("items[1][description]", "Balls"); ("items[1][amount]", "20")])%list)
  = Some (if valid {| description := strip "Balls";
                      amount := amount_of_text (strip "20") |}
          then (([{| description := "Rent"; amount := amount_of_text "500" |}]
                 ++ [{| description := strip "Balls";
                        amount := amount_of_text (strip "20") |}])%list,
                add (amount_of_text "500")
                  (amount {| description := strip "Balls";
                             amount := amount_of_text (strip "20") |}))
          else ([{| description := "Rent"; amount := amount_of_text "500" |}],
                amount_of_text "500")).
Proof.
  refine (X19_row_appended
            [("items[0][description]", "Rent"); ("items[0][amount]", "500")]
            "items[1][description]" "Balls" "items[1][amount]" "20" "1" "1" 1
            [{| description := "Rent"; amount := amount_of_text "500" |}]
            (amount_of_text "500") _ _ _ _ _ _).
  - vm_compute. reflexivity.
  - reflexivity.
  - reflexivity.
  - reflexivity.
  - reflexivity.
  - intros k v g fd j [E|[E|[]]] M G; inversion E; subst k v;
      vm_compute in M; inversion M; subst g; vm_compute in G;
      inversion G; lia.
Defined.
